(** * pygeotogether: period resolution, usage aggregation and the session gate

    A shallow embedding of [pygeotogether/geocommon.py] and
    [pygeotogether/geotogether.py].  Python values are modelled as follows:

    - [datetime.date] is a record of three integers; the constructor check,
      the ordinal conversions and the [timedelta] addition follow
      CPython's [datetime.py];
    - [dateutil.relativedelta] keeps the four fields the client uses
      ([years], [months], [days] and the absolute [day]);
    - JSON objects are records whose fields are [option]s, [None] standing
      for a key that is not in the object;
    - JSON numbers are kept abstract behind the [Number] class;
    - the [aiohttp] session is a header map plus a transport oracle, and the
      requests a call issues are collected in a trace. *)

From Stdlib Require Import ZArith Lia List Bool.
From stdpp Require Import base option list strings gmap pretty.

Local Open Scope string_scope.
Local Open Scope Z_scope.

(** ** Exceptions *)

#[local] Unset Elimination Schemes.
Inductive exn : Type :=
  | GeoTogetherError (msg : string) (cause : option exn)
  | GeoTogetherAuthenticationError (msg : string)
  | GeoTogetherSystemError (msg : string)
  | ClientError (detail : string)
  | KeyError (key : string)
  | TypeError
  | AttributeError
  | ValueError
  | OverflowError.
#[local] Set Elimination Schemes.

(** [isinstance(e, GeoTogetherError)]: the two specific errors subclass it. *)
Definition isinstance_GeoTogetherError (e : exn) : bool :=
  match e with
  | GeoTogetherError _ _ | GeoTogetherAuthenticationError _
  | GeoTogetherSystemError _ => true
  | _ => false
  end.

Definition isinstance_ClientError (e : exn) : bool :=
  match e with ClientError _ => true | _ => false end.

Inductive outcome (A : Type) : Type :=
  | Ok (a : A)
  | Raise (e : exn).
Arguments Ok {A} a.
Arguments Raise {A} e.

Definition obind {A B} (m : outcome A) (k : A -> outcome B) : outcome B :=
  match m with
  | Ok a => k a
  | Raise e => Raise e
  end.

Notation "'let?' x := m 'in' k" := (obind m (fun x => k))
  (at level 10, x pattern, m at level 100, k at level 200).

(** [d[key]] on a JSON object whose key may be missing. *)
Definition subscript {A} (key : string) (field : option A) : outcome A :=
  match field with
  | Some v => Ok v
  | None => Raise (KeyError key)
  end.

(** ** datetime.date *)

Definition MINYEAR : Z := 1.
Definition MAXYEAR : Z := 9999.
Definition _MAXORDINAL : Z := 3652059.

Definition index (l : list Z) (i : Z) : Z := nth (Z.to_nat i) l 0.

Definition _DAYS_IN_MONTH : list Z :=
  [-1; 31; 28; 31; 30; 31; 30; 31; 31; 30; 31; 30; 31].

Definition _DAYS_BEFORE_MONTH : list Z :=
  [-1; 0; 31; 59; 90; 120; 151; 181; 212; 243; 273; 304; 334].

Definition _is_leap (year : Z) : bool :=
  (year mod 4 =? 0) && (negb (year mod 100 =? 0) || (year mod 400 =? 0)).

Definition _days_before_year (year : Z) : Z :=
  let y := year - 1 in
  y * 365 + y / 4 - y / 100 + y / 400.

Definition _days_in_month (year month : Z) : Z :=
  if (month =? 2) && _is_leap year then 29 else index _DAYS_IN_MONTH month.

Definition _days_before_month (year month : Z) : Z :=
  index _DAYS_BEFORE_MONTH month
  + (if (2 <? month) && _is_leap year then 1 else 0).

Definition _ymd2ord (year month day : Z) : Z :=
  _days_before_year year + _days_before_month year month + day.

Definition _DI400Y : Z := 146097.
Definition _DI100Y : Z := 36524.
Definition _DI4Y : Z := 1461.

Definition _ord2ymd (n : Z) : Z * Z * Z :=
  let n := n - 1 in
  let n400 := n / _DI400Y in
  let n := n mod _DI400Y in
  let year := n400 * 400 + 1 in
  let n100 := n / _DI100Y in
  let n := n mod _DI100Y in
  let n4 := n / _DI4Y in
  let n := n mod _DI4Y in
  let n1 := n / 365 in
  let n := n mod 365 in
  let year := year + (n100 * 100 + n4 * 4 + n1) in
  if (n1 =? 4) || (n100 =? 4) then (year - 1, 12, 31)
  else
    let leapyear := (n1 =? 3) && (negb (n4 =? 24) || (n100 =? 3)) in
    let month := Z.shiftr (n + 50) 5 in
    let preceding :=
      index _DAYS_BEFORE_MONTH month
      + (if (2 <? month) && leapyear then 1 else 0) in
    if n <? preceding then
      let month := month - 1 in
      let preceding :=
        preceding
        - (index _DAYS_IN_MONTH month
           + (if (month =? 2) && leapyear then 1 else 0)) in
      (year, month, n - preceding + 1)
    else (year, month, n - preceding + 1).

Record date : Type := mkdate { year : Z; month : Z; day : Z }.

(** [_check_date_fields]: what the constructor and [replace] accept. *)
Definition date_fields_ok (y m d : Z) : bool :=
  (MINYEAR <=? y) && (y <=? MAXYEAR)
  && (1 <=? m) && (m <=? 12)
  && (1 <=? d) && (d <=? _days_in_month y m).

Definition valid_date (d : date) : Prop :=
  date_fields_ok (year d) (month d) (day d) = true.

(** The range of a C [int], 32 bits wide. *)
Definition INT_MIN : Z := -2147483648.
Definition INT_MAX : Z := 2147483647.

Definition fits_int (x : Z) : bool := (INT_MIN <=? x) && (x <=? INT_MAX).

(** [date.replace(year=, month=, day=)].  The method is C code: it reads
    its three arguments as C [int]s, and one that does not fit raises
    [OverflowError]; the fields are checked after that, and a field out of
    range raises [ValueError]. *)
Definition date_replace (y m d : Z) : outcome date :=
  if fits_int y && fits_int m && fits_int d then
    if date_fields_ok y m d then Ok (mkdate y m d) else Raise ValueError
  else Raise OverflowError.

Definition toordinal (d : date) : Z := _ymd2ord (year d) (month d) (day d).

Definition fromordinal (n : Z) : date :=
  let '(y, m, d) := _ord2ymd n in mkdate y m d.

(** Monday is 0, Sunday is 6. *)
Definition weekday (d : date) : Z := (toordinal d + 6) mod 7.

(** [timedelta(days=n)] refuses more than 999999999 days either way. *)
Definition timedelta_days (n : Z) : outcome Z :=
  if Z.abs n <=? 999999999 then Ok n else Raise OverflowError.

(** [date.__add__(timedelta)]. *)
Definition date_add_timedelta (d : date) (days : Z) : outcome date :=
  let o := toordinal d + days in
  if (0 <? o) && (o <=? _MAXORDINAL) then Ok (fromordinal o)
  else Raise OverflowError.

(** Dates compare as the tuples (year, month, day). *)
Definition date_leb (a b : date) : bool :=
  (year a <? year b)
  || ((year a =? year b)
      && ((month a <? month b)
          || ((month a =? month b) && (day a <=? day b)))).

Definition zero_pad (width : nat) (n : Z) : string :=
  let s := pretty n in
  String.concat "" (replicate (width - String.length s) "0") +:+ s.

(** [date.isoformat()]: ["%04d-%02d-%02d"]. *)
Definition isoformat (d : date) : string :=
  zero_pad 4 (year d) +:+ "-" +:+ zero_pad 2 (month d) +:+ "-"
  +:+ zero_pad 2 (day d).

(** ** calendar.monthrange and dateutil.relativedelta *)

Definition mdays : list Z :=
  [0; 31; 28; 31; 30; 31; 30; 31; 31; 30; 31; 30; 31].

Definition isleap (year : Z) : bool :=
  (year mod 4 =? 0) && (negb (year mod 100 =? 0) || (year mod 400 =? 0)).

(** [calendar.monthrange(year, month)[1]]; [IllegalMonthError] is a
    [ValueError]. *)
Definition monthrange_ndays (year month : Z) : outcome Z :=
  if (1 <=? month) && (month <=? 12) then
    Ok (index mdays month + (if (month =? 2) && isleap year then 1 else 0))
  else Raise ValueError.

Record relativedelta : Type := mkrelativedelta {
  rd_years : Z;
  rd_months : Z;
  rd_days : Z;
  rd_day : option Z
}.

Definition _sign (x : Z) : Z := if x <? 0 then -1 else 1.

(** [relativedelta(years=, months=, days=, weeks=, day=)] followed by its
    [_fix()]: weeks are folded into days, months beyond 11 into years. *)
Definition new_relativedelta (years months days weeks : Z) (day : option Z)
  : relativedelta :=
  let days := days + weeks * 7 in
  if 11 <? Z.abs months then
    let s := _sign months in
    let div := (months * s) / 12 in
    let md := (months * s) mod 12 in
    mkrelativedelta (years + div * s) (md * s) days day
  else mkrelativedelta years months days day.

(** [self.day or other.day] *)
Definition day_or (absolute : option Z) (other : Z) : Z :=
  match absolute with
  | Some d => if d =? 0 then other else d
  | None => other
  end.

(** [relativedelta.__radd__] on a [date]. *)
Definition date_add_relativedelta (other : date) (self : relativedelta)
  : outcome date :=
  let year := year other + rd_years self in
  let month := month other in
  let '(year, month) :=
    if rd_months self =? 0 then (year, month)
    else
      let month := month + rd_months self in
      if 12 <? month then (year + 1, month - 12)
      else if month <? 1 then (year - 1, month + 12)
      else (year, month) in
  let? ndays := monthrange_ndays year month in
  let day := Z.min ndays (day_or (rd_day self) (day other)) in
  let? replaced := date_replace year month day in
  let? delta := timedelta_days (rd_days self) in
  date_add_timedelta replaced delta.

(** ** geocommon.py: the enumerations *)

Inductive GeoEnergyType : Type := ELECTRICITY | GAS_ENERGY.

#[global] Instance GeoEnergyType_eq_dec : EqDecision GeoEnergyType.
Proof. solve_decision. Defined.

Definition GeoEnergyType_value (t : GeoEnergyType) : string :=
  match t with
  | ELECTRICITY => "Electricity"
  | GAS_ENERGY => "Gas"
  end.

(** [GeoEnergyType[name]]: lookup by member name. *)
Definition GeoEnergyType_getitem (name : string) : outcome GeoEnergyType :=
  if bool_decide (name = "ELECTRICITY") then Ok ELECTRICITY
  else if bool_decide (name = "GAS_ENERGY") then Ok GAS_ENERGY
  else Raise (KeyError name).

Inductive GeoTimePeriod : Type := DAY | WEEK | MONTH | UNBILLED | FOREVER.

#[global] Instance GeoTimePeriod_eq_dec : EqDecision GeoTimePeriod.
Proof. solve_decision. Defined.

Definition GeoTimePeriod_name (p : GeoTimePeriod) : string :=
  match p with
  | DAY => "DAY"
  | WEEK => "WEEK"
  | MONTH => "MONTH"
  | UNBILLED => "UNBILLED"
  | FOREVER => "FOREVER"
  end.

Definition GeoTimePeriod_value (p : GeoTimePeriod) : string :=
  match p with
  | DAY => "Day"
  | WEEK => "Week"
  | MONTH => "Month"
  | UNBILLED => "Since Last Bill"
  | FOREVER => "All Time"
  end.

(** [GeoTimePeriod[name]] *)
Definition GeoTimePeriod_getitem (name : string) : outcome GeoTimePeriod :=
  if bool_decide (name = "DAY") then Ok DAY
  else if bool_decide (name = "WEEK") then Ok WEEK
  else if bool_decide (name = "MONTH") then Ok MONTH
  else if bool_decide (name = "UNBILLED") then Ok UNBILLED
  else if bool_decide (name = "FOREVER") then Ok FOREVER
  else Raise (KeyError name).

(** [GeoTimePeriod.resolve(self, offset, start_date)] with the start date
    given explicitly. *)
Definition resolve (self : GeoTimePeriod) (offset : Z) (start_date : date)
  : outcome (option date * option date) :=
  match self with
  | DAY =>
      let? from_date :=
        date_add_relativedelta start_date
          (new_relativedelta 0 0 offset 0 None) in
      Ok (Some from_date, Some from_date)
  | WEEK =>
      let? from_date :=
        date_add_relativedelta start_date
          (new_relativedelta 0 0 (- weekday start_date) offset None) in
      let? to_date :=
        date_add_relativedelta from_date (new_relativedelta 0 0 6 0 None) in
      Ok (Some from_date, Some to_date)
  | MONTH =>
      let? from_date :=
        date_add_relativedelta start_date
          (new_relativedelta 0 offset 0 0 (Some 1)) in
      let? to_date :=
        date_add_relativedelta from_date
          (new_relativedelta 0 1 (-1) 0 None) in
      Ok (Some from_date, Some to_date)
  | UNBILLED | FOREVER => Ok (None, None)
  end.

(** The module object of [geocommon]: the [def] of [resolve] evaluates its
    default [start_date=date.today()] once, when the module is imported. *)
Record geocommon_module : Type := {
  resolve_start_date_default : date
}.

Definition import_geocommon (today : date) : geocommon_module :=
  {| resolve_start_date_default := today |}.

(** [time_period.resolve(offset)]: the start date is left to its default. *)
Definition resolve_default (geocommon : geocommon_module)
    (self : GeoTimePeriod) (offset : Z) : outcome (option date * option date) :=
  resolve self offset (resolve_start_date_default geocommon).

(** ** JSON numbers and insertion-ordered dictionaries *)

(** JSON numbers reach the client as Python [int]s or [float]s; the client
    only ever uses the literal [0] and [+] on them. *)
Class Number (num : Type) : Type := {
  num_zero : num;
  num_add : num -> num -> num
}.

#[global] Instance Z_Number : Number Z := {| num_zero := 0; num_add := Z.add |}.

Section dict.
Context {K V : Type} `{!EqDecision K}.

(** A Python [dict]: keys are unique and keep their insertion order. *)
Fixpoint dict_get (k : K) (d : list (K * V)) : option V :=
  match d with
  | [] => None
  | (k', v) :: rest => if decide (k = k') then Some v else dict_get k rest
  end.

(** [d[k] = v]: overwrite in place, or append a new key. *)
Fixpoint dict_set (k : K) (v : V) (d : list (K * V)) : list (K * V) :=
  match d with
  | [] => [(k, v)]
  | (k', v') :: rest =>
      if decide (k = k') then (k, v) :: rest
      else (k', v') :: dict_set k v rest
  end.

Definition dict_values (d : list (K * V)) : list V := map snd d.
Definition dict_keys (d : list (K * V)) : list K := map fst d.
End dict.

(** A [for] loop whose body may raise. *)
Fixpoint for_each {A B : Type} (body : A -> B -> outcome A) (acc : A)
    (items : list B) : outcome A :=
  match items with
  | [] => Ok acc
  | x :: rest => let? acc := body acc x in for_each body acc rest
  end.

(** A list comprehension whose element expression may raise. *)
Fixpoint comprehension {A B : Type} (f : A -> outcome B) (items : list A)
  : outcome (list B) :=
  match items with
  | [] => Ok []
  | x :: rest =>
      let? y := f x in
      let? ys := comprehension f rest in
      Ok (y :: ys)
  end.

(** ** geocommon.py: usage values, and the API payloads *)

Section usage.
Context {num : Type} `{!Number num}.

Record GeoEnergyUsage : Type := mkGeoEnergyUsage {
  eu_period : GeoTimePeriod;
  eu_type : GeoEnergyType;
  eu_energy_amount : option num;
  eu_energy_cost : option num
}.

Record GeoPeriodicEnergyUsage : Type := mkGeoPeriodicEnergyUsage {
  peu_type : GeoEnergyType;
  peu_usage : list GeoEnergyUsage
}.

(** [GeoPeriodicEnergyUsage.get_usage] *)
Fixpoint get_usage_in (usage : list GeoEnergyUsage) (period : GeoTimePeriod)
  : option GeoEnergyUsage :=
  match usage with
  | [] => None
  | periodic_usage :: rest =>
      if decide (eu_period periodic_usage = period) then Some periodic_usage
      else get_usage_in rest period
  end.

Definition get_usage (self : GeoPeriodicEnergyUsage) (period : GeoTimePeriod)
  : option GeoEnergyUsage :=
  get_usage_in (peu_usage self) period.

(** The two kinds of right operand [__add__] distinguishes. *)
Inductive addend : Type :=
  | OneUsage (u : GeoEnergyUsage)
  | UsageList (l : list GeoEnergyUsage).

(** [GeoPeriodicEnergyUsage.__add__]: [append] or [extend] on the list
    the object holds, and the object itself is returned. *)
Definition peu_add (self : GeoPeriodicEnergyUsage) (other : addend)
  : GeoPeriodicEnergyUsage :=
  match other with
  | OneUsage u =>
      mkGeoPeriodicEnergyUsage (peu_type self) (peu_usage self ++ [u])
  | UsageList l =>
      mkGeoPeriodicEnergyUsage (peu_type self) (peu_usage self ++ l)
  end.

(** JSON objects of the API, one field per key the client looks at. *)
Record system_detail : Type := {
  sd_systemId : option string;
  sd_name : option string
}.

Record power_reading : Type := {
  type : option string;
  watts : option num
}.

Record commodity_total : Type := {
  ct_commodityType : option string;
  energyKWh : option num;
  costPence : option num
}.

Record period_total : Type := {
  commodityTotalsList : option (list commodity_total)
}.

Record consumption : Type := {
  tc_commodityType : option string;
  totalConsumption : option num
}.

Record unbilled : Type := {
  btd_commodityType : option string;
  billToDate : option num
}.

Record current_cost : Type := {
  duration : option string;
  energyAmount : option num;
  costAmount : option num
}.

Record payload : Type := {
  accessToken : option string;
  systemDetails : option (list system_detail);
  power : option (list power_reading);
  totalConsumptionList : option (list consumption);
  billToDateList : option (list unbilled);
  currentCostsElec : option (list current_cost);
  currentCostsGas : option (list current_cost);
  totalsList : option (list period_total)
}.

Definition empty_payload : payload :=
  {| accessToken := None; systemDetails := None; power := None;
     totalConsumptionList := None; billToDateList := None;
     currentCostsElec := None; currentCostsGas := None;
     totalsList := None |}.

Record GeoLivePowerUsage : Type := {
  _live_usage : power_reading
}.

(** ** geotogether.py: the payload parsers *)

(** [field += x] on an attribute that may hold [None]. *)
Definition iadd (field : option num) (x : num) : outcome (option num) :=
  match field with
  | Some v => Ok (Some (num_add v x))
  | None => Raise TypeError
  end.

Definition _parse_historic_commodity_total (time_period : GeoTimePeriod)
    (accumulator : list (GeoEnergyType * GeoEnergyUsage))
    (usage : commodity_total)
  : outcome (list (GeoEnergyType * GeoEnergyUsage)) :=
  let? key := subscript "commodityType" (ct_commodityType usage) in
  let? energy_type := GeoEnergyType_getitem key in
  let amount := default num_zero (energyKWh usage) in
  let cost := default num_zero (costPence usage) in
  match dict_get energy_type accumulator with
  | Some energy_usage =>
      let? new_amount := iadd (eu_energy_amount energy_usage) amount in
      let? new_cost := iadd (eu_energy_cost energy_usage) cost in
      Ok (dict_set energy_type
            (mkGeoEnergyUsage (eu_period energy_usage) (eu_type energy_usage)
               new_amount new_cost)
            accumulator)
  | None =>
      Ok (dict_set energy_type
            (mkGeoEnergyUsage time_period energy_type (Some amount)
               (Some cost))
            accumulator)
  end.

Definition _parse_historic_commodity_totals (time_period : GeoTimePeriod)
    (commodity_totals : list commodity_total)
    (accumulator : list (GeoEnergyType * GeoEnergyUsage))
  : outcome (list (GeoEnergyType * GeoEnergyUsage)) :=
  for_each (_parse_historic_commodity_total time_period) accumulator
    commodity_totals.

(** [accumulator[energy_type] + usage] when the key is there, a new
    [GeoPeriodicEnergyUsage] otherwise. *)
Definition accumulate (energy_type : GeoEnergyType) (other : addend)
    (fresh : list GeoEnergyUsage)
    (accumulator : list (GeoEnergyType * GeoPeriodicEnergyUsage))
  : list (GeoEnergyType * GeoPeriodicEnergyUsage) :=
  match dict_get energy_type accumulator with
  | Some periodic =>
      dict_set energy_type (peu_add periodic other) accumulator
  | None =>
      dict_set energy_type (mkGeoPeriodicEnergyUsage energy_type fresh)
        accumulator
  end.

Definition _parse_current_costs (energy_type : GeoEnergyType)
    (current_costs : list current_cost)
    (accumulator : list (GeoEnergyType * GeoPeriodicEnergyUsage))
  : outcome (list (GeoEnergyType * GeoPeriodicEnergyUsage)) :=
  let? usage :=
    comprehension
      (fun u =>
         let? key := subscript "duration" (duration u) in
         let? period := GeoTimePeriod_getitem key in
         let? amount := subscript "energyAmount" (energyAmount u) in
         let? cost := subscript "costAmount" (costAmount u) in
         Ok (mkGeoEnergyUsage period energy_type (Some amount) (Some cost)))
      current_costs in
  Ok (accumulate energy_type (UsageList usage) usage accumulator).

Definition _parse_bill_to_date (bill_to_date : list unbilled)
    (accumulator : list (GeoEnergyType * GeoPeriodicEnergyUsage))
  : outcome (list (GeoEnergyType * GeoPeriodicEnergyUsage)) :=
  for_each
    (fun accumulator unbilled =>
       let? key := subscript "commodityType" (btd_commodityType unbilled) in
       let? energy_type := GeoEnergyType_getitem key in
       let? cost := subscript "billToDate" (billToDate unbilled) in
       let usage := mkGeoEnergyUsage UNBILLED energy_type None (Some cost) in
       Ok (accumulate energy_type (OneUsage usage) [usage] accumulator))
    accumulator bill_to_date.

Definition _parse_total_consumption (total_consumption : list consumption)
    (accumulator : list (GeoEnergyType * GeoPeriodicEnergyUsage))
  : outcome (list (GeoEnergyType * GeoPeriodicEnergyUsage)) :=
  for_each
    (fun accumulator consumption =>
       let? key :=
         subscript "commodityType" (tc_commodityType consumption) in
       let? energy_type := GeoEnergyType_getitem key in
       let? amount :=
         subscript "totalConsumption" (totalConsumption consumption) in
       let usage := mkGeoEnergyUsage FOREVER energy_type (Some amount) None in
       Ok (accumulate energy_type (OneUsage usage) [usage] accumulator))
    accumulator total_consumption.
End usage.

Arguments GeoEnergyUsage : clear implicits.
Arguments GeoPeriodicEnergyUsage : clear implicits.
Arguments GeoLivePowerUsage : clear implicits.
Arguments addend : clear implicits.
Arguments system_detail : clear implicits.
Arguments power_reading : clear implicits.
Arguments commodity_total : clear implicits.
Arguments period_total : clear implicits.
Arguments consumption : clear implicits.
Arguments unbilled : clear implicits.
Arguments current_cost : clear implicits.
Arguments payload : clear implicits.

(** ** geotogether.py: the client, its session and the transport *)

(** The Python values [_system_id] and [resolve_system]'s result range over. *)
Inductive pyvalue : Type :=
  | PyNone
  | PyBool (b : bool)
  | PyStr (s : string).

Definition truthy (v : pyvalue) : bool :=
  match v with
  | PyNone => false
  | PyBool b => b
  | PyStr s => negb (bool_decide (s = ""))
  end.

(** [str(v)], as an f-string interpolates it. *)
Definition py_str (v : pyvalue) : string :=
  match v with
  | PyNone => "None"
  | PyBool true => "True"
  | PyBool false => "False"
  | PyStr s => s
  end.

(** [not name] for the optional [name] argument. *)
Definition name_given (name : option string) : bool :=
  match name with
  | None => false
  | Some s => negb (bool_decide (s = ""))
  end.

(** The client object; [headers] are [self._client_session.headers]. *)
Record GeoTogetherClient : Type := mkGeoTogetherClient {
  _system_id : pyvalue;
  _username : string;
  _password : string;
  headers : gmap string string
}.

(** [GeoTogetherClient(username, password)] on a session without headers. *)
Definition new_client (username password : string) : GeoTogetherClient :=
  mkGeoTogetherClient PyNone username password ∅.

Record request : Type := mkrequest {
  req_method : string;
  req_url : string;
  req_headers : gmap string string;
  req_json : list (string * string)
}.

(** What a request comes back with: a response, whose body is a JSON
    object, or a [ClientError] of the transport.  A response whose body is
    no JSON object (null, a list, text that does not parse) is not
    described: the client would fail on it with an error of another kind. *)
Inductive reply (num : Type) : Type :=
  | Response (status : Z) (body : payload num)
  | Failure (detail : string).
Arguments Response {num} status body.
Arguments Failure {num} detail.

(** What lies outside the process at the time of one call: the calendar
    date and the server behind the session. *)
Record world (num : Type) : Type := mkworld {
  today : date;
  transport : request -> reply num
}.
Arguments mkworld {num} today transport.
Arguments today {num} w.
Arguments transport {num} w.

(** A method of the client: it may raise, it may change the client, and it
    issues requests. *)
Definition M (A : Type) : Type :=
  GeoTogetherClient -> outcome A * GeoTogetherClient * list request.

Definition ret {A} (a : A) : M A := fun c => (Ok a, c, []).

Definition raise {A} (e : exn) : M A := fun c => (Raise e, c, []).

Definition bind {A B} (m : M A) (k : A -> M B) : M B :=
  fun c =>
    match m c with
    | (Ok a, c', issued) =>
        let '(r, c'', issued') := k a c' in (r, c'', (issued ++ issued')%list)
    | (Raise e, c', issued) => (Raise e, c', issued)
    end.

Notation "'let!' x := m 'in' k" := (bind m (fun x => k))
  (at level 10, x pattern, m at level 100, k at level 200).
Notation "m ;; k" := (bind m (fun _ => k))
  (at level 100, k at level 200, right associativity).

Definition lift {A} (o : outcome A) : M A := fun c => (o, c, []).

Definition self : M GeoTogetherClient := fun c => (Ok c, c, []).

Definition set_system_id (v : pyvalue) : M unit :=
  fun c =>
    (Ok tt, mkGeoTogetherClient v (_username c) (_password c) (headers c), []).

(** [self._client_session.headers[key] = value] *)
Definition set_header (key value : string) : M unit :=
  fun c =>
    (Ok tt,
     mkGeoTogetherClient (_system_id c) (_username c) (_password c)
       (<[key := value]> (headers c)),
     []).

(** [del self._client_session.headers[key]] *)
Definition del_header (key : string) : M unit :=
  fun c =>
    match headers c !! key with
    | Some _ =>
        (Ok tt,
         mkGeoTogetherClient (_system_id c) (_username c) (_password c)
           (delete key (headers c)),
         [])
    | None => (Raise (KeyError key), c, [])
    end.

(** [try: body except ClientError as exc: handler] *)
Definition try_except_ClientError {A} (body : M A) (handler : exn -> M A)
  : M A :=
  fun c =>
    match body c with
    | (Raise e, c', issued) =>
        if isinstance_ClientError e then
          let '(r, c'', issued') := handler e c' in (r, c'', (issued ++ issued')%list)
        else (Raise e, c', issued)
    | done => done
    end.

Definition _build_url (uri : string) : string :=
  "https://api.geotogether.com/" +:+ uri.

Definition lower_ascii (a : Ascii.ascii) : Ascii.ascii :=
  let n := Ascii.N_of_ascii a in
  if ((65 <=? n) && (n <=? 90))%N then Ascii.ascii_of_N (n + 32) else a.

(** [str.lower()] on ASCII text. *)
Fixpoint lower (s : string) : string :=
  match s with
  | EmptyString => EmptyString
  | String a rest => String (lower_ascii a) (lower rest)
  end.

Section client.
Context {num : Type} `{!Number num}.

(** [self._client_session.get(url)] / [.post(url, json=...)]: the session
    sends its headers along; a transport failure raises [ClientError]. *)
Definition send (w : world num) (method url : string)
    (json : list (string * string)) : M (Z * payload num) :=
  fun c =>
    let req := mkrequest method url (headers c) json in
    match transport w req with
    | Response status body => (Ok (status, body), c, [req])
    | Failure detail => (Raise (ClientError detail), c, [req])
    end.

Definition _check_prerequisits : M unit :=
  let! c := self in
  match headers c !! "Authorization" with
  | None =>
      raise (GeoTogetherAuthenticationError
               "You must authenticate before you can use this API")
  | Some _ =>
      if negb (truthy (_system_id c)) then
        raise (GeoTogetherSystemError
                 "You must resolve the system before you can use this API")
      else ret tt
  end.

Definition authenticate (w : world num) : M bool :=
  try_except_ClientError
    (let! c := self in
     let! (status, auth_payload) :=
       send w "POST" (_build_url "usersservice/v2/login")
         [("identity", _username c); ("password", _password c)] in
     if status =? 200 then
       match accessToken auth_payload with
       | Some token =>
           set_header "Authorization" ("Bearer " +:+ token) ;;
           ret true
       | None => ret false
       end
     else ret false)
    (fun _ => ret false).

(** The [for system in ...] loop of [resolve_system], left at its
    [break]. *)
Fixpoint resolve_system_loop (name : option string)
    (systems : list system_detail) : M unit :=
  match systems with
  | [] => ret tt
  | system :: rest =>
      match sd_systemId system, sd_name system with
      | Some system_id, Some system_name =>
          if negb (name_given name)
             || bool_decide (Some system_name = name)
          then set_system_id (PyStr system_id)
          else resolve_system_loop name rest
      | _, _ => resolve_system_loop name rest
      end
  end.

Definition resolve_system (w : world num) (name : option string)
  : M pyvalue :=
  let! returned :=
    try_except_ClientError
      (let! (status, device_details_payload) :=
         send w "GET"
           (_build_url "api/userapi/v2/user/detail-systems?systemDetails=true")
           [] in
       (if status =? 200 then
          match systemDetails device_details_payload with
          | Some systems => resolve_system_loop name systems
          | None => ret tt
          end
        else ret tt) ;;
       ret None)
      (fun _ => ret (Some (PyBool false))) in
  match returned with
  | Some v => ret v
  | None => let! c := self in ret (_system_id c)
  end.

(** The [elif response.status == 401: ... else: ...] tail shared by
    [get_live_usage] and [get_periodic_usage]. *)
Definition reject_status {A} (status : Z) : M A :=
  if status =? 401 then
    del_header "Authorization" ;;
    raise (GeoTogetherAuthenticationError "Authentication has expired")
  else
    raise (GeoTogetherError
             ("The Geo Together API call failed with status "
              +:+ pretty status)
             None).

Definition connectivity_error {A} (exc : exn) : M A :=
  raise (GeoTogetherError "Connectivity Error" (Some exc)).

Definition get_live_usage (w : world num) : M (list (GeoLivePowerUsage num)) :=
  _check_prerequisits ;;
  try_except_ClientError
    (let! c := self in
     let uri :=
       "api/userapi/system/smets2-live-data/" +:+ py_str (_system_id c) in
     let! (status, usage_payload) := send w "GET" (_build_url uri) [] in
     if status =? 200 then
       match power usage_payload with
       | Some (p :: ps) =>
           ret (map (fun p => {| _live_usage := p |}) (p :: ps))
       | _ => ret []
       end
     else reject_status status)
    connectivity_error.

Definition when_present {A B} (section : option A) (parse : A -> B -> outcome B)
    (accumulator : B) : outcome B :=
  match section with
  | Some items => parse items accumulator
  | None => Ok accumulator
  end.

Definition get_periodic_usage (w : world num)
  : M (list (GeoPeriodicEnergyUsage num)) :=
  _check_prerequisits ;;
  try_except_ClientError
    (let! c := self in
     let uri :=
       "api/userapi/system/smets2-periodic-data/" +:+ py_str (_system_id c) in
     let! (status, usage_payload) := send w "GET" (_build_url uri) [] in
     if status =? 200 then
       let! rtn :=
         lift
           (let? rtn :=
              when_present (totalConsumptionList usage_payload)
                _parse_total_consumption [] in
            let? rtn :=
              when_present (billToDateList usage_payload)
                _parse_bill_to_date rtn in
            let? rtn :=
              when_present (currentCostsElec usage_payload)
                (_parse_current_costs ELECTRICITY) rtn in
            when_present (currentCostsGas usage_payload)
              (_parse_current_costs GAS_ENERGY) rtn) in
       ret (dict_values rtn)
     else reject_status status)
    connectivity_error.

(** [x.isoformat()] where [x] may be [None]. *)
Definition isoformat_of (d : option date) : outcome string :=
  match d with
  | Some d => Ok (isoformat d)
  | None => Raise AttributeError
  end.

Definition get_historic_usage (geocommon : geocommon_module) (w : world num)
    (time_period : GeoTimePeriod) (offset : Z)
  : M (list (GeoEnergyUsage num)) :=
  _check_prerequisits ;;
  if bool_decide (time_period = UNBILLED)
     || bool_decide (time_period = FOREVER)
  then
    raise (GeoTogetherError
             ("Cannot get historic usage for "
              +:+ GeoTimePeriod_value time_period
              +:+ ",use get_periodic_usage instead")
             None)
  else
    let offset := if 0 <? offset then offset * -1 else offset in
    try_except_ClientError
      (let! time_period_dates :=
         lift (resolve_default geocommon time_period offset) in
       let history_type :=
         if bool_decide (time_period = MONTH) then "day"
         else lower (GeoTimePeriod_name time_period) in
       let! c := self in
       let! from_date := lift (isoformat_of (fst time_period_dates)) in
       let! to_date := lift (isoformat_of (snd time_period_dates)) in
       let uri :=
         "api/userapi/system/smets2-historic-" +:+ history_type +:+ "/"
         +:+ py_str (_system_id c)
         +:+ "?from=" +:+ from_date +:+ "&to=" +:+ to_date in
       let! (status, usage_payload) := send w "GET" (_build_url uri) [] in
       if status =? 200 then
         match totalsList usage_payload with
         | Some totals =>
             let! rtn :=
               lift
                 (for_each
                    (fun rtn period_total =>
                       when_present (commodityTotalsList period_total)
                         (_parse_historic_commodity_totals time_period) rtn)
                    [] totals) in
             ret (dict_values rtn)
         | None => ret []
         end
       else ret [])
      connectivity_error.
End client.

(** * The terms the statements are written in *)

(** ** Calendar arithmetic *)

Definition month_day (leapyear : bool) (n : Z) : Z * Z :=
  let month := Z.shiftr (n + 50) 5 in
  let preceding :=
    index _DAYS_BEFORE_MONTH month
    + (if (2 <? month) && leapyear then 1 else 0) in
  if n <? preceding then
    let month := month - 1 in
    let preceding :=
      preceding
      - (index _DAYS_IN_MONTH month
         + (if (month =? 2) && leapyear then 1 else 0)) in
    (month, n - preceding + 1)
  else (month, n - preceding + 1).

Definition month_day_ok (leapyear : bool) (n : Z) : bool :=
  let '(m, d) := month_day leapyear n in
  (1 <=? m) && (m <=? 12) && (1 <=? d)
  && (d <=? (if (m =? 2) && leapyear then 29 else index _DAYS_IN_MONTH m))
  && (index _DAYS_BEFORE_MONTH m + (if (2 <? m) && leapyear then 1 else 0) + d
      =? n + 1).

Definition fields_ok (d : date) : Prop :=
  1 <= month d <= 12 /\ 1 <= day d <= _days_in_month (year d) (month d).

(** The month reached by [offset] months from month [m] of year [y],
    counting months from year 0. *)
Definition add_months (y m offset : Z) : Z * Z :=
  let months := y * 12 + (m - 1) + offset in
  (months / 12, months mod 12 + 1).

Definition next_month (y m : Z) : Z * Z :=
  if m =? 12 then (y + 1, 1) else (y, m + 1).

Definition ordinal_ok (n : Z) : bool := (1 <=? n) && (n <=? _MAXORDINAL).

Definition month_ok (y m : Z) : bool :=
  (1 <=? y) && (y <=? 9999) && negb ((y =? 9999) && (m =? 12)).

(** What [date.replace] raises for a year outside 1 to 9999: [ValueError]
    when the year fits a C [int], [OverflowError] when it does not. *)
Definition replace_error (y : Z) : exn :=
  if fits_int y then ValueError else OverflowError.

Definition week_start (offset : Z) (ref : date) : Z :=
  toordinal ref + (- weekday ref + offset * 7).

(** Date arithmetic only ever fails with the two built-in errors. *)
Definition date_error (e : exn) : bool :=
  match e with ValueError | OverflowError => true | _ => false end.

(** [resolve] yields a pair of dates: the period has a range and every date
    computed on the way is a [date]. *)
Definition resolvable (period : GeoTimePeriod) (offset : Z) (ref : date)
  : bool :=
  match period with
  | DAY => ordinal_ok (toordinal ref + offset)
  | WEEK =>
      ordinal_ok (week_start offset ref)
      && ordinal_ok (week_start offset ref + 6)
  | MONTH =>
      let '(y, m) := add_months (year ref) (month ref) offset in month_ok y m
  | UNBILLED | FOREVER => false
  end.

(** ** Sessions, requests and errors *)

Definition authenticated (c : GeoTogetherClient) : Prop :=
  is_Some (headers c !! "Authorization").

Definition not_authenticated_error : exn :=
  GeoTogetherAuthenticationError
    "You must authenticate before you can use this API".

Definition no_system_error : exn :=
  GeoTogetherSystemError
    "You must resolve the system before you can use this API".

Definition no_range_error (period : GeoTimePeriod) : exn :=
  GeoTogetherError
    ("Cannot get historic usage for " +:+ GeoTimePeriod_value period
     +:+ ",use get_periodic_usage instead") None.

Section session_terms.
Context {num : Type} `{!Number num}.
Implicit Types (w : world num) (c : GeoTogetherClient).

Definition ready c : Prop :=
  authenticated c /\ truthy (_system_id c) = true.

Definition get_request c (uri : string) : request :=
  mkrequest "GET" (_build_url uri) (headers c) [].

Definition live_request c : request :=
  get_request c
    ("api/userapi/system/smets2-live-data/" +:+ py_str (_system_id c)).

Definition periodic_request c : request :=
  get_request c
    ("api/userapi/system/smets2-periodic-data/" +:+ py_str (_system_id c)).

(** The client once its token has been dropped. *)
Definition expired c : GeoTogetherClient :=
  mkGeoTogetherClient (_system_id c) (_username c) (_password c)
    (delete "Authorization" (headers c)).

Definition expired_error : exn :=
  GeoTogetherAuthenticationError "Authentication has expired".

Definition status_error (status : Z) : exn :=
  GeoTogetherError
    ("The Geo Together API call failed with status " +:+ pretty status) None.

Definition connectivity (detail : string) : exn :=
  GeoTogetherError "Connectivity Error" (Some (ClientError detail)).

(** The four optional sections of a periodic payload, folded into one
    accumulator in the order [get_periodic_usage] visits them. *)
Definition periodic_sections (body : payload num)
  : outcome (list (GeoEnergyType * GeoPeriodicEnergyUsage num)) :=
  let? rtn :=
    when_present (totalConsumptionList body) _parse_total_consumption [] in
  let? rtn := when_present (billToDateList body) _parse_bill_to_date rtn in
  let? rtn :=
    when_present (currentCostsElec body) (_parse_current_costs ELECTRICITY)
      rtn in
  when_present (currentCostsGas body) (_parse_current_costs GAS_ENERGY) rtn.

(** What the handler of [except ClientError] makes of an exception. *)
Definition through_handler (e : exn) : exn :=
  if isinstance_ClientError e
  then GeoTogetherError "Connectivity Error" (Some e) else e.

Definition normalise (offset : Z) : Z :=
  if 0 <? offset then offset * -1 else offset.

Definition history_type (period : GeoTimePeriod) : string :=
  if bool_decide (period = MONTH) then "day"
  else lower (GeoTimePeriod_name period).

Definition historic_request c (period : GeoTimePeriod) (from_date to_date : date)
  : request :=
  get_request c
    ("api/userapi/system/smets2-historic-" +:+ history_type period +:+ "/"
     +:+ py_str (_system_id c)
     +:+ "?from=" +:+ isoformat from_date
     +:+ "&to=" +:+ isoformat to_date).

(** The [totalsList] of a historic payload, folded into one accumulator. *)
Definition historic_totals (period : GeoTimePeriod) (body : payload num)
  : outcome (list (GeoEnergyType * GeoEnergyUsage num)) :=
  match totalsList body with
  | Some totals =>
      for_each
        (fun rtn period_total =>
           when_present (commodityTotalsList period_total)
             (_parse_historic_commodity_totals period) rtn)
        [] totals
  | None => Ok []
  end.

Definition has_range (period : GeoTimePeriod) : Prop :=
  period <> UNBILLED /\ period <> FOREVER.

(** The requests one call of [get_historic_usage] issues, computed from
    the client and the module alone. *)
Definition historic_trace (geocommon : geocommon_module) c
    (period : GeoTimePeriod) (offset : Z) : list request :=
  match _check_prerequisits c with
  | (Ok _, _, _) =>
      match resolve_default geocommon period (normalise offset) with
      | Ok (Some from_date, Some to_date) =>
          [historic_request c period from_date to_date]
      | _ => []
      end
  | _ => []
  end.

Definition systems_request c : request :=
  get_request c "api/userapi/v2/user/detail-systems?systemDetails=true".

(** A listed system [resolve_system] may select: it carries both keys and,
    when a name is asked for, exactly that name. *)
Definition eligible (name : option string) (system : system_detail) : bool :=
  match sd_systemId system, sd_name system with
  | Some _, Some system_name =>
      negb (name_given name) || bool_decide (Some system_name = name)
  | _, _ => false
  end.

(** The identifier of the first eligible system of the list. *)
Definition selected (name : option string) (systems : list system_detail)
  : option string :=
  match List.find (eligible name) systems with
  | Some system => sd_systemId system
  | None => None
  end.

Definition with_system c (v : pyvalue) : GeoTogetherClient :=
  mkGeoTogetherClient v (_username c) (_password c) (headers c).

(** The systems a reply offers: none unless it is a 200 with a
    [systemDetails] list. *)
Definition offered (status : Z) (body : payload num) : list system_detail :=
  if status =? 200 then default [] (systemDetails body) else [].

End session_terms.

(** ** Aggregated usage *)

Section historic_terms.
Context {num : Type} `{!Number num}.
Implicit Types (acc : list (GeoEnergyType * GeoEnergyUsage num))
  (u : commodity_total num) (e : GeoEnergyUsage num).

(** The energy type a commodity total names, when it names one. *)
Definition commodity_type u : option GeoEnergyType :=
  match ct_commodityType u with
  | Some key =>
      match GeoEnergyType_getitem key with
      | Ok energy_type => Some energy_type
      | Raise _ => None
      end
  | None => None
  end.

Definition amount_of u : num := default num_zero (energyKWh u).
Definition cost_of u : num := default num_zero (costPence u).

(** Every commodity total of a historic payload, sub-period after
    sub-period. *)
Definition commodity_totals (body : payload num) : list (commodity_total num) :=
  concat (map (fun period_total => default [] (commodityTotalsList period_total))
            (default [] (totalsList body))).

Definition of_type (energy_type : GeoEnergyType) u : bool :=
  bool_decide (commodity_type u = Some energy_type).

(** The sum of one field over a non-empty run of entries, an absent field
    counting as zero. *)
Definition summed (value : commodity_total num -> num)
    (entries : list (commodity_total num)) : option num :=
  match entries with
  | [] => None
  | first :: rest => Some (fold_left num_add (map value rest) (value first))
  end.

(** The aggregate for one energy type, as the specification words it:
    amounts and costs summed over every entry of that type. *)
Definition aggregate (period : GeoTimePeriod) (energy_type : GeoEnergyType)
    (entries : list (commodity_total num)) : option (GeoEnergyUsage num) :=
  match filter (fun u => of_type energy_type u = true) entries with
  | [] => None
  | contributing =>
      Some (mkGeoEnergyUsage period energy_type
              (summed amount_of contributing) (summed cost_of contributing))
  end.

(** [GeoPeriodicEnergyUsage]-free lookup in a result list. *)
Definition usage_of (energy_type : GeoEnergyType)
    (result : list (GeoEnergyUsage num)) : option (GeoEnergyUsage num) :=
  List.find (fun e => bool_decide (eu_type e = energy_type)) result.

Definition counted (period : GeoTimePeriod)
    (entry : GeoEnergyType * GeoEnergyUsage num) : Prop :=
  eu_type (snd entry) = fst entry
  /\ eu_period (snd entry) = period
  /\ is_Some (eu_energy_amount (snd entry))
  /\ is_Some (eu_energy_cost (snd entry)).

(** One more entry folded into the running total of its type. *)
Definition absorb (period : GeoTimePeriod) (energy_type : GeoEnergyType)
    (current : option (GeoEnergyUsage num)) u : option (GeoEnergyUsage num) :=
  Some (match current with
        | Some e =>
            mkGeoEnergyUsage (eu_period e) (eu_type e)
              ((fun v => num_add v (amount_of u)) <$> eu_energy_amount e)
              ((fun v => num_add v (cost_of u)) <$> eu_energy_cost e)
        | None =>
            mkGeoEnergyUsage period energy_type (Some (amount_of u))
              (Some (cost_of u))
        end).

End historic_terms.

Section periodic_terms.
Context {num : Type} `{!Number num}.
Implicit Types (acc : list (GeoEnergyType * GeoPeriodicEnergyUsage num))
  (u : GeoEnergyUsage num).

(** [GeoEnergyType[key]] as a partial function of the JSON field. *)
Definition energy_type_named (key : option string) : option GeoEnergyType :=
  match key with
  | Some name =>
      match GeoEnergyType_getitem name with
      | Ok energy_type => Some energy_type
      | Raise _ => None
      end
  | None => None
  end.

Definition period_named (key : option string) : option GeoTimePeriod :=
  match key with
  | Some name =>
      match GeoTimePeriod_getitem name with
      | Ok period => Some period
      | Raise _ => None
      end
  | None => None
  end.

Definition consumption_ok (entry : consumption num) : Prop :=
  is_Some (energy_type_named (tc_commodityType entry))
  /\ is_Some (totalConsumption entry).

Definition unbilled_ok (entry : unbilled num) : Prop :=
  is_Some (energy_type_named (btd_commodityType entry))
  /\ is_Some (billToDate entry).

Definition current_cost_ok (entry : current_cost num) : Prop :=
  is_Some (period_named (duration entry))
  /\ is_Some (energyAmount entry) /\ is_Some (costAmount entry).

(** A periodic payload every entry of which carries the keys the parsers
    subscript, with member names the enumerations know. *)
Definition periodic_payload_ok (body : payload num) : Prop :=
  Forall consumption_ok (default [] (totalConsumptionList body))
  /\ Forall unbilled_ok (default [] (billToDateList body))
  /\ Forall current_cost_ok (default [] (currentCostsElec body))
  /\ Forall current_cost_ok (default [] (currentCostsGas body)).

(** The accumulator is a dictionary: one entry per energy type, each
    filed under its own type. *)
Definition tidy acc : Prop :=
  Forall (fun entry => peu_type (snd entry) = fst entry) acc
  /\ List.NoDup (dict_keys acc).

(** Usage [u] is among those recorded for [energy_type]. *)
Definition holds acc (energy_type : GeoEnergyType) u : Prop :=
  exists periodic,
    dict_get energy_type acc = Some periodic /\ In u (peu_usage periodic).

End periodic_terms.

(** ** Sample sessions and payloads *)

Definition sample_client : GeoTogetherClient :=
  mkGeoTogetherClient (PyStr "A") "user" "secret"
    {[ "Authorization" := "Bearer token" ]}.

Definition sample_day : date := mkdate 2024 3 6.

(** A server that answers every request alike. *)
Definition replying (status : Z) (body : payload Z) : world Z :=
  mkworld sample_day (fun _ => Response status body).

Definition offline : world Z :=
  mkworld sample_day (fun _ => Failure "unreachable").

Definition electricity (kwh pence : option Z) : commodity_total Z :=
  {| ct_commodityType := Some "ELECTRICITY"; energyKWh := kwh;
     costPence := pence |}.

(** Two sub-periods reporting 3 kWh and 2 kWh of electricity, no cost. *)
Definition two_sub_periods : payload Z :=
  {| accessToken := None; systemDetails := None; power := None;
     totalConsumptionList := None; billToDateList := None;
     currentCostsElec := None; currentCostsGas := None;
     totalsList :=
       Some [ {| commodityTotalsList := Some [electricity (Some 3) None] |};
              {| commodityTotalsList := Some [electricity (Some 2) None] |} ] |}.

Definition home_and_away : payload Z :=
  {| accessToken := None;
     systemDetails :=
       Some [ {| sd_systemId := Some "A"; sd_name := Some "Home" |};
              {| sd_systemId := Some "B"; sd_name := Some "Away" |} ];
     power := None; totalConsumptionList := None; billToDateList := None;
     currentCostsElec := None; currentCostsGas := None; totalsList := None |}.

Definition total_and_bill : payload Z :=
  {| accessToken := None; systemDetails := None; power := None;
     totalConsumptionList :=
       Some [ {| tc_commodityType := Some "ELECTRICITY";
                 totalConsumption := Some 100 |} ];
     billToDateList :=
       Some [ {| btd_commodityType := Some "ELECTRICITY";
                 billToDate := Some 250 |} ];
     currentCostsElec := None; currentCostsGas := None; totalsList := None |}.


Definition sample_historic_request : request :=
  historic_request sample_client DAY sample_day sample_day.

(** ** Logging in *)

(** The request [authenticate] posts: the credentials travel in the JSON
    body, next to whatever headers the session already has. *)
Definition login_request (c : GeoTogetherClient) : request :=
  mkrequest "POST" (_build_url "usersservice/v2/login") (headers c)
    [("identity", _username c); ("password", _password c)].

(** The client once [token] has been stored as its bearer token. *)
Definition with_token (c : GeoTogetherClient) (token : string)
  : GeoTogetherClient :=
  mkGeoTogetherClient (_system_id c) (_username c) (_password c)
    (<["Authorization" := "Bearer " +:+ token]> (headers c)).

(** ** Usage grouped by energy type *)

Section grouping_terms.
Context {num : Type} `{!Number num}.

(** The usage list filed under a type once [more] has been filed too: no
    list appears where nothing is filed. *)
Definition extended (current : option (list (GeoEnergyUsage num)))
    (more : list (GeoEnergyUsage num)) : option (list (GeoEnergyUsage num)) :=
  match more with
  | [] => current
  | _ => Some (default [] current ++ more)%list
  end.

Definition consumption_of (energy_type : GeoEnergyType)
    (entry : consumption num) : bool :=
  bool_decide (energy_type_named (tc_commodityType entry) = Some energy_type).

Definition unbilled_of (energy_type : GeoEnergyType) (entry : unbilled num)
  : bool :=
  bool_decide (energy_type_named (btd_commodityType entry) = Some energy_type).

(** What one entry of each section is turned into. *)
Definition forever_usage (energy_type : GeoEnergyType)
    (entry : consumption num) : GeoEnergyUsage num :=
  mkGeoEnergyUsage FOREVER energy_type (totalConsumption entry) None.

Definition unbilled_usage (energy_type : GeoEnergyType)
    (entry : unbilled num) : GeoEnergyUsage num :=
  mkGeoEnergyUsage UNBILLED energy_type None (billToDate entry).

Definition current_usage (energy_type : GeoEnergyType)
    (entry : current_cost num) : option (GeoEnergyUsage num) :=
  match period_named (duration entry) with
  | Some period =>
      Some (mkGeoEnergyUsage period energy_type (energyAmount entry)
              (costAmount entry))
  | None => None
  end.

(** The current-costs section that belongs to an energy type. *)
Definition current_costs_of (body : payload num)
    (energy_type : GeoEnergyType) : option (list (current_cost num)) :=
  match energy_type with
  | ELECTRICITY => currentCostsElec body
  | GAS_ENERGY => currentCostsGas body
  end.

(** Everything a periodic payload says about one energy type, in the order
    of the sections: totals, bills, current costs. *)
Definition grouped_usage (body : payload num) (energy_type : GeoEnergyType)
  : list (GeoEnergyUsage num) :=
  (map (forever_usage energy_type)
     (filter (fun entry => consumption_of energy_type entry = true)
        (default [] (totalConsumptionList body)))
   ++ map (unbilled_usage energy_type)
        (filter (fun entry => unbilled_of energy_type entry = true)
           (default [] (billToDateList body)))
   ++ omap (current_usage energy_type)
        (default [] (current_costs_of body energy_type)))%list.

(** The payload has something filed under the type: a total or a bill that
    names it, or its current-costs section, be it empty. *)
Definition mentioned (body : payload num) (energy_type : GeoEnergyType)
  : Prop :=
  (exists entry,
     In entry (default [] (totalConsumptionList body))
     /\ consumption_of energy_type entry = true)
  \/ (exists entry,
        In entry (default [] (billToDateList body))
        /\ unbilled_of energy_type entry = true)
  \/ is_Some (current_costs_of body energy_type).

(** The usages [other] brings to [__add__]. *)
Definition addend_usages (other : addend num) : list (GeoEnergyUsage num) :=
  match other with
  | OneUsage u => [u]
  | UsageList l => l
  end.

End grouping_terms.

(** ** geocommon.py: descriptions, units and text *)

(** [EnumWithDescription]: every member has a value, and may have been
    given a description. *)
Class EnumWithDescription (E : Type) : Type := {
  value : E -> string;
  _description : E -> option string
}.

(** [description]: [self._description or self.value]. *)
Definition description {E : Type} `{!EnumWithDescription E} (self : E)
  : string :=
  match _description self with
  | Some text => if bool_decide (text = "") then value self else text
  | None => value self
  end.

Inductive GeoPowerUnit : Type := WATT | KILOWATT.

Inductive GeoEnergyUnit : Type := WATT_HOUR | KILOWATT_HOUR.

#[global] Instance GeoEnergyType_enum : EnumWithDescription GeoEnergyType := {|
  value := GeoEnergyType_value;
  _description := fun _ => None
|}.

#[global] Instance GeoTimePeriod_enum : EnumWithDescription GeoTimePeriod := {|
  value := GeoTimePeriod_value;
  _description := fun _ => None
|}.

#[global] Instance GeoPowerUnit_enum : EnumWithDescription GeoPowerUnit := {|
  value := fun unit => match unit with WATT => "W" | KILOWATT => "kW" end;
  _description := fun unit =>
    match unit with
    | WATT => Some "Watts"
    | KILOWATT => Some "Kilowatts"
    end
|}.

#[global] Instance GeoEnergyUnit_enum : EnumWithDescription GeoEnergyUnit := {|
  value := fun unit =>
    match unit with WATT_HOUR => "Wh" | KILOWATT_HOUR => "kWh" end;
  _description := fun unit =>
    match unit with
    | WATT_HOUR => Some "Watt Hours"
    | KILOWATT_HOUR => Some "Kilowatt Hours"
    end
|}.

(** [x.value] where [x] may be [None]. *)
Definition value_of {E : Type} `{!EnumWithDescription E} (member : option E)
  : outcome string :=
  match member with
  | Some member => Ok (value member)
  | None => Raise AttributeError
  end.

(** Membership in a character class such as [[ptuacPTUAC]]. *)
Fixpoint char_in (letter : Ascii.ascii) (class : string) : bool :=
  match class with
  | EmptyString => false
  | String a rest => bool_decide (a = letter) || char_in letter rest
  end.

Definition is_percent (a : Ascii.ascii) : bool :=
  bool_decide (String a EmptyString = "%").

Definition upper_ascii (a : Ascii.ascii) : Ascii.ascii :=
  let n := Ascii.N_of_ascii a in
  if ((97 <=? n) && (n <=? 122))%N then Ascii.ascii_of_N (n - 32) else a.

(** [str.upper()] on ASCII text. *)
Fixpoint upper (s : string) : string :=
  match s with
  | EmptyString => EmptyString
  | String a rest => String (upper_ascii a) (upper rest)
  end.

(** The text of a JSON number: [str(x)], [str(round(x))] and
    [str(round(x / 100, 2))].  Rounding may raise (on a NaN, say). *)
Class NumberText (num : Type) : Type := {
  num_str : num -> string;
  num_str_round : num -> outcome string;
  num_str_round_hundredth : num -> outcome string
}.

Section text.
Context {num : Type} `{!Number num} `{!NumberText num}.

(** [str(x)] where [x] may be [None]. *)
Definition str_of (x : option num) : string :=
  match x with
  | Some x => num_str x
  | None => "None"
  end.

(** [GeoLivePowerUsage.type] *)
Definition live_type (self : GeoLivePowerUsage num)
  : outcome (option GeoEnergyType) :=
  match type (_live_usage self) with
  | Some raw_type =>
      if bool_decide (raw_type = "") then Ok None
      else
        let? member := GeoEnergyType_getitem (upper raw_type) in
        Ok (Some member)
  | None => Ok None
  end.

(** [GeoLivePowerUsage.unit] *)
Definition live_unit (self : GeoLivePowerUsage num) : option GeoPowerUnit :=
  match watts (_live_usage self) with
  | Some _ => Some WATT
  | None => None
  end.

(** [GeoLivePowerUsage.value] *)
Definition live_value (self : GeoLivePowerUsage num) : option num :=
  watts (_live_usage self).

(** [GeoLivePowerUsage.__str__] *)
Definition live_str (self : GeoLivePowerUsage num) : outcome string :=
  let? energy_type := live_type self in
  let? type_value := value_of energy_type in
  let power := str_of (live_value self) in
  let? unit_value := value_of (live_unit self) in
  Ok (type_value +:+ ": " +:+ power +:+ " " +:+ unit_value).

(** [GeoEnergyUsage.unit] *)
Definition usage_unit (self : GeoEnergyUsage num) : GeoEnergyUnit :=
  KILOWATT_HOUR.

(** [GeoEnergyUsage.__str__] *)
Definition usage_str (self : GeoEnergyUsage num) : string :=
  value (eu_period self) +:+ ": " +:+ str_of (eu_energy_amount self)
  +:+ value (usage_unit self).

(** [round(x)] and [x / 100] on a field that may hold [None]. *)
Definition rounded (text : num -> outcome string) (x : option num)
  : outcome string :=
  match x with
  | Some x => text x
  | None => Raise TypeError
  end.

(** The [replacer] of [__format__]: [specifier] is the text of the match. *)
Definition replacer (self : GeoEnergyUsage num) (specifier : string)
  : outcome string :=
  if bool_decide (specifier = "%p") then Ok (value (eu_period self))
  else if bool_decide (specifier = "%P")
  then Ok (description (eu_period self))
  else if bool_decide (specifier = "%t") then Ok (value (eu_type self))
  else if bool_decide (specifier = "%T") then Ok (description (eu_type self))
  else if bool_decide (specifier = "%u") then Ok (value (usage_unit self))
  else if bool_decide (specifier = "%U")
  then Ok (description (usage_unit self))
  else if bool_decide (specifier = "%a")
  then Ok (str_of (eu_energy_amount self))
  else if bool_decide (specifier = "%A")
  then rounded num_str_round (eu_energy_amount self)
  else if bool_decide (specifier = "%c")
  then Ok (str_of (eu_energy_cost self))
  else if bool_decide (specifier = "%C")
  then rounded num_str_round_hundredth (eu_energy_cost self)
  else Ok "".

(** [GeoEnergyUsage.__format__]:
    [re.sub("%[ptuacPTUAC]", replacer, format_spec)].  The text is scanned
    from the left; a percent sign followed by one of the letters is a match
    and is replaced, any other character is copied. *)
Fixpoint usage_format (self : GeoEnergyUsage num) (format_spec : string)
  : outcome string :=
  match format_spec with
  | EmptyString => Ok EmptyString
  | String first rest =>
      let copy :=
        let? tail := usage_format self rest in Ok (String first tail) in
      match rest with
      | String letter after =>
          if is_percent first && char_in letter "ptuacPTUAC"
          then
            let? text :=
              replacer self (String first (String letter EmptyString)) in
            let? tail := usage_format self after in
            Ok (text +:+ tail)
          else copy
      | EmptyString => copy
      end
  end.

(** [GeoPeriodicEnergyUsage.__str__]: the f-string formats the usage it
    finds through [__format__] with an empty specification, and [None] as
    the text [None]. *)
Definition periodic_str (self : GeoPeriodicEnergyUsage num) : outcome string :=
  let? day :=
    match get_usage self DAY with
    | Some usage => usage_format usage EmptyString
    | None => Ok "None"
    end in
  Ok (value (peu_type self) +:+ ": " +:+ day).

End text.

(** ** Sample number texts *)

(** Python [int]s: [str(x)] and [str(round(x))] are the decimal numeral;
    [str(round(x / 100, 2))] is the numeral of the float, which for a
    number of pence below 10^15 is the quotient, a point, and the remainder
    without a trailing zero. *)
Definition hundredths (x : Z) : string :=
  let q := Z.abs x / 100 in
  let r := Z.abs x mod 100 in
  (if x <? 0 then "-" else "") +:+ pretty q +:+ "."
  +:+ (if r mod 10 =? 0 then pretty (r / 10) else zero_pad 2 r).

#[global] Instance Z_NumberText : NumberText Z := {|
  num_str := pretty;
  num_str_round := fun x => Ok (pretty x);
  num_str_round_hundredth := fun x => Ok (hundredths x)
|}.

(** ** More sample payloads *)

(** The reply to a successful log-in. *)
Definition login_reply : payload Z :=
  {| accessToken := Some "token"; systemDetails := None; power := None;
     totalConsumptionList := None; billToDateList := None;
     currentCostsElec := None; currentCostsGas := None; totalsList := None |}.

(** Totals for both energy types, a bill for gas, and the current costs of
    electricity for the day and the week. *)
Definition both_types : payload Z :=
  {| accessToken := None; systemDetails := None; power := None;
     totalConsumptionList :=
       Some [ {| tc_commodityType := Some "ELECTRICITY";
                 totalConsumption := Some 100 |};
              {| tc_commodityType := Some "GAS_ENERGY";
                 totalConsumption := Some 40 |} ];
     billToDateList :=
       Some [ {| btd_commodityType := Some "GAS_ENERGY";
                 billToDate := Some 250 |} ];
     currentCostsElec :=
       Some [ {| duration := Some "DAY"; energyAmount := Some 12;
                 costAmount := Some 250 |};
              {| duration := Some "WEEK"; energyAmount := Some 70;
                 costAmount := Some 1500 |} ];
     currentCostsGas := None; totalsList := None |}.

(** A total for electricity, then one that names gas by its value. *)
Definition gas_by_value : payload Z :=
  {| accessToken := None; systemDetails := None; power := None;
     totalConsumptionList :=
       Some [ {| tc_commodityType := Some "ELECTRICITY";
                 totalConsumption := Some 100 |};
              {| tc_commodityType := Some "Gas";
                 totalConsumption := Some 40 |} ];
     billToDateList := None; currentCostsElec := None;
     currentCostsGas := None; totalsList := None |}.

Definition gas_reading : GeoLivePowerUsage Z :=
  {| _live_usage := {| type := Some "gas"; watts := Some 350 |} |}.

Definition day_usage : GeoEnergyUsage Z :=
  mkGeoEnergyUsage DAY ELECTRICITY (Some 12) (Some 250).

Definition empty_usage : GeoEnergyUsage Z :=
  mkGeoEnergyUsage DAY ELECTRICITY None None.

(** * The proleptic Gregorian calendar *)

Lemma month_day_table :
  forallb (fun n => month_day_ok true n && month_day_ok false n) (seqZ 0 365)
  = true.
Proof. vm_compute. reflexivity. Qed.

Lemma month_day_spec leapyear n :
  0 <= n < 365 -> month_day_ok leapyear n = true.
Proof.
  intros Hn.
  pose proof month_day_table as T.
  rewrite forallb_forall in T.
  specialize (T n).
  assert (In n (seqZ 0 365)) as Hin.
  { apply list_elem_of_In, elem_of_seqZ. lia. }
  apply T in Hin. apply andb_true_iff in Hin.
  destruct leapyear; tauto.
Qed.

Lemma is_leap_decompose a b c e :
  0 <= b < 4 -> 0 <= c < 25 -> 0 <= e < 4 ->
  _is_leap (400 * a + 100 * b + 4 * c + e + 1)
  = (e =? 3) && (negb (c =? 24) || (b =? 3)).
Proof.
  intros Hb Hc He. unfold _is_leap.
  assert ((400 * a + 100 * b + 4 * c + e + 1) mod 4 = (e + 1) mod 4) as ->.
  { replace (400 * a + 100 * b + 4 * c + e + 1)
      with (e + 1 + (100 * a + 25 * b + c) * 4) by lia.
    apply Z.mod_add. lia. }
  destruct (Z.eqb_spec e 3) as [->|Hne].
  - assert ((400 * a + 100 * b + 4 * c + 3 + 1) mod 100 = (4 * c + 4) mod 100) as ->.
    { replace (400 * a + 100 * b + 4 * c + 3 + 1)
        with (4 * c + 4 + (4 * a + b) * 100) by lia.
      apply Z.mod_add. lia. }
    assert ((400 * a + 100 * b + 4 * c + 3 + 1) mod 400
            = (100 * b + 4 * c + 4) mod 400) as ->.
    { replace (400 * a + 100 * b + 4 * c + 3 + 1)
        with (100 * b + 4 * c + 4 + a * 400) by lia.
      apply Z.mod_add. lia. }
    change ((3 + 1) mod 4) with 0. simpl.
    destruct (Z.eqb_spec c 24) as [->|Hc24].
    + change ((4 * 24 + 4) mod 100) with 0. simpl.
      destruct (Z.eqb_spec b 3) as [->|Hb3]; [reflexivity|].
      apply Z.eqb_neq. intros H.
      apply Z.mod_divide in H; [|lia]. destruct H as [k Hk]. lia.
    + simpl. replace ((4 * c + 4) mod 100 =? 0) with false; [reflexivity|].
      symmetry. apply Z.eqb_neq. rewrite Z.mod_small by lia. lia.
  - replace ((e + 1) mod 4 =? 0) with false; [reflexivity|].
    symmetry. apply Z.eqb_neq. rewrite Z.mod_small by lia. lia.
Qed.

Lemma days_before_year_decompose a b c e :
  0 <= b < 4 -> 0 <= c < 25 -> 0 <= e < 4 ->
  _days_before_year (400 * a + 100 * b + 4 * c + e + 1)
  = 146097 * a + 36524 * b + 1461 * c + 365 * e.
Proof.
  intros Hb Hc He. unfold _days_before_year. cbv zeta.
  replace (400 * a + 100 * b + 4 * c + e + 1 - 1)
    with (400 * a + 100 * b + 4 * c + e) by lia.
  assert ((400 * a + 100 * b + 4 * c + e) / 4 = 100 * a + 25 * b + c) as ->.
  { symmetry. apply (Z.div_unique _ _ _ e); lia. }
  assert ((400 * a + 100 * b + 4 * c + e) / 100 = 4 * a + b) as ->.
  { symmetry. apply (Z.div_unique _ _ _ (4 * c + e)); lia. }
  assert ((400 * a + 100 * b + 4 * c + e) / 400 = a) as ->.
  { symmetry. apply (Z.div_unique _ _ _ (100 * b + 4 * c + e)); lia. }
  lia.
Qed.

Lemma ord2ymd_unfold n :
  let n0 := n - 1 in
  let a := n0 / 146097 in
  let r1 := n0 mod 146097 in
  let b := r1 / 36524 in
  let r2 := r1 mod 36524 in
  let c := r2 / 1461 in
  let r3 := r2 mod 1461 in
  let e := r3 / 365 in
  let r4 := r3 mod 365 in
  let y := 400 * a + 100 * b + 4 * c + e + 1 in
  _ord2ymd n =
    if (e =? 4) || (b =? 4) then (y - 1, 12, 31)
    else
      let '(m, d) :=
        month_day ((e =? 3) && (negb (c =? 24) || (b =? 3))) r4 in
      (y, m, d).
Proof.
  cbv zeta. unfold _ord2ymd, month_day, _DI400Y, _DI100Y, _DI4Y. cbv zeta.
  replace ((n - 1) / 146097 * 400 + 1 +
     ((n - 1) mod 146097 / 36524 * 100 +
      ((n - 1) mod 146097) mod 36524 / 1461 * 4 +
      (((n - 1) mod 146097) mod 36524) mod 1461 / 365))
    with (400 * ((n - 1) / 146097) + 100 * ((n - 1) mod 146097 / 36524) +
          4 * (((n - 1) mod 146097) mod 36524 / 1461) +
          (((n - 1) mod 146097) mod 36524) mod 1461 / 365 + 1) by lia.
  destruct (_ || _); [reflexivity|].
  destruct (_ <? _); reflexivity.
Qed.

Lemma ord2ymd_spec n :
  let '(y, m, d) := _ord2ymd n in
  1 <= m <= 12 /\ 1 <= d <= _days_in_month y m /\ _ymd2ord y m d = n.
Proof.
  rewrite ord2ymd_unfold. cbv zeta.
  set (n0 := n - 1).
  pose proof (Z.div_mod n0 146097 ltac:(lia)) as E1.
  pose proof (Z.mod_pos_bound n0 146097 ltac:(lia)) as B1.
  set (a := n0 / 146097) in *. set (r1 := n0 mod 146097) in *.
  pose proof (Z.div_mod r1 36524 ltac:(lia)) as E2.
  pose proof (Z.mod_pos_bound r1 36524 ltac:(lia)) as B2.
  set (b := r1 / 36524) in *. set (r2 := r1 mod 36524) in *.
  pose proof (Z.div_mod r2 1461 ltac:(lia)) as E3.
  pose proof (Z.mod_pos_bound r2 1461 ltac:(lia)) as B3.
  set (c := r2 / 1461) in *. set (r3 := r2 mod 1461) in *.
  pose proof (Z.div_mod r3 365 ltac:(lia)) as E4.
  pose proof (Z.mod_pos_bound r3 365 ltac:(lia)) as B4.
  set (e := r3 / 365) in *. set (r4 := r3 mod 365) in *.
  assert (0 <= b <= 4) as Hb by lia.
  assert (0 <= c <= 24) as Hc by lia.
  assert (0 <= e <= 4) as He by lia.
  clearbody a r1 b r2 c r3 e r4.
  destruct (Z.eqb_spec e 4) as [He4|He4]; simpl orb.
  - (* the last day of a leap year, end of a 4-year cycle *)
    subst e. assert (r4 = 0) by lia. subst r4.
    assert (c <= 23) by lia. assert (b <= 3) by lia.
    replace (400 * a + 100 * b + 4 * c + 4 + 1 - 1)
      with (400 * a + 100 * b + 4 * c + 3 + 1) by lia.
    unfold _days_in_month, _ymd2ord, _days_before_month.
    rewrite is_leap_decompose, days_before_year_decompose by lia.
    replace (c =? 24) with false by (symmetry; apply Z.eqb_neq; lia).
    change (index _DAYS_IN_MONTH 12) with 31.
    change (index _DAYS_BEFORE_MONTH 12) with 334.
    simpl. unfold n0 in *. lia.
  - destruct (Z.eqb_spec b 4) as [Hb4|Hb4].
    + (* the last day of a 400-year cycle *)
      subst b. assert (r2 = 0) by lia. subst r2.
      assert (c = 0) by lia. subst c. assert (r3 = 0) by lia. subst r3.
      assert (e = 0) by lia. subst e.
      replace (400 * a + 100 * 4 + 4 * 0 + 0 + 1 - 1)
        with (400 * a + 100 * 3 + 4 * 24 + 3 + 1) by lia.
      unfold _days_in_month, _ymd2ord, _days_before_month.
      rewrite is_leap_decompose, days_before_year_decompose by lia.
      change (index _DAYS_IN_MONTH 12) with 31.
      change (index _DAYS_BEFORE_MONTH 12) with 334.
      simpl. unfold n0 in *. lia.
    + set (leapyear := (e =? 3) && (negb (c =? 24) || (b =? 3))).
      pose proof (month_day_spec leapyear r4 ltac:(lia)) as Hmd.
      unfold month_day_ok in Hmd.
      destruct (month_day leapyear r4) as [m d].
      unfold _days_in_month, _ymd2ord, _days_before_month.
      rewrite is_leap_decompose, days_before_year_decompose by lia.
      fold leapyear.
      rewrite !andb_true_iff in Hmd.
      destruct Hmd as [[[[H1 H2] H3] H4] H5].
      unfold n0 in *. lia.
Qed.

Ltac month_cases m :=
  let H := fresh "Hm" in
  assert (m = 1 \/ m = 2 \/ m = 3 \/ m = 4 \/ m = 5 \/ m = 6 \/ m = 7 \/ m = 8
          \/ m = 9 \/ m = 10 \/ m = 11 \/ m = 12) as H by lia;
  repeat (destruct H as [H|H]; [subst m|]); [..|subst m].

Ltac table_lookup :=
  repeat match goal with
    | |- context [Z.pos ?a + Z.pos ?b] =>
        let v := eval compute in (Z.pos a + Z.pos b) in
        change (Z.pos a + Z.pos b) with v
    end;
  cbv [index _DAYS_IN_MONTH _DAYS_BEFORE_MONTH mdays nth Z.to_nat Pos.to_nat
       Pos.iter_op Nat.add Z.eqb Z.ltb Z.leb Z.compare Pos.compare
       Pos.compare_cont Pos.eqb andb] in *.

Lemma days_before_year_succ y :
  _days_before_year (y + 1)
  = _days_before_year y + 365 + (if _is_leap y then 1 else 0).
Proof.
  unfold _days_before_year, _is_leap. cbv zeta.
  replace (y + 1 - 1) with (y - 1 + 1) by lia.
  destruct (Z.eqb_spec (y mod 4) 0), (Z.eqb_spec (y mod 100) 0),
    (Z.eqb_spec (y mod 400) 0); simpl; Z.div_mod_to_equations; lia.
Qed.

Lemma days_before_year_mono y1 y2 :
  y1 <= y2 -> _days_before_year y1 <= _days_before_year y2.
Proof.
  unfold _days_before_year. cbv zeta. intros H.
  Z.div_mod_to_equations. lia.
Qed.

Lemma day_of_year_bounds y m d :
  1 <= m <= 12 -> 1 <= d <= _days_in_month y m ->
  1 <= _days_before_month y m + d <= 365 + (if _is_leap y then 1 else 0).
Proof.
  intros Hm Hd. unfold _days_in_month, _days_before_month in *.
  month_cases m; destruct (_is_leap y); table_lookup; lia.
Qed.

Lemma days_before_month_next y m1 m2 d :
  1 <= m1 -> m1 < m2 -> m2 <= 12 -> d <= _days_in_month y m1 ->
  _days_before_month y m1 + d <= _days_before_month y m2.
Proof.
  intros H1 H2 H3 Hd. unfold _days_in_month, _days_before_month in *.
  month_cases m1; month_cases m2; try lia;
    destruct (_is_leap y); table_lookup; lia.
Qed.

Lemma ymd2ord_lt_year y1 m1 d1 y2 m2 d2 :
  1 <= m1 <= 12 -> 1 <= d1 <= _days_in_month y1 m1 ->
  1 <= m2 <= 12 -> 1 <= d2 <= _days_in_month y2 m2 ->
  y1 < y2 -> _ymd2ord y1 m1 d1 < _ymd2ord y2 m2 d2.
Proof.
  intros Hm1 Hd1 Hm2 Hd2 Hy. unfold _ymd2ord.
  pose proof (day_of_year_bounds y1 m1 d1 Hm1 Hd1).
  pose proof (day_of_year_bounds y2 m2 d2 Hm2 Hd2).
  pose proof (days_before_year_succ y1).
  pose proof (days_before_year_mono (y1 + 1) y2 ltac:(lia)).
  lia.
Qed.

Lemma ymd2ord_lt_month y m1 d1 m2 d2 :
  1 <= m1 <= 12 -> 1 <= d1 <= _days_in_month y m1 ->
  1 <= m2 <= 12 -> 1 <= d2 <= _days_in_month y m2 ->
  m1 < m2 -> _ymd2ord y m1 d1 < _ymd2ord y m2 d2.
Proof.
  intros Hm1 Hd1 Hm2 Hd2 Hm. unfold _ymd2ord.
  pose proof (days_before_month_next y m1 m2 d1 ltac:(lia) Hm ltac:(lia)
                ltac:(lia)).
  lia.
Qed.

(** Comparing dates is comparing their ordinals. *)
Lemma date_leb_toordinal a b :
  fields_ok a -> fields_ok b ->
  date_leb a b = (toordinal a <=? toordinal b).
Proof.
  intros [Hma Hda] [Hmb Hdb]. unfold date_leb, toordinal.
  destruct a as [ya ma da], b as [yb mb db]. simpl in *.
  destruct (Z.ltb_spec ya yb) as [Hy|Hy]; simpl.
  { symmetry. apply Z.leb_le.
    pose proof (ymd2ord_lt_year ya ma da yb mb db). lia. }
  destruct (Z.eqb_spec ya yb) as [->|Hne]; simpl.
  2:{ symmetry. apply Z.leb_gt.
      pose proof (ymd2ord_lt_year yb mb db ya ma da). lia. }
  destruct (Z.ltb_spec ma mb) as [Hm|Hm]; simpl.
  { symmetry. apply Z.leb_le.
    pose proof (ymd2ord_lt_month yb ma da mb db). lia. }
  destruct (Z.eqb_spec ma mb) as [->|Hnm]; simpl.
  2:{ symmetry. apply Z.leb_gt.
      pose proof (ymd2ord_lt_month yb mb db ma da). lia. }
  unfold _ymd2ord.
  destruct (Z.leb_spec da db); symmetry; [apply Z.leb_le|apply Z.leb_gt]; lia.
Qed.

Lemma toordinal_inj a b :
  fields_ok a -> fields_ok b -> toordinal a = toordinal b -> a = b.
Proof.
  intros Ha Hb E.
  pose proof (date_leb_toordinal a b Ha Hb) as L1.
  pose proof (date_leb_toordinal b a Hb Ha) as L2.
  rewrite E in L1. rewrite E in L2.
  rewrite Z.leb_refl in L1, L2.
  unfold date_leb in *. destruct a as [ya ma da], b as [yb mb db].
  simpl in *.
  destruct (Z.ltb_spec ya yb), (Z.ltb_spec yb ya), (Z.eqb_spec ya yb),
    (Z.eqb_spec yb ya), (Z.ltb_spec ma mb), (Z.ltb_spec mb ma),
    (Z.eqb_spec ma mb), (Z.eqb_spec mb ma), (Z.leb_spec da db),
    (Z.leb_spec db da); simpl in *; try discriminate; try lia.
  f_equal; lia.
Qed.

Lemma fromordinal_fields_ok n : fields_ok (fromordinal n).
Proof.
  unfold fromordinal, fields_ok. pose proof (ord2ymd_spec n) as H.
  destruct (_ord2ymd n) as [[y m] d]. simpl. tauto.
Qed.

Lemma toordinal_fromordinal n : toordinal (fromordinal n) = n.
Proof.
  unfold fromordinal, toordinal. pose proof (ord2ymd_spec n) as H.
  destruct (_ord2ymd n) as [[y m] d]. simpl. tauto.
Qed.

Lemma fromordinal_toordinal d : fields_ok d -> fromordinal (toordinal d) = d.
Proof.
  intros Hd. apply toordinal_inj; [apply fromordinal_fields_ok|assumption|].
  apply toordinal_fromordinal.
Qed.

Lemma valid_date_fields_ok d : valid_date d -> fields_ok d.
Proof.
  unfold valid_date, date_fields_ok, fields_ok. rewrite !andb_true_iff.
  lia.
Qed.

Lemma valid_date_iff d :
  valid_date d <-> 1 <= year d <= 9999 /\ fields_ok d.
Proof.
  unfold valid_date, date_fields_ok, fields_ok, MINYEAR, MAXYEAR.
  rewrite !andb_true_iff. lia.
Qed.

Lemma toordinal_range d : valid_date d -> 1 <= toordinal d <= _MAXORDINAL.
Proof.
  rewrite valid_date_iff. intros [Hy [Hm Hd]]. unfold toordinal, _ymd2ord.
  pose proof (day_of_year_bounds _ _ _ Hm Hd).
  pose proof (days_before_year_succ (year d)).
  pose proof (days_before_year_mono 1 (year d) ltac:(lia)).
  pose proof (days_before_year_mono (year d + 1) 10000 ltac:(lia)).
  change (_days_before_year 1) with 0 in *.
  change (_days_before_year 10000) with 3652059 in *.
  unfold _MAXORDINAL. lia.
Qed.

Lemma fromordinal_valid n :
  1 <= n <= _MAXORDINAL -> valid_date (fromordinal n).
Proof.
  intros Hn. apply valid_date_iff. split; [|apply fromordinal_fields_ok].
  pose proof (fromordinal_fields_ok n) as [Hm Hd].
  pose proof (toordinal_fromordinal n) as E.
  unfold toordinal, _ymd2ord in E.
  pose proof (day_of_year_bounds _ _ _ Hm Hd).
  pose proof (days_before_year_succ (year (fromordinal n))).
  unfold _MAXORDINAL in *.
  destruct (Z.lt_ge_cases (year (fromordinal n)) 1).
  { pose proof (days_before_year_mono (year (fromordinal n) + 1) 1 ltac:(lia)).
    change (_days_before_year 1) with 0 in *. lia. }
  destruct (Z.lt_ge_cases 9999 (year (fromordinal n))).
  { pose proof (days_before_year_mono 10000 (year (fromordinal n)) ltac:(lia)).
    change (_days_before_year 10000) with 3652059 in *. lia. }
  lia.
Qed.

Lemma days_in_month_bounds y m :
  1 <= m <= 12 -> 28 <= _days_in_month y m <= 31.
Proof.
  intros Hm. unfold _days_in_month.
  month_cases m; destruct (_is_leap y); table_lookup; lia.
Qed.

Lemma monthrange_ndays_valid y m :
  1 <= m <= 12 -> monthrange_ndays y m = Ok (_days_in_month y m).
Proof.
  intros Hm. unfold monthrange_ndays, _days_in_month.
  change (isleap y) with (_is_leap y).
  replace ((1 <=? m) && (m <=? 12)) with true by (symmetry; apply andb_true_iff; lia).
  f_equal. month_cases m; destruct (_is_leap y); reflexivity.
Qed.

Lemma fits_int_spec x : fits_int x = true <-> INT_MIN <= x <= INT_MAX.
Proof. unfold fits_int. rewrite andb_true_iff. lia. Qed.

Lemma fits_int_field x : -9999 <= x <= 10000 -> fits_int x = true.
Proof. intros H. apply fits_int_spec. unfold INT_MIN, INT_MAX. lia. Qed.

(** [replace] with a month and a day that are small numbers: only the year
    can fail to fit. *)
Lemma date_replace_fields y m d :
  fits_int m = true -> fits_int d = true ->
  date_replace y m d
  = if date_fields_ok y m d then Ok (mkdate y m d)
    else Raise (replace_error y).
Proof.
  intros Hm Hd. unfold date_replace, replace_error. rewrite Hm, Hd.
  rewrite !andb_true_r. destruct (fits_int y) eqn:Hy; [reflexivity|].
  replace (date_fields_ok y m d) with false; [reflexivity|].
  symmetry. unfold date_fields_ok, MINYEAR, MAXYEAR.
  destruct (Z.leb_spec 1 y), (Z.leb_spec y 9999); try reflexivity.
  rewrite fits_int_field in Hy by lia. discriminate Hy.
Qed.

(** Adding a number of days: the relative delta has no months and no
    absolute day. *)
Lemma date_add_days dt days weeks :
  valid_date dt ->
  date_add_relativedelta dt (new_relativedelta 0 0 days weeks None)
  = if (1 <=? toordinal dt + (days + weeks * 7))
       && (toordinal dt + (days + weeks * 7) <=? _MAXORDINAL)
    then Ok (fromordinal (toordinal dt + (days + weeks * 7)))
    else Raise OverflowError.
Proof.
  intros Hv. pose proof (toordinal_range dt Hv) as Hr.
  pose proof Hv as Hv'. apply valid_date_iff in Hv' as [Hy [Hm Hd]].
  unfold date_add_relativedelta, new_relativedelta. simpl.
  rewrite Z.add_0_r, monthrange_ndays_valid by assumption. simpl.
  rewrite Z.min_r by lia.
  pose proof (days_in_month_bounds (year dt) (month dt) Hm) as Hdim.
  rewrite date_replace_fields by (apply fits_int_field; lia).
  unfold valid_date in Hv. rewrite Hv. simpl.
  replace (mkdate (year dt) (month dt) (day dt)) with dt by (destruct dt; reflexivity).
  unfold timedelta_days, date_add_timedelta, _MAXORDINAL in *.
  set (n := days + weeks * 7).
  destruct (Z.leb_spec (Z.abs n) 999999999); simpl.
  - destruct (Z.ltb_spec 0 (toordinal dt + n)), (Z.leb_spec 1 (toordinal dt + n));
      try lia; simpl; try reflexivity.
  - destruct (Z.leb_spec 1 (toordinal dt + n)), (Z.leb_spec (toordinal dt + n) 3652059);
      simpl; try reflexivity; lia.
Qed.

(** Moving to the first day of another month. *)
Lemma date_add_months_day1 dt offset :
  valid_date dt ->
  date_add_relativedelta dt (new_relativedelta 0 offset 0 0 (Some 1))
  = let '(y, m) := add_months (year dt) (month dt) offset in
    if (1 <=? y) && (y <=? 9999) then Ok (mkdate y m 1)
    else Raise (replace_error y).
Proof.
  intros Hv. apply valid_date_iff in Hv as [Hy [Hm Hd]].
  unfold date_add_relativedelta, new_relativedelta, add_months.
  set (idx := year dt * 12 + (month dt - 1) + offset).
  pose proof (Z.div_mod idx 12 ltac:(lia)) as E.
  pose proof (Z.mod_pos_bound idx 12 ltac:(lia)) as Bd.
  set (y' := idx / 12) in *. set (m0 := idx mod 12) in *.
  assert (forall yy mm, yy = y' -> mm = m0 + 1 ->
    (let? ndays := monthrange_ndays yy mm in
     let day := ndays `min` day_or (Some 1) (day dt) in
     let? replaced := date_replace yy mm day in
     let? delta := timedelta_days 0 in date_add_timedelta replaced delta)
    = if (1 <=? y') && (y' <=? 9999) then Ok (mkdate y' (m0 + 1) 1)
      else Raise (replace_error y')) as Hfin.
  { intros yy mm -> ->. rewrite monthrange_ndays_valid by lia. simpl.
    assert (1 <= _days_in_month y' (m0 + 1)) as Hdim.
    { pose proof (days_in_month_bounds y' (m0 + 1)). lia. }
    rewrite Z.min_r by lia.
    rewrite date_replace_fields by (apply fits_int_field; lia).
    unfold date_fields_ok, MINYEAR, MAXYEAR.
    destruct (Z.leb_spec 1 y'), (Z.leb_spec y' 9999); simpl; try reflexivity.
    replace (1 <=? m0 + 1) with true by (symmetry; apply Z.leb_le; lia).
    replace (m0 + 1 <=? 12) with true by (symmetry; apply Z.leb_le; lia).
    replace (1 <=? _days_in_month y' (m0 + 1)) with true
      by (symmetry; apply Z.leb_le; lia).
    simpl. unfold date_add_timedelta. rewrite Z.add_0_r.
    assert (valid_date (mkdate y' (m0 + 1) 1)) as Hv1.
    { apply valid_date_iff. unfold fields_ok. simpl. lia. }
    pose proof (toordinal_range _ Hv1). unfold _MAXORDINAL in *.
    replace (0 <? _) with true by (symmetry; apply Z.ltb_lt; lia).
    replace (_ <=? 3652059) with true by (symmetry; apply Z.leb_le; lia).
    simpl. rewrite fromordinal_toordinal; [reflexivity|].
    apply valid_date_fields_ok, Hv1. }
  cbv zeta.
  destruct (Z.ltb_spec 11 (Z.abs offset)) as [Hbig|Hsmall];
    cbn [rd_years rd_months rd_days rd_day].
  - unfold _sign. destruct (Z.ltb_spec offset 0) as [Hneg|Hpos].
    + pose proof (Z.div_mod (offset * -1) 12 ltac:(lia)) as E2.
      pose proof (Z.mod_pos_bound (offset * -1) 12 ltac:(lia)) as B2.
      set (q := offset * -1 / 12) in *. set (r := (offset * -1) mod 12) in *.
      destruct (Z.eqb_spec (r * -1) 0).
      * apply Hfin; lia.
      * destruct (Z.ltb_spec 12 (month dt + r * -1)); [lia|].
        destruct (Z.ltb_spec (month dt + r * -1) 1); apply Hfin; lia.
    + pose proof (Z.div_mod (offset * 1) 12 ltac:(lia)) as E2.
      pose proof (Z.mod_pos_bound (offset * 1) 12 ltac:(lia)) as B2.
      set (q := offset * 1 / 12) in *. set (r := (offset * 1) mod 12) in *.
      destruct (Z.eqb_spec (r * 1) 0).
      * apply Hfin; lia.
      * destruct (Z.ltb_spec 12 (month dt + r * 1)); [apply Hfin; lia|].
        destruct (Z.ltb_spec (month dt + r * 1) 1); apply Hfin; lia.
  - destruct (Z.eqb_spec offset 0).
    + apply Hfin; lia.
    + destruct (Z.ltb_spec 12 (month dt + offset)); [apply Hfin; lia|].
      destruct (Z.ltb_spec (month dt + offset) 1); apply Hfin; lia.
Qed.

Lemma ymd2ord_month_end y m :
  1 <= m <= 12 ->
  let '(y', m') := next_month y m in
  _ymd2ord y' m' 1 + -1 = _ymd2ord y m (_days_in_month y m).
Proof.
  intros Hm. unfold next_month, _ymd2ord.
  destruct (Z.eqb_spec m 12) as [->|Hne].
  - rewrite days_before_year_succ.
    unfold _days_before_month, _days_in_month.
    destruct (_is_leap y); table_lookup; lia.
  - unfold _days_before_month, _days_in_month.
    month_cases m; try lia; destruct (_is_leap y); table_lookup; lia.
Qed.

(** Stepping from the first day of a month to its last day. *)
Lemma date_add_month_end y m :
  valid_date (mkdate y m 1) ->
  date_add_relativedelta (mkdate y m 1) (new_relativedelta 0 1 (-1) 0 None)
  = if (y =? 9999) && (m =? 12) then Raise ValueError
    else Ok (mkdate y m (_days_in_month y m)).
Proof.
  intros Hv. pose proof Hv as Hv'.
  apply valid_date_iff in Hv' as [Hy [Hm Hd]]. simpl in Hy, Hm, Hd.
  pose proof (ymd2ord_month_end y m Hm) as Hend.
  pose proof (days_in_month_bounds y m Hm) as Hdim.
  assert (valid_date (mkdate y m (_days_in_month y m))) as Hvl.
  { apply valid_date_iff. unfold fields_ok. simpl. lia. }
  pose proof (toordinal_range _ Hvl) as Hrl.
  unfold next_month in *.
  change (new_relativedelta 0 1 (-1) 0 None)
    with (mkrelativedelta 0 1 (-1) None).
  unfold date_add_relativedelta.
  cbn [rd_years rd_months rd_days rd_day year month day day_or].
  change (1 =? 0) with false. cbv iota.
  rewrite Z.add_0_r.
  assert (forall yy mm, (yy, mm) = (if m =? 12 then (y + 1, 1) else (y, m + 1)) ->
    (let? ndays := monthrange_ndays yy mm in
     let day := ndays `min` 1 in
     let? replaced := date_replace yy mm day in
     let? delta := timedelta_days (-1) in
     date_add_timedelta replaced delta)
    = if (y =? 9999) && (m =? 12) then Raise ValueError
      else Ok (mkdate y m (_days_in_month y m))) as Hfin.
  { intros yy mm Heq.
    assert (1 <= mm <= 12) as Hmm
      by (destruct (Z.eqb_spec m 12); inversion Heq; lia).
    rewrite monthrange_ndays_valid by assumption. simpl.
    pose proof (days_in_month_bounds yy mm Hmm).
    rewrite Z.min_r by lia.
    rewrite date_replace_fields by (apply fits_int_field; lia).
    unfold date_fields_ok, MINYEAR, MAXYEAR.
    destruct (Z.eqb_spec m 12) as [->|Hne]; inversion Heq; subst yy mm.
    - destruct (Z.eqb_spec y 9999) as [->|Hy9]; [reflexivity|].
      replace (1 <=? y + 1) with true by (symmetry; apply Z.leb_le; lia).
      replace (y + 1 <=? 9999) with true by (symmetry; apply Z.leb_le; lia).
      replace (1 <=? _days_in_month (y + 1) 1) with true
        by (symmetry; apply Z.leb_le; lia).
      simpl. unfold date_add_timedelta, toordinal. simpl.
      rewrite Hend.
      unfold toordinal, _MAXORDINAL in *. simpl in Hrl.
      replace (0 <? _) with true by (symmetry; apply Z.ltb_lt; lia).
      replace (_ <=? 3652059) with true by (symmetry; apply Z.leb_le; lia).
      simpl. f_equal.
      apply (fromordinal_toordinal (mkdate y 12 (_days_in_month y 12))).
      apply valid_date_fields_ok, Hvl.
    - rewrite andb_false_r.
      replace (1 <=? y) with true by (symmetry; apply Z.leb_le; lia).
      replace (y <=? 9999) with true by (symmetry; apply Z.leb_le; lia).
      replace (1 <=? m + 1) with true by (symmetry; apply Z.leb_le; lia).
      replace (m + 1 <=? 12) with true by (symmetry; apply Z.leb_le; lia).
      replace (1 <=? _days_in_month y (m + 1)) with true
        by (symmetry; apply Z.leb_le; lia).
      simpl. unfold date_add_timedelta, toordinal. simpl.
      rewrite Hend.
      unfold toordinal, _MAXORDINAL in *. simpl in Hrl.
      replace (0 <? _) with true by (symmetry; apply Z.ltb_lt; lia).
      replace (_ <=? 3652059) with true by (symmetry; apply Z.leb_le; lia).
      simpl. f_equal.
      apply (fromordinal_toordinal (mkdate y m (_days_in_month y m))).
      apply valid_date_fields_ok, Hvl. }
  destruct (Z.ltb_spec 12 (m + 1)).
  - apply Hfin. replace (m =? 12) with true by (symmetry; apply Z.eqb_eq; lia).
    f_equal; lia.
  - destruct (Z.ltb_spec (m + 1) 1); [lia|].
    apply Hfin. replace (m =? 12) with false by (symmetry; apply Z.eqb_neq; lia).
    reflexivity.
Qed.

Lemma resolve_DAY offset ref :
  valid_date ref ->
  resolve DAY offset ref
  = if ordinal_ok (toordinal ref + offset)
    then Ok (Some (fromordinal (toordinal ref + offset)),
             Some (fromordinal (toordinal ref + offset)))
    else Raise OverflowError.
Proof.
  intros Hv. unfold resolve. rewrite date_add_days by assumption.
  replace (offset + 0 * 7) with offset by lia. fold (ordinal_ok (toordinal ref + offset)).
  destruct (ordinal_ok _); reflexivity.
Qed.

Lemma ordinal_ok_spec n : ordinal_ok n = true <-> 1 <= n <= _MAXORDINAL.
Proof. unfold ordinal_ok. rewrite andb_true_iff. lia. Qed.

Lemma resolve_WEEK offset ref :
  valid_date ref ->
  resolve WEEK offset ref
  = if ordinal_ok (week_start offset ref)
       && ordinal_ok (week_start offset ref + 6)
    then Ok (Some (fromordinal (week_start offset ref)),
             Some (fromordinal (week_start offset ref + 6)))
    else Raise OverflowError.
Proof.
  intros Hv. unfold resolve. rewrite date_add_days by assumption.
  fold (week_start offset ref). fold (ordinal_ok (week_start offset ref)).
  destruct (ordinal_ok (week_start offset ref)) eqn:Hs; [|reflexivity].
  apply ordinal_ok_spec in Hs. simpl obind.
  rewrite date_add_days by (apply fromordinal_valid; assumption).
  rewrite toordinal_fromordinal.
  replace (6 + 0 * 7) with 6 by lia.
  fold (ordinal_ok (week_start offset ref + 6)).
  destruct (ordinal_ok _); reflexivity.
Qed.

Lemma resolve_MONTH offset ref :
  valid_date ref ->
  resolve MONTH offset ref
  = let '(y, m) := add_months (year ref) (month ref) offset in
    if month_ok y m
    then Ok (Some (mkdate y m 1), Some (mkdate y m (_days_in_month y m)))
    else Raise (replace_error y).
Proof.
  intros Hv. unfold resolve. rewrite date_add_months_day1 by assumption.
  pose proof Hv as Hv'. apply valid_date_iff in Hv' as [Hy [Hm Hd]].
  unfold add_months, month_ok.
  set (idx := year ref * 12 + (month ref - 1) + offset).
  pose proof (Z.mod_pos_bound idx 12 ltac:(lia)) as Bd.
  set (y := idx / 12) in *. set (m := idx mod 12 + 1) in *.
  assert (1 <= m <= 12) as Hm' by (unfold m; lia).
  destruct ((1 <=? y) && (y <=? 9999)) eqn:Hyr; [|reflexivity].
  simpl obind.
  assert (valid_date (mkdate y m 1)) as Hv1.
  { apply valid_date_iff. unfold fields_ok. simpl.
    pose proof (days_in_month_bounds y m Hm').
    apply andb_true_iff in Hyr. lia. }
  rewrite date_add_month_end by assumption.
  assert (replace_error y = ValueError) as ->.
  { unfold replace_error. apply andb_true_iff in Hyr.
    rewrite fits_int_field by lia. reflexivity. }
  destruct ((y =? 9999) && (m =? 12)); reflexivity.
Qed.

Lemma date_add_relativedelta_error dt rd e :
  date_add_relativedelta dt rd = Raise e -> date_error e = true.
Proof.
  unfold date_add_relativedelta.
  destruct (if rd_months rd =? 0 then _ else _) as [y m].
  unfold monthrange_ndays, date_replace, timedelta_days, date_add_timedelta.
  destruct ((1 <=? m) && (m <=? 12)); simpl; [|intros [= <-]; reflexivity].
  destruct (fits_int _ && fits_int _ && fits_int _); simpl;
    [|intros [= <-]; reflexivity].
  destruct (date_fields_ok _ _ _); simpl; [|intros [= <-]; reflexivity].
  destruct (Z.abs (rd_days rd) <=? 999999999); simpl;
    [|intros [= <-]; reflexivity].
  destruct (_ && _); [discriminate|intros [= <-]; reflexivity].
Qed.

Lemma resolve_error period offset ref e :
  resolve period offset ref = Raise e -> date_error e = true.
Proof.
  unfold resolve. destruct period; try discriminate.
  - destruct (date_add_relativedelta _ _) eqn:E; simpl; [discriminate|].
    intros [= <-]. eapply date_add_relativedelta_error, E.
  - destruct (date_add_relativedelta _ _) as [d|e1] eqn:E; simpl.
    + destruct (date_add_relativedelta d _) eqn:E2; simpl; [discriminate|].
      intros [= <-]. eapply date_add_relativedelta_error, E2.
    + intros [= <-]. eapply date_add_relativedelta_error, E.
  - destruct (date_add_relativedelta _ _) as [d|e1] eqn:E; simpl.
    + destruct (date_add_relativedelta d _) eqn:E2; simpl; [discriminate|].
      intros [= <-]. eapply date_add_relativedelta_error, E2.
    + intros [= <-]. eapply date_add_relativedelta_error, E.
Qed.

Lemma resolve_shape period offset ref r :
  resolve period offset ref = Ok r ->
  match period with
  | UNBILLED | FOREVER => r = (None, None)
  | _ => exists from_date to_date, r = (Some from_date, Some to_date)
  end.
Proof.
  unfold resolve. destruct period.
  - destruct (date_add_relativedelta _ _); simpl; [|discriminate].
    intros [= <-]. eauto.
  - destruct (date_add_relativedelta _ _) as [d|]; simpl; [|discriminate].
    destruct (date_add_relativedelta d _); simpl; [|discriminate].
    intros [= <-]. eauto.
  - destruct (date_add_relativedelta _ _) as [d|]; simpl; [|discriminate].
    destruct (date_add_relativedelta d _); simpl; [|discriminate].
    intros [= <-]. eauto.
  - intros [= <-]. reflexivity.
  - intros [= <-]. reflexivity.
Qed.


(** * [GeoTimePeriod.resolve] *)

Lemma date_leb_fromordinal a b :
  a <= b -> date_leb (fromordinal a) (fromordinal b) = true.
Proof.
  intros H. rewrite date_leb_toordinal by apply fromordinal_fields_ok.
  rewrite !toordinal_fromordinal. apply Z.leb_le, H.
Qed.

Lemma weekday_fromordinal n : weekday (fromordinal n) = (n + 6) mod 7.
Proof. unfold weekday. rewrite toordinal_fromordinal. reflexivity. Qed.

Lemma week_start_monday offset ref : (week_start offset ref + 6) mod 7 = 0.
Proof.
  unfold week_start, weekday.
  pose proof (Z.div_mod (toordinal ref + 6) 7 ltac:(lia)) as E.
  replace (toordinal ref + (- ((toordinal ref + 6) mod 7) + offset * 7) + 6)
    with (((toordinal ref + 6) / 7 + offset) * 7) by lia.
  apply Z.mod_mul. lia.
Qed.

(** C8, as amended.  For every reference date and every integer offset,
    [resolve MONTH offset ref] is the first and the last day of the month
    [offset] months from the month of [ref] when that month lies between
    January of year 1 and November of year 9999.  For any other month it
    raises: [ValueError] when the year of that month fits a C [int],
    December 9999 included, and [OverflowError] when it does not. *)
Theorem resolve_month_bounds (offset : Z) (ref : date) :
  valid_date ref ->
  resolve MONTH offset ref
  = let '(y, m) := add_months (year ref) (month ref) offset in
    if month_ok y m
    then Ok (Some (mkdate y m 1), Some (mkdate y m (_days_in_month y m)))
    else if fits_int y then Raise ValueError else Raise OverflowError.
Proof.
  intros Hv. rewrite resolve_MONTH by assumption.
  destruct (add_months (year ref) (month ref) offset) as [y m].
  unfold replace_error. destruct (month_ok y m), (fits_int y); reflexivity.
Qed.

(** April 15 with offset -1 gives March 1 to March 31. *)
Lemma resolve_month_bounds_witness :
  valid_date (mkdate 2024 4 15)
  /\ resolve MONTH (-1) (mkdate 2024 4 15)
     = Ok (Some (mkdate 2024 3 1), Some (mkdate 2024 3 31)).
Proof.
  split; [reflexivity|].
  exact (resolve_month_bounds (-1) (mkdate 2024 4 15) eq_refl).
Defined.

(** C8 as stated fails: 96000 months after March 2024 there is no [date],
    and [resolve] raises instead of returning a range. *)
Lemma resolve_month_out_of_range :
  valid_date (mkdate 2024 3 15)
  /\ resolve MONTH 96000 (mkdate 2024 3 15) = Raise ValueError
  /\ resolve MONTH 96000 (mkdate 2024 3 15)
     <> Ok (Some (mkdate 10024 3 1), Some (mkdate 10024 3 31)).
Proof.
  split; [reflexivity|]. split; [vm_compute; reflexivity|].
  vm_compute. discriminate.
Qed.

(** Twelve times 2^31 months on, the year no longer fits a C [int]. *)
Example resolve_month_beyond_int :
  resolve MONTH 25769803776 (mkdate 2024 3 15) = Raise OverflowError
  /\ resolve MONTH (-25769803776) (mkdate 2024 3 15) = Raise ValueError
  /\ resolve MONTH (-25769828076) (mkdate 2024 3 15) = Raise OverflowError
  /\ resolve MONTH 95709 (mkdate 2024 3 15) = Raise ValueError.
Proof. repeat split; vm_compute; reflexivity. Qed.

Lemma add_months_same y m : 1 <= m <= 12 -> add_months y m 0 = (y, m).
Proof.
  intros Hm. unfold add_months.
  replace (y * 12 + (m - 1) + 0) with ((m - 1) + y * 12) by lia.
  rewrite Z.div_add, Z.mod_add, Z.div_small, Z.mod_small by lia.
  f_equal; lia.
Qed.

(** Any day in March with offset 0 gives March 1 to March 31. *)
Example resolve_any_day_in_march y d :
  1 <= y <= 9999 -> 1 <= d <= 31 ->
  resolve MONTH 0 (mkdate y 3 d)
  = Ok (Some (mkdate y 3 1), Some (mkdate y 3 31)).
Proof.
  intros Hy Hd.
  assert (valid_date (mkdate y 3 d)) as Hv.
  { apply valid_date_iff. unfold fields_ok. cbn [year month day].
    change (_days_in_month y 3) with 31. lia. }
  rewrite resolve_MONTH by assumption. cbn [year month].
  rewrite add_months_same by lia.
  change (_days_in_month y 3) with 31.
  unfold month_ok.
  replace (1 <=? y) with true by (symmetry; apply Z.leb_le; lia).
  replace (y <=? 9999) with true by (symmetry; apply Z.leb_le; lia).
  rewrite andb_false_r. reflexivity.
Qed.

(** C9, as amended.  For every period, offset and reference date from which
    [resolve] has a range to give (the period is [DAY], [WEEK] or [MONTH] and
    the dates computed on the way lie in years 1 to 9999), the start is not
    after the end.  For [WEEK] the range runs from a Monday to the following
    Sunday, seven days inclusive, and holds the reference date moved by
    [offset] weeks. *)
Theorem resolve_start_before_end (period : GeoTimePeriod) (offset : Z)
    (ref : date) :
  valid_date ref ->
  resolvable period offset ref = true ->
  exists from_date to_date,
    resolve period offset ref = Ok (Some from_date, Some to_date)
    /\ date_leb from_date to_date = true
    /\ (period = WEEK ->
        weekday from_date = 0 /\ weekday to_date = 6
        /\ toordinal to_date - toordinal from_date + 1 = 7
        /\ toordinal from_date <= toordinal ref + 7 * offset
           <= toordinal to_date).
Proof.
  intros Hv Hr. destruct period; cbn [resolvable] in Hr; try discriminate.
  - rewrite resolve_DAY, Hr by assumption. do 2 eexists.
    split; [reflexivity|]. split; [|discriminate].
    apply date_leb_fromordinal. lia.
  - rewrite resolve_WEEK, Hr by assumption. do 2 eexists.
    split; [reflexivity|]. split; [apply date_leb_fromordinal; lia|].
    intros _. rewrite !weekday_fromordinal, !toordinal_fromordinal.
    pose proof (week_start_monday offset ref) as Hmon.
    split; [exact Hmon|]. split.
    + replace (week_start offset ref + 6 + 6)
        with (6 + (week_start offset ref + 6)) by lia.
      rewrite <- Zplus_mod_idemp_r, Hmon. reflexivity.
    + split; [lia|]. unfold week_start, weekday.
      pose proof (Z.mod_pos_bound (toordinal ref + 6) 7 ltac:(lia)). lia.
  - rewrite resolve_MONTH by assumption.
    destruct (add_months (year ref) (month ref) offset) as [y m] eqn:Hadd.
    rewrite Hr. do 2 eexists. split; [reflexivity|]. split; [|discriminate].
    unfold date_leb. cbn [year month day]. rewrite !Z.eqb_refl, !Z.ltb_irrefl.
    cbn [orb andb]. apply Z.leb_le.
    unfold add_months in Hadd. injection Hadd as <- <-.
    pose proof (Z.mod_pos_bound (year ref * 12 + (month ref - 1) + offset) 12
                  ltac:(lia)).
    pose proof (days_in_month_bounds
                  ((year ref * 12 + (month ref - 1) + offset) / 12)
                  ((year ref * 12 + (month ref - 1) + offset) mod 12 + 1)
                  ltac:(lia)).
    lia.
Qed.

(** The week of Wednesday 2024-03-06. *)
Lemma resolve_start_before_end_witness :
  exists from_date to_date,
    resolve WEEK 0 (mkdate 2024 3 6) = Ok (Some from_date, Some to_date)
    /\ date_leb from_date to_date = true
    /\ (WEEK = WEEK ->
        weekday from_date = 0 /\ weekday to_date = 6
        /\ toordinal to_date - toordinal from_date + 1 = 7
        /\ toordinal from_date <= toordinal (mkdate 2024 3 6) + 7 * 0
           <= toordinal to_date).
Proof.
  apply (resolve_start_before_end WEEK 0 (mkdate 2024 3 6)).
  - reflexivity.
  - vm_compute. reflexivity.
Defined.

(** C9 as stated fails: [UNBILLED] resolves to no dates at all, so there is
    no start and no end to compare. *)
Lemma resolve_unbilled_has_no_dates :
  valid_date (mkdate 2024 3 6)
  /\ resolve UNBILLED 0 (mkdate 2024 3 6) = Ok (None, None)
  /\ ~ (exists from_date to_date,
          resolve UNBILLED 0 (mkdate 2024 3 6)
          = Ok (Some from_date, Some to_date)
          /\ date_leb from_date to_date = true).
Proof.
  split; [reflexivity|]. split; [reflexivity|].
  intros (f & t & H & _). discriminate H.
Qed.

(** Outside its range [resolve] yields no pair of dates at all. *)
Lemma resolve_not_resolvable period offset ref :
  valid_date ref -> resolvable period offset ref = false ->
  resolve period offset ref = Ok (None, None)
  \/ exists e, resolve period offset ref = Raise e.
Proof.
  intros Hv Hr. destruct period; cbn [resolvable] in Hr.
  - rewrite resolve_DAY, Hr by assumption. eauto.
  - rewrite resolve_WEEK, Hr by assumption. eauto.
  - rewrite resolve_MONTH by assumption.
    destruct (add_months _ _ _). rewrite Hr. eauto.
  - left. reflexivity.
  - left. reflexivity.
Qed.

Example resolve_week_of_a_wednesday :
  weekday (mkdate 2024 3 6) = 2
  /\ resolve WEEK 0 (mkdate 2024 3 6)
     = Ok (Some (mkdate 2024 3 4), Some (mkdate 2024 3 10)).
Proof. split; vm_compute; reflexivity. Qed.


(** * The session: prerequisites, requests and replies *)

Lemma check_unauthenticated c :
  headers c !! "Authorization" = None ->
  _check_prerequisits c = (Raise not_authenticated_error, c, []).
Proof. intros H. unfold _check_prerequisits, bind, self. rewrite H. reflexivity. Qed.

Lemma check_unresolved c :
  authenticated c -> truthy (_system_id c) = false ->
  _check_prerequisits c = (Raise no_system_error, c, []).
Proof.
  intros [t H] Hs. unfold _check_prerequisits, bind, self. rewrite H, Hs.
  reflexivity.
Qed.

Lemma check_ready c :
  authenticated c -> truthy (_system_id c) = true ->
  _check_prerequisits c = (Ok tt, c, []).
Proof.
  intros [t H] Hs. unfold _check_prerequisits, bind, self. rewrite H, Hs.
  reflexivity.
Qed.

Section session.
Context {num : Type} `{!Number num}.
Implicit Types (w : world num) (c : GeoTogetherClient).

Lemma live_blocked w c e :
  _check_prerequisits c = (Raise e, c, []) ->
  get_live_usage w c = (Raise e, c, []).
Proof. intros H. unfold get_live_usage, bind. rewrite H. reflexivity. Qed.

Lemma periodic_blocked w c e :
  _check_prerequisits c = (Raise e, c, []) ->
  get_periodic_usage w c = (Raise e, c, []).
Proof. intros H. unfold get_periodic_usage, bind. rewrite H. reflexivity. Qed.

Lemma historic_blocked geocommon w period offset c e :
  _check_prerequisits c = (Raise e, c, []) ->
  get_historic_usage geocommon w period offset c = (Raise e, c, []).
Proof. intros H. unfold get_historic_usage, bind. rewrite H. reflexivity. Qed.

(** C10.  Every data operation checks the prerequisites first.  With no
    [Authorization] header held, [get_live_usage], [get_periodic_usage] and
    [get_historic_usage] raise [GeoTogetherAuthenticationError] and issue no
    request; with a token held and a falsy [_system_id] they raise
    [GeoTogetherSystemError], again with no request issued.  The client is
    left as it was. *)
Theorem preconditions_gate geocommon w period offset c :
  (headers c !! "Authorization" = None ->
   get_live_usage w c = (Raise not_authenticated_error, c, [])
   /\ get_periodic_usage w c = (Raise not_authenticated_error, c, [])
   /\ get_historic_usage geocommon w period offset c
      = (Raise not_authenticated_error, c, []))
  /\ (authenticated c -> truthy (_system_id c) = false ->
      get_live_usage w c = (Raise no_system_error, c, [])
      /\ get_periodic_usage w c = (Raise no_system_error, c, [])
      /\ get_historic_usage geocommon w period offset c
         = (Raise no_system_error, c, [])).
Proof.
  split.
  - intros H. apply check_unauthenticated in H.
    auto using live_blocked, periodic_blocked, historic_blocked.
  - intros Ha Hs. pose proof (check_unresolved c Ha Hs) as H.
    auto using live_blocked, periodic_blocked, historic_blocked.
Qed.

Lemma historic_open_period geocommon w period offset c :
  authenticated c -> truthy (_system_id c) = true ->
  period = UNBILLED \/ period = FOREVER ->
  get_historic_usage geocommon w period offset c
  = (Raise (no_range_error period), c, []).
Proof.
  intros Ha Hs Hp. unfold get_historic_usage, bind.
  rewrite check_ready by assumption.
  destruct Hp as [-> | ->]; reflexivity.
Qed.

(** C5.  For every offset and every client state, [get_historic_usage] on
    [UNBILLED] or [FOREVER] raises an exception of class [GeoTogetherError]
    and issues no request; once the prerequisites hold, the exception is the
    [GeoTogetherError] that names the period. *)
Theorem historic_rejects_open_periods geocommon w period offset c :
  period = UNBILLED \/ period = FOREVER ->
  exists e,
    get_historic_usage geocommon w period offset c = (Raise e, c, [])
    /\ isinstance_GeoTogetherError e = true
    /\ (authenticated c -> truthy (_system_id c) = true ->
        e = no_range_error period).
Proof.
  intros Hp.
  destruct (headers c !! "Authorization") as [t|] eqn:Hh.
  - destruct (truthy (_system_id c)) eqn:Hs.
    + exists (no_range_error period). split; [|split; [reflexivity|auto]].
      apply historic_open_period; [unfold authenticated; eauto|auto..].
    + exists no_system_error. split; [|split; [reflexivity|congruence]].
      apply historic_blocked, check_unresolved; unfold authenticated; eauto.
  - exists not_authenticated_error. split; [|split; [reflexivity|]].
    + apply historic_blocked, check_unauthenticated; assumption.
    + intros [t Ht]. congruence.
Qed.

Lemma reject_status_run {A} status c :
  authenticated c -> status <> 200 ->
  reject_status (A := A) status c
  = if status =? 401 then (Raise expired_error, expired c, [])
    else (Raise (status_error status), c, []).
Proof.
  intros [t Ht] _. unfold reject_status.
  destruct (status =? 401); [|reflexivity].
  unfold bind, del_header. rewrite Ht. reflexivity.
Qed.

Lemma live_run w c :
  ready c ->
  get_live_usage w c
  = match transport w (live_request c) with
    | Failure detail => (Raise (connectivity detail), c, [live_request c])
    | Response status body =>
        if status =? 200 then
          (Ok (map (fun p => {| _live_usage := p |})
                 (default [] (power body))), c, [live_request c])
        else if status =? 401 then
          (Raise expired_error, expired c, [live_request c])
        else (Raise (status_error status), c, [live_request c])
    end.
Proof.
  intros [Ha Hs]. unfold get_live_usage, bind at 1.
  rewrite check_ready by assumption.
  unfold try_except_ClientError, bind, self, send.
  fold (get_request c ("api/userapi/system/smets2-live-data/"
                       +:+ py_str (_system_id c))).
  fold (live_request c).
  destruct (transport w (live_request c)) as [status body|detail];
    [|reflexivity].
  destruct (Z.eqb_spec status 200) as [->|Hne].
  - destruct (power body) as [[|p ps]|]; reflexivity.
  - rewrite reject_status_run by assumption.
    destruct (status =? 401); reflexivity.
Qed.

Lemma periodic_run w c :
  ready c ->
  get_periodic_usage w c
  = match transport w (periodic_request c) with
    | Failure detail =>
        (Raise (connectivity detail), c, [periodic_request c])
    | Response status body =>
        if status =? 200 then
          match periodic_sections body with
          | Ok rtn => (Ok (dict_values rtn), c, [periodic_request c])
          | Raise e => (Raise (through_handler e), c, [periodic_request c])
          end
        else if status =? 401 then
          (Raise expired_error, expired c, [periodic_request c])
        else (Raise (status_error status), c, [periodic_request c])
    end.
Proof.
  intros [Ha Hs]. unfold get_periodic_usage, bind at 1.
  rewrite check_ready by assumption.
  unfold try_except_ClientError, bind, self, send, lift, ret.
  fold (get_request c ("api/userapi/system/smets2-periodic-data/"
                       +:+ py_str (_system_id c))).
  fold (periodic_request c).
  destruct (transport w (periodic_request c)) as [status body|detail];
    [|reflexivity].
  destruct (Z.eqb_spec status 200) as [->|Hne].
  - fold (periodic_sections body).
    destruct (periodic_sections body) as [rtn|e]; [reflexivity|].
    unfold through_handler, connectivity_error, raise.
    destruct (isinstance_ClientError e); reflexivity.
  - rewrite reject_status_run by assumption.
    destruct (status =? 401); reflexivity.
Qed.

Lemma historic_run geocommon w c period offset from_date to_date :
  ready c -> has_range period ->
  resolve_default geocommon period (normalise offset)
  = Ok (Some from_date, Some to_date) ->
  let req := historic_request c period from_date to_date in
  get_historic_usage geocommon w period offset c
  = match transport w req with
    | Failure detail => (Raise (connectivity detail), c, [req])
    | Response status body =>
        if status =? 200 then
          match historic_totals period body with
          | Ok rtn => (Ok (dict_values rtn), c, [req])
          | Raise e => (Raise (through_handler e), c, [req])
          end
        else (Ok [], c, [req])
    end.
Proof.
  intros [Ha Hs] [Hu Hf] Hres req. unfold get_historic_usage, bind at 1.
  rewrite check_ready by assumption.
  rewrite !bool_decide_eq_false_2 by assumption. cbn [orb].
  fold (normalise offset).
  unfold try_except_ClientError, bind, lift, self, send, ret. rewrite Hres.
  cbn [fst snd isoformat_of].
  fold (history_type period).
  fold (get_request c
          ("api/userapi/system/smets2-historic-" +:+ history_type period
           +:+ "/" +:+ py_str (_system_id c)
           +:+ "?from=" +:+ isoformat from_date
           +:+ "&to=" +:+ isoformat to_date)).
  fold (historic_request c period from_date to_date). fold req.
  destruct (transport w req) as [status body|detail]; [|reflexivity].
  destruct (Z.eqb_spec status 200) as [->|Hne]; [|reflexivity].
  unfold historic_totals.
  destruct (totalsList body) as [totals|]; [|reflexivity].
  destruct (for_each _ _ _) as [rtn|e]; [reflexivity|].
  unfold through_handler, connectivity_error, raise.
  destruct (isinstance_ClientError e); reflexivity.
Qed.

Lemma historic_resolve_fails geocommon w c period offset e :
  ready c -> has_range period ->
  resolve_default geocommon period (normalise offset) = Raise e ->
  get_historic_usage geocommon w period offset c = (Raise e, c, []).
Proof.
  intros [Ha Hs] [Hu Hf] Hres. unfold get_historic_usage, bind at 1.
  rewrite check_ready by assumption.
  rewrite !bool_decide_eq_false_2 by assumption. cbn [orb].
  fold (normalise offset).
  unfold try_except_ClientError, bind, lift. rewrite Hres.
  apply resolve_error in Hres. destruct e; try discriminate; reflexivity.
Qed.

Lemma historic_issues geocommon w c period offset :
  snd (get_historic_usage geocommon w period offset c)
  = historic_trace geocommon c period offset.
Proof.
  unfold historic_trace.
  destruct (headers c !! "Authorization") as [t|] eqn:Hh.
  2:{ rewrite (historic_blocked _ _ _ _ _ not_authenticated_error),
        check_unauthenticated by auto using check_unauthenticated.
      reflexivity. }
  assert (authenticated c) as Ha by (unfold authenticated; eauto).
  destruct (truthy (_system_id c)) eqn:Hs.
  2:{ rewrite (historic_blocked _ _ _ _ _ no_system_error),
        check_unresolved by auto using check_unresolved.
      reflexivity. }
  rewrite check_ready by assumption.
  destruct (resolve_default geocommon period (normalise offset))
    as [r|e] eqn:Hres.
  - pose proof (resolve_shape _ _ _ _ Hres) as Hshape.
    destruct (decide (period = UNBILLED)) as [->|Hu].
    { subst r. rewrite historic_open_period by auto. reflexivity. }
    destruct (decide (period = FOREVER)) as [->|Hf].
    { subst r. rewrite historic_open_period by auto. reflexivity. }
    assert (exists f u, r = (Some f, Some u)) as (f & u & ->)
      by (destruct period; congruence).
    rewrite (historic_run geocommon w c period offset f u)
      by (unfold ready, has_range; auto).
    destruct (transport w _) as [status body|]; [|reflexivity].
    destruct (status =? 200); [|reflexivity].
    destruct (historic_totals period body); reflexivity.
  - destruct (decide (period = UNBILLED)) as [->|Hu]; [discriminate|].
    destruct (decide (period = FOREVER)) as [->|Hf]; [discriminate|].
    rewrite (historic_resolve_fails geocommon w c period offset e)
      by (unfold ready, has_range; auto).
    reflexivity.
Qed.

(** C4.  The requests [get_historic_usage] issues depend on the day
    [geocommon] was imported and not on the world of the call: with the same
    period and offset, calls made in any two worlds (any two current dates,
    any two servers) issue the same requests, and for a ready client that is
    the one request whose from and to bounds are [resolve] of the period at
    the import day. *)
Theorem historic_range_fixed_at_import (boot : date) (w1 w2 : world num) c
    (period : GeoTimePeriod) (offset : Z) :
  snd (get_historic_usage (import_geocommon boot) w1 period offset c)
  = snd (get_historic_usage (import_geocommon boot) w2 period offset c)
  /\ (forall from_date to_date,
        ready c ->
        resolve period (normalise offset) boot
        = Ok (Some from_date, Some to_date) ->
        snd (get_historic_usage (import_geocommon boot) w1 period offset c)
        = [historic_request c period from_date to_date]).
Proof.
  split.
  - rewrite !historic_issues. reflexivity.
  - intros f t [Ha Hs] Hres. rewrite historic_issues. unfold historic_trace.
    rewrite check_ready by assumption.
    unfold resolve_default, import_geocommon. cbn [resolve_start_date_default].
    rewrite Hres. reflexivity.
Qed.

Lemma expired_unauthenticated c :
  headers (expired c) !! "Authorization" = None.
Proof. unfold expired. cbn [headers]. apply lookup_delete_eq. Qed.

Lemma resolve_system_loop_run name systems c :
  resolve_system_loop name systems c
  = match selected name systems with
    | Some system_id => (Ok tt, with_system c (PyStr system_id), [])
    | None => (Ok tt, c, [])
    end.
Proof.
  unfold selected. induction systems as [|system rest IH]; [reflexivity|].
  cbn [resolve_system_loop List.find]. unfold eligible at 1.
  destruct (sd_systemId system) as [system_id|] eqn:Hid;
    [destruct (sd_name system) as [system_name|]|]; try exact IH.
  destruct (negb (name_given name) || bool_decide (Some system_name = name));
    [|exact IH].
  rewrite Hid. reflexivity.
Qed.

(** [resolve_system] issues one request.  On a transport
    failure it returns [False].  Otherwise it returns, and stores, the
    [systemId] of the first listed system that carries both keys and, when a
    name is given, exactly that name; when no system is eligible it returns
    the [_system_id] the client already held, unchanged, which is falsy when
    none had been resolved before. *)
Theorem resolve_system_run w name c :
  match transport w (systems_request c) with
  | Failure _ =>
      resolve_system w name c = (Ok (PyBool false), c, [systems_request c])
  | Response status body =>
      match selected name (offered status body) with
      | Some system_id =>
          resolve_system w name c
          = (Ok (PyStr system_id), with_system c (PyStr system_id),
             [systems_request c])
      | None =>
          resolve_system w name c
          = (Ok (_system_id c), c, [systems_request c])
          /\ (_system_id c = PyNone ->
              exists v, resolve_system w name c = (Ok v, c, [systems_request c])
                        /\ truthy v = false)
      end
  end.
Proof.
  unfold resolve_system, try_except_ClientError, bind, self, send, ret.
  fold (get_request c "api/userapi/v2/user/detail-systems?systemDetails=true").
  fold (systems_request c).
  destruct (transport w (systems_request c)) as [status body|detail];
    [|reflexivity].
  unfold offered.
  destruct (status =? 200).
  - destruct (systemDetails body) as [systems|].
    + change (default [] (Some systems)) with systems.
      rewrite resolve_system_loop_run.
      destruct (selected name systems); [reflexivity|].
      split; [reflexivity|]. intros ->. eauto.
    + change (selected name (default [] None)) with (@None string).
      split; [reflexivity|]. intros ->. eauto.
  - change (selected name []) with (@None string).
    split; [reflexivity|]. intros ->. eauto.
Qed.

End session.

(** * The payload parsers *)

Section dict_facts.
Context {K V : Type} `{!EqDecision K}.
Implicit Types (d : list (K * V)).

Lemma dict_get_set_eq k v d : dict_get k (dict_set k v d) = Some v.
Proof.
  induction d as [|[k' v'] d IH]; cbn.
  - rewrite decide_True by reflexivity. reflexivity.
  - destruct (decide (k = k')) as [->|Hne]; cbn.
    + rewrite decide_True by reflexivity. reflexivity.
    + rewrite decide_False by assumption. exact IH.
Qed.

Lemma dict_get_set_ne k k' v d :
  k <> k' -> dict_get k' (dict_set k v d) = dict_get k' d.
Proof.
  intros Hne. induction d as [|[k0 v0] d IH]; cbn.
  - rewrite decide_False by congruence. reflexivity.
  - destruct (decide (k = k0)) as [->|Hk]; cbn.
    + rewrite !decide_False by congruence. reflexivity.
    + destruct (decide (k' = k0)); [reflexivity|exact IH].
Qed.

Lemma dict_keys_set k v d :
  dict_keys (dict_set k v d)
  = match dict_get k d with
    | Some _ => dict_keys d
    | None => (dict_keys d ++ [k])%list
    end.
Proof.
  unfold dict_keys. induction d as [|[k' v'] d IH]; cbn; [reflexivity|].
  destruct (decide (k = k')) as [->|Hne]; cbn; [reflexivity|].
  rewrite IH. destruct (dict_get k d); reflexivity.
Qed.

Lemma dict_get_None_keys k d : dict_get k d = None -> ~ In k (dict_keys d).
Proof.
  unfold dict_keys. induction d as [|[k' v'] d IH]; cbn; [tauto|].
  destruct (decide (k = k')); [discriminate|]. intros H [Heq|Hin]; [congruence|].
  exact (IH H Hin).
Qed.

Lemma dict_keys_set_NoDup k v d :
  List.NoDup (dict_keys d) -> List.NoDup (dict_keys (dict_set k v d)).
Proof.
  intros Hnd. rewrite dict_keys_set.
  destruct (dict_get k d) eqn:Hg; [assumption|].
  apply dict_get_None_keys in Hg.
  rewrite <- (rev_involutive (dict_keys d ++ [k])%list).
  apply NoDup_rev. rewrite rev_app_distr. cbn.
  constructor; [rewrite <- in_rev; assumption|apply NoDup_rev; assumption].
Qed.

Lemma dict_set_Forall (P : K * V -> Prop) k v d :
  P (k, v) -> Forall P d -> Forall P (dict_set k v d).
Proof.
  intros Hp Hd. induction Hd as [|[k' v'] d Hx Hd IH]; cbn.
  - repeat constructor. assumption.
  - destruct (decide (k = k')); constructor; assumption.
Qed.

Lemma dict_get_Forall (P : K * V -> Prop) k v d :
  Forall P d -> dict_get k d = Some v -> P (k, v).
Proof.
  intros Hd. induction Hd as [|[k' v'] d Hx Hd IH]; cbn; [discriminate|].
  destruct (decide (k = k')) as [->|]; [|assumption].
  intros [= <-]. assumption.
Qed.

End dict_facts.

Lemma for_each_app {A B} (f : A -> B -> outcome A) a l1 l2 :
  for_each f a (l1 ++ l2)
  = let? a' := for_each f a l1 in for_each f a' l2.
Proof.
  revert a. induction l1 as [|x l1 IH]; intros a; cbn; [reflexivity|].
  destruct (f a x); cbn; [apply IH|reflexivity].
Qed.

(** A loop whose body keeps an invariant on well-formed items runs to its
    end and keeps it. *)
Lemma for_each_invariant {A B} (f : A -> B -> outcome A) (I : A -> Prop)
    (ok : B -> Prop) a l :
  (forall a b, I a -> ok b -> exists a', f a b = Ok a' /\ I a') ->
  I a -> Forall ok l -> exists a', for_each f a l = Ok a' /\ I a'.
Proof.
  intros Hstep Ha Hl. revert a Ha.
  induction Hl as [|b l Hb Hl IH]; intros a Ha; cbn; [eauto|].
  destruct (Hstep a b Ha Hb) as (a' & -> & Ha'). cbn. auto.
Qed.

Section historic.
Context {num : Type} `{!Number num}.
Implicit Types (acc : list (GeoEnergyType * GeoEnergyUsage num))
  (u : commodity_total num) (e : GeoEnergyUsage num).

Lemma historic_step period acc u energy_type :
  Forall (counted period) acc ->
  commodity_type u = Some energy_type ->
  exists acc',
    _parse_historic_commodity_total period acc u = Ok acc'
    /\ Forall (counted period) acc'
    /\ (List.NoDup (dict_keys acc) -> List.NoDup (dict_keys acc'))
    /\ dict_get energy_type acc'
       = absorb period energy_type (dict_get energy_type acc) u
    /\ forall other, other <> energy_type ->
         dict_get other acc' = dict_get other acc.
Proof.
  intros Hacc Hty. unfold _parse_historic_commodity_total, commodity_type in *.
  destruct (ct_commodityType u) as [key|]; [|discriminate]. cbn [subscript obind].
  destruct (GeoEnergyType_getitem key) as [t|]; [|discriminate].
  injection Hty as ->. cbn [obind].
  fold (amount_of u). fold (cost_of u).
  destruct (dict_get energy_type acc) as [e|] eqn:Hget.
  - pose proof (dict_get_Forall _ _ _ _ Hacc Hget) as (Ht & Hp & [a Ha] & [c Hc]).
    cbn [fst snd] in *. rewrite Ha, Hc. cbn [iadd obind].
    eexists. split; [reflexivity|]. split; [|split; [|split]].
    + apply dict_set_Forall; [|assumption].
      unfold counted; cbn. rewrite Ht, Hp. eauto.
    + apply dict_keys_set_NoDup.
    + rewrite dict_get_set_eq. unfold absorb. rewrite Ha, Hc. reflexivity.
    + intros other Hne. apply dict_get_set_ne. congruence.
  - eexists. split; [reflexivity|]. split; [|split; [|split]].
    + apply dict_set_Forall; [|assumption]. unfold counted; cbn. eauto.
    + apply dict_keys_set_NoDup.
    + rewrite dict_get_set_eq. reflexivity.
    + intros other Hne. apply dict_get_set_ne. congruence.
Qed.

Lemma historic_loop period entries : forall acc,
  Forall (counted period) acc ->
  Forall (fun u => is_Some (commodity_type u)) entries ->
  exists acc',
    _parse_historic_commodity_totals period entries acc = Ok acc'
    /\ Forall (counted period) acc'
    /\ (List.NoDup (dict_keys acc) -> List.NoDup (dict_keys acc'))
    /\ forall energy_type,
         dict_get energy_type acc'
         = fold_left (absorb period energy_type)
             (filter (fun u => of_type energy_type u = true) entries)
             (dict_get energy_type acc).
Proof.
  unfold _parse_historic_commodity_totals.
  induction entries as [|u entries IH]; intros acc Hacc Hall.
  - exists acc. cbn. auto.
  - inversion Hall as [|? ? [t Ht] Hrest]; subst.
    destruct (historic_step period acc u t Hacc Ht)
      as (acc1 & Hrun & Hacc1 & Hnd1 & Hsame & Hother).
    destruct (IH acc1 Hacc1 Hrest) as (acc' & Hrun' & Hacc' & Hnd' & Hget').
    exists acc'. cbn [for_each]. rewrite Hrun. cbn [obind].
    split; [exact Hrun'|]. split; [assumption|]. split; [auto|].
    intros energy_type. rewrite Hget'. rewrite filter_cons.
    destruct (decide (t = energy_type)) as [->|Hne].
    + rewrite decide_True
        by (unfold of_type; rewrite Ht; apply bool_decide_eq_true_2;
            reflexivity).
      cbn [fold_left]. rewrite Hsame. reflexivity.
    + rewrite decide_False.
      * rewrite Hother by congruence. reflexivity.
      * unfold of_type. rewrite Ht.
        rewrite bool_decide_eq_false_2 by congruence. discriminate.
Qed.

Lemma absorb_run period energy_type rest : forall a c,
  fold_left (absorb period energy_type) rest
    (Some (mkGeoEnergyUsage period energy_type (Some a) (Some c)))
  = Some (mkGeoEnergyUsage period energy_type
            (Some (fold_left num_add (map amount_of rest) a))
            (Some (fold_left num_add (map cost_of rest) c))).
Proof.
  induction rest as [|u rest IH]; intros a c; [reflexivity|].
  cbn [fold_left map absorb eu_period eu_type eu_energy_amount
       eu_energy_cost fmap option_fmap option_map].
  apply IH.
Qed.

Lemma absorb_all period energy_type entries :
  fold_left (absorb period energy_type)
    (filter (fun u => of_type energy_type u = true) entries) None
  = aggregate period energy_type entries.
Proof.
  unfold aggregate.
  destruct (filter _ entries) as [|u rest]; [reflexivity|].
  cbn [fold_left absorb summed]. apply absorb_run.
Qed.

Lemma usage_of_values period acc energy_type :
  Forall (counted period) acc ->
  usage_of energy_type (dict_values acc) = dict_get energy_type acc.
Proof.
  unfold usage_of, dict_values.
  induction 1 as [|[k e] acc (Ht & _) _ IH]; [reflexivity|].
  cbn [map snd List.find dict_get fst] in *. rewrite Ht.
  destruct (decide (energy_type = k)) as [->|Hne].
  - rewrite bool_decide_eq_true_2 by reflexivity. reflexivity.
  - rewrite bool_decide_eq_false_2 by congruence. exact IH.
Qed.

Lemma values_types period acc :
  Forall (counted period) acc ->
  map eu_type (dict_values acc) = dict_keys acc.
Proof.
  unfold dict_values, dict_keys.
  induction 1 as [|[k e] acc (Ht & _) _ IH]; [reflexivity|].
  cbn [map fst snd] in *. rewrite Ht, IH. reflexivity.
Qed.

Lemma historic_totals_flat period totals : forall acc,
  for_each
    (fun rtn period_total =>
       when_present (commodityTotalsList period_total)
         (_parse_historic_commodity_totals period) rtn)
    acc totals
  = _parse_historic_commodity_totals period
      (concat (map (fun period_total =>
                      default [] (commodityTotalsList period_total)) totals))
      acc.
Proof.
  unfold _parse_historic_commodity_totals.
  induction totals as [|period_total totals IH]; intros acc; [reflexivity|].
  cbn [for_each map concat]. rewrite for_each_app.
  destruct (commodityTotalsList period_total) as [entries|];
    cbn [when_present default from_option id].
  - unfold _parse_historic_commodity_totals.
    destruct (for_each _ acc entries); cbn [obind]; [apply IH|reflexivity].
  - cbn [for_each obind]. apply IH.
Qed.

(** The aggregation [get_historic_usage] performs on a 200 reply. *)
Lemma historic_totals_spec period body :
  Forall (fun u => is_Some (commodity_type u)) (commodity_totals body) ->
  exists rtn,
    historic_totals period body = Ok rtn
    /\ List.NoDup (map eu_type (dict_values rtn))
    /\ Forall (fun e => eu_period e = period
                        /\ is_Some (eu_energy_amount e)
                        /\ is_Some (eu_energy_cost e)) (dict_values rtn)
    /\ forall energy_type,
         usage_of energy_type (dict_values rtn)
         = aggregate period energy_type (commodity_totals body).
Proof.
  intros Hall. unfold historic_totals, commodity_totals in *.
  destruct (totalsList body) as [totals|]; cbn [default from_option id] in *.
  - rewrite historic_totals_flat.
    destruct (historic_loop period _ [] (List.Forall_nil _) Hall)
      as (rtn & Hrun & Hacc & Hnd & Hget).
    exists rtn. split; [exact Hrun|]. split; [|split].
    + rewrite (values_types period) by assumption. apply Hnd. constructor.
    + unfold dict_values. clear -Hacc.
      induction Hacc as [|[k e] acc (_ & Hp & Ha & Hc) _ IH]; cbn;
        constructor; auto.
    + intros energy_type.
      rewrite (usage_of_values period) by assumption.
      rewrite Hget. apply absorb_all.
  - exists []. split; [reflexivity|]. split; [constructor|].
    split; [constructor|]. reflexivity.
Qed.

End historic.

Section periodic.
Context {num : Type} `{!Number num}.
Implicit Types (acc : list (GeoEnergyType * GeoPeriodicEnergyUsage num))
  (u : GeoEnergyUsage num).

Lemma accumulate_tidy energy_type other fresh acc :
  tidy acc -> tidy (accumulate energy_type other fresh acc).
Proof.
  intros [Hk Hnd]. unfold accumulate.
  destruct (dict_get energy_type acc) as [periodic|] eqn:Hget.
  - split; [|apply dict_keys_set_NoDup; assumption].
    apply dict_set_Forall; [|assumption].
    pose proof (dict_get_Forall _ _ _ _ Hk Hget) as Ht. cbn in *.
    destruct other; exact Ht.
  - split; [|apply dict_keys_set_NoDup; assumption].
    apply dict_set_Forall; [reflexivity|assumption].
Qed.

Lemma accumulate_keeps energy_type other fresh acc recorded u :
  holds acc recorded u ->
  holds (accumulate energy_type other fresh acc) recorded u.
Proof.
  intros (periodic & Hget & Hin). unfold accumulate, holds.
  destruct (decide (energy_type = recorded)) as [->|Hne].
  - rewrite Hget, dict_get_set_eq. eexists. split; [reflexivity|].
    destruct other; cbn; apply in_or_app; auto.
  - destruct (dict_get energy_type acc);
      rewrite dict_get_set_ne by assumption; eauto.
Qed.

Lemma accumulate_adds energy_type u acc :
  holds (accumulate energy_type (OneUsage u) [u] acc) energy_type u.
Proof.
  unfold accumulate, holds.
  destruct (dict_get energy_type acc) as [periodic|];
    rewrite dict_get_set_eq; eexists; (split; [reflexivity|]); cbn.
  - apply in_or_app. right. left. reflexivity.
  - left. reflexivity.
Qed.

Lemma total_consumption_run entries : forall acc,
  tidy acc -> Forall consumption_ok entries ->
  exists acc',
    _parse_total_consumption entries acc = Ok acc'
    /\ tidy acc'
    /\ (forall energy_type u, holds acc energy_type u ->
          holds acc' energy_type u)
    /\ (forall entry energy_type amount,
          In entry entries ->
          energy_type_named (tc_commodityType entry) = Some energy_type ->
          totalConsumption entry = Some amount ->
          holds acc' energy_type
            (mkGeoEnergyUsage FOREVER energy_type (Some amount) None)).
Proof.
  unfold _parse_total_consumption.
  induction entries as [|entry entries IH]; intros acc Hacc Hall.
  - exists acc. split; [reflexivity|]. split; [assumption|].
    split; [auto|]. intros ? ? ? [].
  - inversion Hall as [|? ? [[t Ht] [a Ha]] Hrest]; subst.
    cbn [for_each]. unfold energy_type_named in Ht.
    destruct (tc_commodityType entry) as [key|] eqn:Hkey; [|discriminate].
    cbn [subscript obind].
    destruct (GeoEnergyType_getitem key) as [t'|] eqn:Hitem; [|discriminate].
    injection Ht as ->. rewrite Ha. cbn [subscript obind].
    set (u := mkGeoEnergyUsage FOREVER t (Some a) None).
    destruct (IH (accumulate t (OneUsage u) [u] acc)
                (accumulate_tidy _ _ _ _ Hacc) Hrest)
      as (acc' & Hrun & Htidy & Hkeep & Hnew).
    exists acc'. split; [exact Hrun|]. split; [exact Htidy|]. split.
    + intros energy_type v Hv. apply Hkeep, accumulate_keeps, Hv.
    + intros entry' energy_type amount [<-|Hin] Hty Hamount.
      * unfold energy_type_named in Hty. rewrite Hkey, Hitem in Hty.
        injection Hty as <-. rewrite Ha in Hamount. injection Hamount as <-.
        apply Hkeep, accumulate_adds.
      * eapply Hnew; eassumption.
Qed.



Lemma tidy_none acc energy_type :
  Forall (fun entry => peu_type (snd entry) = fst entry) acc ->
  ~ In energy_type (dict_keys acc) ->
  filter (fun q => peu_type q = energy_type) (dict_values acc) = [].
Proof.
  unfold dict_values, dict_keys.
  induction 1 as [|[k q] acc Ht _ IH]; intros Hnot; [reflexivity|].
  cbn [map fst snd] in *. rewrite filter_cons.
  rewrite decide_False by (rewrite Ht; intros ->; apply Hnot; left; reflexivity).
  apply IH. intros Hin. apply Hnot. right. exact Hin.
Qed.

Lemma tidy_unique acc energy_type periodic :
  tidy acc -> dict_get energy_type acc = Some periodic ->
  filter (fun q => peu_type q = energy_type) (dict_values acc) = [periodic].
Proof.
  intros [Hk Hnd]. revert Hnd. unfold dict_values, dict_keys.
  induction Hk as [|[k q] acc Ht Hk IH]; intros Hnd Hget; [discriminate|].
  cbn [map fst snd dict_get] in *.
  apply List.NoDup_cons_iff in Hnd as [Hnot Hnd'].
  rewrite filter_cons.
  destruct (decide (energy_type = k)) as [->|Hne].
  - injection Hget as ->. rewrite decide_True by exact Ht.
    f_equal. apply tidy_none; assumption.
  - rewrite decide_False by congruence. apply IH; assumption.
Qed.



End periodic.

(** * The data operations end to end *)

Lemma sample_client_ready : ready sample_client.
Proof. split; [eexists|]; vm_compute; reflexivity. Defined.

Section historic_usage.
Context {num : Type} `{!Number num}.

(** C1, as amended.  On a 200 reply whose commodity totals all name a member
    of [GeoEnergyType], [get_historic_usage] returns one [GeoEnergyUsage] per
    energy type met.  It carries the sum of the amounts and the sum of the
    costs of every entry of that type, across all sub-periods, an absent
    field counting as 0, and neither field of an aggregate is ever absent. *)
Theorem historic_usage_sums (geocommon : geocommon_module) (w : world num)
    (c : GeoTogetherClient) (period : GeoTimePeriod) (offset : Z)
    (from_date to_date : date) (body : payload num) :
  ready c -> has_range period ->
  resolve_default geocommon period (normalise offset)
  = Ok (Some from_date, Some to_date) ->
  transport w (historic_request c period from_date to_date)
  = Response 200 body ->
  Forall (fun u => is_Some (commodity_type u)) (commodity_totals body) ->
  exists result,
    get_historic_usage geocommon w period offset c
    = (Ok result, c, [historic_request c period from_date to_date])
    /\ List.NoDup (map eu_type result)
    /\ (forall energy_type,
          usage_of energy_type result
          = aggregate period energy_type (commodity_totals body))
    /\ Forall (fun e => eu_energy_amount e <> None
                        /\ eu_energy_cost e <> None) result.
Proof.
  intros Hready Hrange Hres Hreply Hall.
  destruct (historic_totals_spec period body Hall)
    as (rtn & Hrun & Hnd & Hsome & Hagg).
  exists (dict_values rtn).
  rewrite (historic_run geocommon w c period offset from_date to_date)
    by assumption.
  cbv zeta. rewrite Hreply. cbn [Z.eqb Pos.eqb]. rewrite Hrun.
  split; [reflexivity|]. split; [assumption|]. split; [assumption|].
  eapply List.Forall_impl; [|exact Hsome].
  intros e (_ & [a Ha] & [k Hk]). rewrite Ha, Hk. split; discriminate.
Qed.

(** Any status other than 200 leaves [get_historic_usage] returning an
    empty result, token untouched. *)
Lemma historic_ignores_status (geocommon : geocommon_module) (w : world num)
    c period offset from_date to_date status body :
  ready c -> has_range period ->
  resolve_default geocommon period (normalise offset)
  = Ok (Some from_date, Some to_date) ->
  transport w (historic_request c period from_date to_date)
  = Response status body ->
  status <> 200 ->
  get_historic_usage geocommon w period offset c
  = (Ok [], c, [historic_request c period from_date to_date]).
Proof.
  intros Hready Hrange Hres Hreply Hne.
  rewrite (historic_run geocommon w c period offset from_date to_date)
    by assumption.
  cbv zeta. rewrite Hreply.
  replace (status =? 200) with false by (symmetry; apply Z.eqb_neq, Hne).
  reflexivity.
Qed.

(** A 401 on the live and periodic calls drops the token, and the next
    data call of any kind stops at the gate. *)
Lemma expiry_clears_token (geocommon : geocommon_module) (w w' : world num)
    c body period offset :
  ready c ->
  (transport w (live_request c) = Response 401 body ->
   get_live_usage w c = (Raise expired_error, expired c, [live_request c]))
  /\ (transport w (periodic_request c) = Response 401 body ->
      get_periodic_usage w c
      = (Raise expired_error, expired c, [periodic_request c]))
  /\ get_live_usage w' (expired c)
     = (Raise not_authenticated_error, expired c, [])
  /\ get_periodic_usage w' (expired c)
     = (Raise not_authenticated_error, expired c, [])
  /\ get_historic_usage geocommon w' period offset (expired c)
     = (Raise not_authenticated_error, expired c, []).
Proof.
  intros Hready. split; [|split].
  - intros Hreply. rewrite live_run, Hreply by assumption. reflexivity.
  - intros Hreply. rewrite periodic_run, Hreply by assumption. reflexivity.
  - pose proof (check_unauthenticated _ (expired_unauthenticated c)) as H.
    auto using live_blocked, periodic_blocked, historic_blocked.
Qed.

(** Other statuses and transport failures on the live and periodic
    calls; transport failures on the historic call. *)
Lemma failures_surface (geocommon : geocommon_module) (w : world num) c :
  ready c ->
  (forall status body,
     status <> 200 -> status <> 401 ->
     (transport w (live_request c) = Response status body ->
      get_live_usage w c
      = (Raise (status_error status), c, [live_request c]))
     /\ (transport w (periodic_request c) = Response status body ->
         get_periodic_usage w c
         = (Raise (status_error status), c, [periodic_request c])))
  /\ (forall detail,
        (transport w (live_request c) = Failure detail ->
         get_live_usage w c
         = (Raise (connectivity detail), c, [live_request c]))
        /\ (transport w (periodic_request c) = Failure detail ->
            get_periodic_usage w c
            = (Raise (connectivity detail), c, [periodic_request c]))
        /\ (forall period offset from_date to_date,
              has_range period ->
              resolve_default geocommon period (normalise offset)
              = Ok (Some from_date, Some to_date) ->
              transport w (historic_request c period from_date to_date)
              = Failure detail ->
              get_historic_usage geocommon w period offset c
              = (Raise (connectivity detail), c,
                 [historic_request c period from_date to_date]))).
Proof.
  intros Hready. split.
  - intros status body H200 H401.
    assert ((status =? 200) = false) as E1 by (apply Z.eqb_neq, H200).
    assert ((status =? 401) = false) as E2 by (apply Z.eqb_neq, H401).
    split; intros Hreply.
    + rewrite live_run, Hreply, E1, E2 by assumption. reflexivity.
    + rewrite periodic_run, Hreply, E1, E2 by assumption. reflexivity.
  - intros detail. split; [|split].
    + intros Hreply. rewrite live_run, Hreply by assumption. reflexivity.
    + intros Hreply. rewrite periodic_run, Hreply by assumption. reflexivity.
    + intros period offset from_date to_date Hrange Hres Hreply.
      rewrite (historic_run geocommon w c period offset from_date to_date)
        by assumption.
      cbv zeta. rewrite Hreply. reflexivity.
Qed.

End historic_usage.

(** The aggregation on the two sub-periods of the example. *)
Lemma historic_usage_sums_witness :
  exists result,
    get_historic_usage (import_geocommon sample_day)
      (replying 200 two_sub_periods) DAY 0 sample_client
    = (Ok result, sample_client, [sample_historic_request])
    /\ List.NoDup (map eu_type result)
    /\ (forall energy_type,
          usage_of energy_type result
          = aggregate DAY energy_type (commodity_totals two_sub_periods))
    /\ Forall (fun e => eu_energy_amount e <> None /\ eu_energy_cost e <> None)
         result.
Proof.
  apply (historic_usage_sums (import_geocommon sample_day)
           (replying 200 two_sub_periods) sample_client DAY 0
           sample_day sample_day two_sub_periods).
  - exact sample_client_ready.
  - split; discriminate.
  - vm_compute. reflexivity.
  - reflexivity.
  - repeat constructor; eexists; vm_compute; reflexivity.
Defined.

(** C1 as stated fails on its own example: two sub-periods reporting 3 kWh
    and 2 kWh of electricity, no cost in either, aggregate to the amount 5
    and the cost 0, not to an absent cost. *)
Lemma historic_absent_cost_is_zero :
  Forall (fun u => costPence u = None) (commodity_totals two_sub_periods)
  /\ fst (fst (get_historic_usage (import_geocommon sample_day)
                 (replying 200 two_sub_periods) DAY 0 sample_client))
     = Ok [mkGeoEnergyUsage DAY ELECTRICITY (Some 5) (Some 0)]
  /\ eu_energy_cost (mkGeoEnergyUsage DAY ELECTRICITY (Some 5) (Some 0))
     <> None.
Proof.
  split; [repeat constructor|]. split; [vm_compute; reflexivity|discriminate].
Qed.

(** C2 at [get_historic_usage]: a ready client whose historic request is
    answered with status 401 gets the empty list back, no exception is
    raised, and the token is still held afterwards. *)
Lemma historic_keeps_token_on_401 :
  ready sample_client
  /\ get_historic_usage (import_geocommon sample_day)
       (replying 401 empty_payload) DAY 0 sample_client
     = (Ok [], sample_client, [sample_historic_request])
  /\ headers sample_client !! "Authorization" = Some "Bearer token".
Proof.
  split; [exact sample_client_ready|]. split; [|vm_compute; reflexivity].
  apply (historic_ignores_status (import_geocommon sample_day)
           (replying 401 empty_payload) sample_client DAY 0 sample_day
           sample_day 401 empty_payload).
  - exact sample_client_ready.
  - split; discriminate.
  - vm_compute. reflexivity.
  - reflexivity.
  - discriminate.
Qed.

(** C3 at [get_historic_usage]: a ready client whose historic request is
    answered with status 500 gets the empty list back, where
    [get_live_usage] raises the error carrying the status. *)
Lemma historic_swallows_status_500 :
  ready sample_client
  /\ get_historic_usage (import_geocommon sample_day)
       (replying 500 empty_payload) DAY 0 sample_client
     = (Ok [], sample_client, [sample_historic_request])
  /\ get_live_usage (replying 500 empty_payload) sample_client
     = (Raise (status_error 500), sample_client, [live_request sample_client]).
Proof.
  split; [exact sample_client_ready|]. split.
  - apply (historic_ignores_status (import_geocommon sample_day)
             (replying 500 empty_payload) sample_client DAY 0 sample_day
             sample_day 500 empty_payload).
    + exact sample_client_ready.
    + split; discriminate.
    + vm_compute. reflexivity.
    + reflexivity.
    + discriminate.
  - rewrite live_run by exact sample_client_ready. reflexivity.
Qed.

(** Imported on 2024-03-06: the call for the day before asks for 2024-03-05
    on 2024-03-07 and in 2031 alike. *)
Lemma historic_range_fixed_at_import_witness :
  snd (get_historic_usage (import_geocommon sample_day)
         (mkworld (mkdate 2024 3 7) (fun _ => Response 200 two_sub_periods))
         DAY 1 sample_client)
  = snd (get_historic_usage (import_geocommon sample_day)
           (mkworld (mkdate 2031 1 1) (fun _ => Failure "unreachable"))
           DAY 1 sample_client)
  /\ snd (get_historic_usage (import_geocommon sample_day)
            (mkworld (mkdate 2024 3 7) (fun _ => Response 200 two_sub_periods))
            DAY 1 sample_client)
     = [historic_request sample_client DAY (mkdate 2024 3 5) (mkdate 2024 3 5)].
Proof.
  destruct (historic_range_fixed_at_import sample_day
              (mkworld (mkdate 2024 3 7) (fun _ => Response 200 two_sub_periods))
              (mkworld (mkdate 2031 1 1) (fun _ => Failure "unreachable"))
              sample_client DAY 1) as [Hsame Hbounds].
  split; [exact Hsame|].
  apply Hbounds; [exact sample_client_ready|vm_compute; reflexivity].
Defined.

(** [UNBILLED] on a ready client, with the server unreachable. *)
Lemma historic_rejects_open_periods_witness :
  exists e,
    get_historic_usage (import_geocommon sample_day) offline UNBILLED 0
      sample_client
    = (Raise e, sample_client, [])
    /\ isinstance_GeoTogetherError e = true
    /\ (authenticated sample_client ->
        truthy (_system_id sample_client) = true ->
        e = no_range_error UNBILLED).
Proof.
  apply (historic_rejects_open_periods (import_geocommon sample_day) offline
           UNBILLED 0 sample_client).
  left. reflexivity.
Defined.

(** A client fresh from the constructor, and one with a token and no system. *)
Lemma preconditions_gate_witness :
  (get_live_usage offline (new_client "user" "secret")
   = (Raise not_authenticated_error, new_client "user" "secret", [])
   /\ get_periodic_usage offline (new_client "user" "secret")
      = (Raise not_authenticated_error, new_client "user" "secret", [])
   /\ get_historic_usage (import_geocommon sample_day) offline DAY 0
        (new_client "user" "secret")
      = (Raise not_authenticated_error, new_client "user" "secret", []))
  /\ (get_live_usage offline (with_system sample_client PyNone)
      = (Raise no_system_error, with_system sample_client PyNone, [])
      /\ get_periodic_usage offline (with_system sample_client PyNone)
         = (Raise no_system_error, with_system sample_client PyNone, [])
      /\ get_historic_usage (import_geocommon sample_day) offline DAY 0
           (with_system sample_client PyNone)
         = (Raise no_system_error, with_system sample_client PyNone, [])).
Proof.
  split.
  - apply (preconditions_gate (import_geocommon sample_day) offline DAY 0
             (new_client "user" "secret")).
    vm_compute. reflexivity.
  - apply (preconditions_gate (import_geocommon sample_day) offline DAY 0
             (with_system sample_client PyNone)).
    + eexists. vm_compute. reflexivity.
    + reflexivity.
Defined.


Example periodic_total_and_bill_sample :
  fst (fst (get_periodic_usage (replying 200 total_and_bill) sample_client))
  = Ok [mkGeoPeriodicEnergyUsage ELECTRICITY
          [mkGeoEnergyUsage FOREVER ELECTRICITY (Some 100) None;
           mkGeoEnergyUsage UNBILLED ELECTRICITY None (Some 250)]].
Proof. vm_compute. reflexivity. Qed.


(** C6 at a client that has resolved a system before: asked for a name
    that no listed system has, [resolve_system] returns the identifier the
    client still holds, a truthy value, where the claim has it return a
    falsy one; on a transport failure the same call returns [False]. *)
Lemma resolve_system_returns_stale_id :
  _system_id sample_client = PyStr "A"
  /\ selected (Some "Garage") (offered 200 home_and_away) = None
  /\ resolve_system (replying 200 home_and_away) (Some "Garage") sample_client
     = (Ok (PyStr "A"), sample_client, [systems_request sample_client])
  /\ truthy (PyStr "A") = true
  /\ resolve_system offline (Some "Garage") sample_client
     = (Ok (PyBool false), sample_client, [systems_request sample_client]).
Proof. repeat split; vm_compute; reflexivity. Qed.

(** The two-system payload of the specification: by name, without a name,
    off line, and with a name nothing matches. *)
Lemma resolve_system_run_witness :
  resolve_system (replying 200 home_and_away) (Some "Home")
    (new_client "user" "secret")
  = (Ok (PyStr "A"), with_system (new_client "user" "secret") (PyStr "A"),
     [systems_request (new_client "user" "secret")])
  /\ resolve_system (replying 200 home_and_away) None
       (new_client "user" "secret")
     = (Ok (PyStr "A"), with_system (new_client "user" "secret") (PyStr "A"),
        [systems_request (new_client "user" "secret")])
  /\ resolve_system offline (Some "Home") (new_client "user" "secret")
     = (Ok (PyBool false), new_client "user" "secret",
        [systems_request (new_client "user" "secret")])
  /\ exists v,
       resolve_system (replying 200 home_and_away) (Some "Garage")
         (new_client "user" "secret")
       = (Ok v, new_client "user" "secret",
          [systems_request (new_client "user" "secret")])
       /\ truthy v = false.
Proof.
  split; [|split; [|split]].
  - exact (resolve_system_run (replying 200 home_and_away) (Some "Home")
             (new_client "user" "secret")).
  - exact (resolve_system_run (replying 200 home_and_away) None
             (new_client "user" "secret")).
  - exact (resolve_system_run offline (Some "Home")
             (new_client "user" "secret")).
  - exact (proj2 (resolve_system_run (replying 200 home_and_away)
                    (Some "Garage") (new_client "user" "secret")) eq_refl).
Defined.

(** * More on [GeoTimePeriod.resolve] *)

Lemma add_months_succ y m offset :
  add_months y m (offset + 1)
  = let '(y', m') := add_months y m offset in next_month y' m'.
Proof.
  unfold add_months, next_month.
  set (months := y * 12 + (m - 1) + offset).
  replace (y * 12 + (m - 1) + (offset + 1)) with (months + 1) by (unfold months; lia).
  pose proof (Z.div_mod months 12 ltac:(lia)) as E.
  pose proof (Z.mod_pos_bound months 12 ltac:(lia)) as B.
  destruct (Z.eqb_spec (months mod 12 + 1) 12) as [H12|H12].
  - assert ((months + 1) / 12 = months / 12 + 1) as ->
      by (symmetry; apply (Z.div_unique _ _ _ 0); lia).
    assert ((months + 1) mod 12 = 0) as ->
      by (symmetry; apply (Z.mod_unique _ _ (months / 12 + 1)); lia).
    reflexivity.
  - assert ((months + 1) / 12 = months / 12) as ->
      by (symmetry; apply (Z.div_unique _ _ _ (months mod 12 + 1)); lia).
    assert ((months + 1) mod 12 = months mod 12 + 1) as ->
      by (symmetry; apply (Z.mod_unique _ _ (months / 12)); lia).
    reflexivity.
Qed.

Lemma add_months_month y m offset :
  1 <= snd (add_months y m offset) <= 12.
Proof.
  unfold add_months. cbn [snd].
  pose proof (Z.mod_pos_bound (y * 12 + (m - 1) + offset) 12 ltac:(lia)).
  lia.
Qed.

Lemma week_start_shift offset ref :
  week_start offset ref = week_start 0 ref + 7 * offset.
Proof. unfold week_start. lia. Qed.

(** A date between the first and the last day of a month is a date of that
    month. *)
Lemma date_leb_same_month y m last other :
  date_leb (mkdate y m 1) other = true ->
  date_leb other (mkdate y m last) = true ->
  year other = y /\ month other = m.
Proof.
  unfold date_leb. cbn [year month day].
  rewrite !orb_true_iff, !andb_true_iff, !orb_true_iff, !andb_true_iff.
  rewrite !Z.ltb_lt, !Z.eqb_eq, !Z.leb_le. lia.
Qed.

(** The day range: one day, [offset] days from the reference date. *)
Theorem resolve_day_is_one_day (offset : Z) (ref : date) :
  valid_date ref ->
  (if ordinal_ok (toordinal ref + offset)
   then exists d,
          resolve DAY offset ref = Ok (Some d, Some d)
          /\ valid_date d
          /\ toordinal d = toordinal ref + offset
   else resolve DAY offset ref = Raise OverflowError)
  /\ resolve DAY 0 ref = Ok (Some ref, Some ref).
Proof.
  intros Hv. split.
  - rewrite resolve_DAY by assumption.
    destruct (ordinal_ok (toordinal ref + offset)) eqn:Hok; [|reflexivity].
    eexists. split; [reflexivity|]. split.
    + apply fromordinal_valid, ordinal_ok_spec, Hok.
    + apply toordinal_fromordinal.
  - rewrite resolve_DAY by assumption.
    pose proof (toordinal_range ref Hv) as Hr.
    replace (toordinal ref + 0) with (toordinal ref) by lia.
    assert (ordinal_ok (toordinal ref) = true) as ->
      by (apply ordinal_ok_spec; assumption).
    rewrite fromordinal_toordinal by (apply valid_date_fields_ok, Hv).
    reflexivity.
Qed.

Lemma resolve_day_is_one_day_witness :
  (exists d,
     resolve DAY (-1) (mkdate 2024 3 1) = Ok (Some d, Some d)
     /\ valid_date d
     /\ toordinal d = toordinal (mkdate 2024 3 1) + -1)
  /\ resolve DAY 0 (mkdate 2024 3 1)
     = Ok (Some (mkdate 2024 3 1), Some (mkdate 2024 3 1)).
Proof.
  exact (resolve_day_is_one_day (-1) (mkdate 2024 3 1) eq_refl).
Defined.

(** Successive offsets tile the calendar: the range of [offset + 1] starts
    on the day after the range of [offset] ends. *)
Theorem resolve_ranges_adjacent (period : GeoTimePeriod) (offset : Z)
    (ref from_date to_date from_next to_next : date) :
  valid_date ref ->
  resolve period offset ref = Ok (Some from_date, Some to_date) ->
  resolve period (offset + 1) ref = Ok (Some from_next, Some to_next) ->
  toordinal from_next = toordinal to_date + 1.
Proof.
  intros Hv. destruct period; try discriminate.
  - rewrite !resolve_DAY by assumption.
    destruct (ordinal_ok (toordinal ref + offset)); [|discriminate].
    destruct (ordinal_ok (toordinal ref + (offset + 1))); [|discriminate].
    intros [= <- <-] [= <- <-]. rewrite !toordinal_fromordinal. lia.
  - rewrite !resolve_WEEK by assumption.
    destruct (ordinal_ok (week_start offset ref) && _); [|discriminate].
    destruct (ordinal_ok (week_start (offset + 1) ref) && _); [|discriminate].
    intros [= <- <-] [= <- <-]. rewrite !toordinal_fromordinal.
    rewrite (week_start_shift offset), (week_start_shift (offset + 1)). lia.
  - rewrite !resolve_MONTH by assumption. rewrite add_months_succ.
    pose proof (add_months_month (year ref) (month ref) offset) as Hm.
    destruct (add_months (year ref) (month ref) offset) as [y m].
    cbn [snd] in Hm. pose proof (ymd2ord_month_end y m Hm) as Hend.
    destruct (next_month y m) as [y' m'].
    destruct (month_ok y m); [|discriminate].
    destruct (month_ok y' m'); [|discriminate].
    intros [= <- <-] [= <- <-]. unfold toordinal. cbn [year month day]. lia.
Qed.

Lemma resolve_ranges_adjacent_witness :
  toordinal (mkdate 2024 3 1) = toordinal (mkdate 2024 2 29) + 1.
Proof.
  apply (resolve_ranges_adjacent MONTH (-1) (mkdate 2024 3 6)
           (mkdate 2024 2 1) (mkdate 2024 2 29)
           (mkdate 2024 3 1) (mkdate 2024 3 31)).
  - reflexivity.
  - vm_compute. reflexivity.
  - vm_compute. reflexivity.
Defined.

(** The range does not depend on which day of the current period the
    reference date is: resolving from any day of the range of offset 0
    gives, for every offset, what the reference date itself gives. *)
Theorem resolve_from_any_day_of_period (period : GeoTimePeriod) (offset : Z)
    (ref other from_date to_date : date) :
  valid_date ref -> valid_date other ->
  resolve period 0 ref = Ok (Some from_date, Some to_date) ->
  date_leb from_date other = true -> date_leb other to_date = true ->
  resolve period offset other = resolve period offset ref.
Proof.
  intros Hv Hvo.
  pose proof (valid_date_fields_ok _ Hv) as Hf.
  pose proof (valid_date_fields_ok _ Hvo) as Hfo.
  destruct period; try discriminate.
  - rewrite resolve_DAY by assumption.
    destruct (ordinal_ok (toordinal ref + 0)); [|discriminate].
    intros [= <- <-].
    rewrite !date_leb_toordinal by (assumption || apply fromordinal_fields_ok).
    rewrite toordinal_fromordinal, !Z.leb_le. intros H1 H2.
    assert (other = ref) as -> by (apply toordinal_inj; [assumption..|lia]).
    reflexivity.
  - rewrite (resolve_WEEK 0) by assumption.
    destruct (ordinal_ok (week_start 0 ref) && _); [|discriminate].
    intros [= <- <-].
    rewrite !date_leb_toordinal by (assumption || apply fromordinal_fields_ok).
    rewrite !toordinal_fromordinal, !Z.leb_le. intros H1 H2.
    rewrite !resolve_WEEK by assumption.
    assert (week_start offset other = week_start offset ref) as ->;
      [|reflexivity].
    rewrite (week_start_shift offset other), (week_start_shift offset ref).
    f_equal.
    pose proof (week_start_monday 0 ref) as Hmon.
    pose proof (Z.div_mod (week_start 0 ref + 6) 7 ltac:(lia)) as E.
    rewrite Hmon in E.
    unfold week_start at 1, weekday.
    assert ((toordinal other + 6) mod 7 = toordinal other - week_start 0 ref)
      as ->; [|lia].
    symmetry. apply (Z.mod_unique _ _ ((week_start 0 ref + 6) / 7)); lia.
  - rewrite (resolve_MONTH 0) by assumption.
    rewrite add_months_same by apply Hf.
    destruct (month_ok (year ref) (month ref)); [|discriminate].
    intros [= <- <-] H1 H2.
    destruct (date_leb_same_month _ _ _ _ H1 H2) as [Hy Hm].
    rewrite !resolve_MONTH by assumption. rewrite Hy, Hm. reflexivity.
Qed.

Lemma resolve_from_any_day_of_period_witness :
  resolve WEEK (-3) (mkdate 2024 3 10) = resolve WEEK (-3) (mkdate 2024 3 6).
Proof.
  apply (resolve_from_any_day_of_period WEEK (-3) (mkdate 2024 3 6)
           (mkdate 2024 3 10) (mkdate 2024 3 4) (mkdate 2024 3 10)).
  - reflexivity.
  - reflexivity.
  - vm_compute. reflexivity.
  - reflexivity.
  - reflexivity.
Defined.

(** What [resolve] can come back with: two dates, or no date at all, or
    an error of the date arithmetic.  The error is [OverflowError] for
    [DAY] and [WEEK]; for [MONTH] it is [ValueError] when the year of the
    month asked for fits a C [int], and [OverflowError] when it does not. *)
Theorem resolve_outcomes (period : GeoTimePeriod) (offset : Z) (ref : date) :
  valid_date ref ->
  match resolve period offset ref with
  | Ok (Some from_date, Some to_date) =>
      has_range period /\ valid_date from_date /\ valid_date to_date
  | Ok (None, None) => period = UNBILLED \/ period = FOREVER
  | Ok _ => False
  | Raise e =>
      ((period = DAY \/ period = WEEK) /\ e = OverflowError)
      \/ (period = MONTH
          /\ e = if fits_int (fst (add_months (year ref) (month ref) offset))
                 then ValueError else OverflowError)
  end.
Proof.
  intros Hv. destruct period.
  - rewrite resolve_DAY by assumption.
    destruct (ordinal_ok (toordinal ref + offset)) eqn:Hok; [|auto].
    apply ordinal_ok_spec in Hok.
    split; [split; discriminate|]. split; apply fromordinal_valid, Hok.
  - rewrite resolve_WEEK by assumption.
    destruct (ordinal_ok (week_start offset ref)) eqn:H1;
      destruct (ordinal_ok (week_start offset ref + 6)) eqn:H2;
      cbn [andb]; auto.
    apply ordinal_ok_spec in H1, H2.
    split; [split; discriminate|]. split; apply fromordinal_valid; assumption.
  - rewrite resolve_MONTH by assumption.
    pose proof (add_months_month (year ref) (month ref) offset) as Hm.
    destruct (add_months (year ref) (month ref) offset) as [y m].
    cbn [fst snd] in *.
    destruct (month_ok y m) eqn:Hok; [|right; split; reflexivity].
    split; [split; discriminate|].
    pose proof (days_in_month_bounds y m Hm) as Hd.
    unfold month_ok in Hok. rewrite !andb_true_iff, !Z.leb_le in Hok.
    split; apply valid_date_iff; unfold fields_ok; cbn [year month day]; lia.
  - cbn. auto.
  - cbn. auto.
Qed.

(** A week that resolves, a day and a month beyond year 9999, and a month
    whose year does not fit a C [int]. *)
Lemma resolve_outcomes_witness :
  (has_range WEEK /\ valid_date (mkdate 2024 3 4)
   /\ valid_date (mkdate 2024 3 10))
  /\ (((DAY = DAY \/ DAY = WEEK) /\ OverflowError = OverflowError)
      \/ (DAY = MONTH
          /\ OverflowError
             = if fits_int (fst (add_months 2024 3 2915000))
               then ValueError else OverflowError))
  /\ (((MONTH = DAY \/ MONTH = WEEK) /\ ValueError = OverflowError)
      \/ (MONTH = MONTH
          /\ ValueError
             = if fits_int (fst (add_months 2024 3 96000))
               then ValueError else OverflowError))
  /\ (((MONTH = DAY \/ MONTH = WEEK) /\ OverflowError = OverflowError)
      \/ (MONTH = MONTH
          /\ OverflowError
             = if fits_int (fst (add_months 2024 3 25769803776))
               then ValueError else OverflowError)).
Proof.
  split; [|split; [|split]].
  - exact (resolve_outcomes WEEK 0 (mkdate 2024 3 6) eq_refl).
  - exact (resolve_outcomes DAY 2915000 (mkdate 2024 3 6) eq_refl).
  - exact (resolve_outcomes MONTH 96000 (mkdate 2024 3 6) eq_refl).
  - exact (resolve_outcomes MONTH 25769803776 (mkdate 2024 3 6) eq_refl).
Defined.

(** * Logging in, and what a call may do to the session *)

Section login.
Context {num : Type} `{!Number num}.
Implicit Types (w : world num) (c : GeoTogetherClient).

Lemma authenticate_run w c :
  authenticate w c
  = match transport w (login_request c) with
    | Response status body =>
        match accessToken body with
        | Some token =>
            if status =? 200
            then (Ok true, with_token c token, [login_request c])
            else (Ok false, c, [login_request c])
        | None => (Ok false, c, [login_request c])
        end
    | Failure _ => (Ok false, c, [login_request c])
    end.
Proof.
  unfold authenticate, try_except_ClientError, bind, self, send, ret.
  fold (login_request c).
  destruct (transport w (login_request c)) as [status body|detail];
    [|reflexivity].
  destruct (status =? 200); destruct (accessToken body); reflexivity.
Qed.

Lemma with_token_authenticated c token : authenticated (with_token c token).
Proof.
  unfold authenticated, with_token. cbn [headers].
  rewrite lookup_insert_eq. eauto.
Qed.

(** On a reply whose body is a JSON object, and on a [ClientError] of the
    transport, [authenticate] raises nothing and posts the credentials once.
    It answers [True] exactly when the reply is a 200 carrying an
    [accessToken], which is then held as the bearer token; on [False] the
    client is as it was, a token held from before included.  The system
    identifier is never touched. *)
Theorem authenticate_outcome w c :
  exists ok c',
    authenticate w c = (Ok ok, c', [login_request c])
    /\ _system_id c' = _system_id c
    /\ (ok = true <->
        exists body token,
          transport w (login_request c) = Response 200 body
          /\ accessToken body = Some token)
    /\ (forall body token,
          transport w (login_request c) = Response 200 body ->
          accessToken body = Some token ->
          c' = with_token c token
          /\ headers c' !! "Authorization" = Some ("Bearer " +:+ token))
    /\ (ok = false -> c' = c).
Proof.
  rewrite authenticate_run.
  destruct (transport w (login_request c)) as [status body|detail] eqn:Hreply.
  - destruct (accessToken body) as [token|] eqn:Htok.
    + destruct (Z.eqb_spec status 200) as [->|Hne].
      * exists true, (with_token c token). split; [reflexivity|].
        split; [reflexivity|]. split; [split; eauto|].
        split; [|discriminate].
        intros body' token' [= <-] Htok'. rewrite Htok in Htok'.
        injection Htok' as <-. split; [reflexivity|].
        unfold with_token. cbn [headers]. apply lookup_insert_eq.
      * exists false, c. split; [reflexivity|]. split; [reflexivity|].
        split; [split; [discriminate|intros (b & t & [= E _] & _); congruence]|].
        split; [intros b t [= E _]; congruence|reflexivity].
    + exists false, c. split; [reflexivity|]. split; [reflexivity|].
      split; [split; [discriminate|]|].
      * intros (b & t & [= _ <-] & Ht). congruence.
      * split; [|reflexivity]. intros b t [= _ <-] Ht. congruence.
  - exists false, c. split; [reflexivity|]. split; [reflexivity|].
    split; [split; [discriminate|intros (b & t & E & _); discriminate]|].
    split; [intros b t E; discriminate|reflexivity].
Qed.

Lemma resolve_system_cases w name c :
  resolve_system w name c
  = match transport w (systems_request c) with
    | Failure _ => (Ok (PyBool false), c, [systems_request c])
    | Response status body =>
        match selected name (offered status body) with
        | Some system_id =>
            (Ok (PyStr system_id), with_system c (PyStr system_id),
             [systems_request c])
        | None => (Ok (_system_id c), c, [systems_request c])
        end
    end.
Proof.
  unfold resolve_system, try_except_ClientError, bind, self, send, ret.
  fold (get_request c "api/userapi/v2/user/detail-systems?systemDetails=true").
  fold (systems_request c).
  destruct (transport w (systems_request c)) as [status body|detail];
    [|reflexivity].
  unfold offered. destruct (status =? 200); [|reflexivity].
  destruct (systemDetails body) as [systems|]; [|reflexivity].
  change (default [] (Some systems)) with systems.
  rewrite resolve_system_loop_run.
  destruct (selected name systems); reflexivity.
Qed.

(** A truthy answer of [resolve_system] is the identifier the client now
    holds, and the headers are as they were. *)
Lemma resolve_system_truthy w name c v c' issued :
  resolve_system w name c = (Ok v, c', issued) ->
  truthy v = true ->
  _system_id c' = v /\ headers c' = headers c.
Proof.
  rewrite resolve_system_cases.
  destruct (transport w (systems_request c)) as [status body|detail].
  - destruct (selected name (offered status body)).
    + intros [= <- <- _] _. split; reflexivity.
    + intros [= <- <- _] _. split; reflexivity.
  - intros [= <- _ _]. discriminate.
Qed.

(** The log-in sequence of a caller: once [authenticate] has answered
    [True] and [resolve_system] something truthy, the client passes the
    prerequisites, and each data operation sends its request. *)
Theorem login_makes_ready w1 w2 w3 c c1 c2 (name : option string) (v : pyvalue) (issued1 issued2 : list request) :
  authenticate w1 c = (Ok true, c1, issued1) ->
  resolve_system w2 name c1 = (Ok v, c2, issued2) ->
  truthy v = true ->
  ready c2
  /\ _system_id c2 = v
  /\ snd (get_live_usage w3 c2) = [live_request c2]
  /\ snd (get_periodic_usage w3 c2) = [periodic_request c2].
Proof.
  intros Hauth Hres Hv.
  destruct (resolve_system_truthy _ _ _ _ _ _ Hres Hv) as [Hid Hh].
  assert (authenticated c1) as Ha.
  { rewrite authenticate_run in Hauth.
    destruct (transport w1 (login_request c)) as [status body|detail];
      [|discriminate].
    destruct (accessToken body) as [token|]; [|discriminate].
    destruct (status =? 200); [|discriminate].
    injection Hauth as <- _. apply with_token_authenticated. }
  assert (ready c2) as Hready.
  { split; [unfold authenticated; rewrite Hh; exact Ha|congruence]. }
  split; [exact Hready|]. split; [exact Hid|].
  rewrite live_run, periodic_run by assumption.
  split.
  - destruct (transport w3 (live_request c2)) as [status body|detail];
      [|reflexivity].
    destruct (status =? 200); [reflexivity|].
    destruct (status =? 401); reflexivity.
  - destruct (transport w3 (periodic_request c2)) as [status body|detail];
      [|reflexivity].
    destruct (status =? 200);
      [destruct (periodic_sections body); reflexivity|].
    destruct (status =? 401); reflexivity.
Qed.

(** After an expired session, logging in again is enough: the system
    identifier resolved before is still held. *)
Theorem login_again_after_expiry w c c' (issued : list request) :
  ready c ->
  authenticate w (expired c) = (Ok true, c', issued) ->
  ready c' /\ _system_id c' = _system_id c.
Proof.
  intros [_ Hs]. rewrite authenticate_run.
  destruct (transport w (login_request (expired c))) as [status body|detail];
    [|discriminate].
  destruct (accessToken body) as [token|]; [|discriminate].
  destruct (status =? 200); [|discriminate].
  intros [= <- _].
  split; [split; [apply with_token_authenticated|exact Hs]|reflexivity].
Qed.

(** [resolve_system] with an empty name is [resolve_system] without a
    name. *)
Theorem resolve_system_empty_name w c :
  resolve_system w (Some "") c = resolve_system w None c.
Proof.
  rewrite !resolve_system_cases.
  destruct (transport w (systems_request c)) as [status body|detail];
    [|reflexivity].
  assert (forall systems : list system_detail,
            selected (Some "") systems = selected None systems) as ->;
    [|reflexivity].
  intros systems. unfold selected.
  assert (forall system, eligible (Some "") system = eligible None system)
    as Hsame.
  { intros system. unfold eligible.
    destruct (sd_systemId system), (sd_name system); reflexivity. }
  induction systems as [|system rest IH]; [reflexivity|].
  cbn [List.find]. rewrite Hsame.
  destruct (eligible None system); [reflexivity|exact IH].
Qed.

(** The sign of the offset is ignored: [get_historic_usage] looks the same
    number of periods back for [offset] and for [- offset]. *)
Theorem historic_offset_sign (geocommon : geocommon_module) w
    (period : GeoTimePeriod) (offset : Z) c :
  get_historic_usage geocommon w period (- offset) c
  = get_historic_usage geocommon w period offset c.
Proof.
  assert ((if 0 <? - offset then - offset * -1 else - offset)
          = (if 0 <? offset then offset * -1 else offset)) as E.
  { destruct (Z.ltb_spec 0 (- offset)), (Z.ltb_spec 0 offset); lia. }
  unfold get_historic_usage. rewrite E. reflexivity.
Qed.

(** What a data operation may do to the session: it sends at most one
    request, a GET carrying the headers the session held, and it leaves the
    client as it was, or as it was less its token.  [get_historic_usage]
    never changes the client. *)
Theorem data_calls_frame (geocommon : geocommon_module) w
    (period : GeoTimePeriod) (offset : Z) c :
  let sent (issued : list request) :=
    (length issued <= 1)%nat
    /\ Forall (fun r => req_method r = "GET" /\ req_headers r = headers c)
         issued in
  (let '(_, c', issued) := get_live_usage w c in
   (c' = c \/ c' = expired c) /\ sent issued)
  /\ (let '(_, c', issued) := get_periodic_usage w c in
      (c' = c \/ c' = expired c) /\ sent issued)
  /\ (let '(_, c', issued) := get_historic_usage geocommon w period offset c in
      c' = c /\ sent issued).
Proof.
  cbv zeta.
  destruct (headers c !! "Authorization") as [token|] eqn:Hh.
  2:{ pose proof (check_unauthenticated c Hh) as H.
      rewrite (live_blocked w c _ H), (periodic_blocked w c _ H),
        (historic_blocked geocommon w period offset c _ H).
      repeat split; auto; cbn; lia. }
  assert (authenticated c) as Ha by (unfold authenticated; eauto).
  destruct (truthy (_system_id c)) eqn:Hs.
  2:{ pose proof (check_unresolved c Ha Hs) as H.
      rewrite (live_blocked w c _ H), (periodic_blocked w c _ H),
        (historic_blocked geocommon w period offset c _ H).
      repeat split; auto; cbn; lia. }
  assert (ready c) as Hready by (split; assumption).
  assert (forall uri, (length [get_request c uri] <= 1)%nat
            /\ Forall (fun r => req_method r = "GET"
                                /\ req_headers r = headers c)
                 [get_request c uri]) as Hone.
  { intros uri. split; [cbn; lia|]. repeat constructor. }
  split; [|split].
  - rewrite live_run by assumption.
    destruct (transport w (live_request c)) as [status body|detail];
      [|split; [auto|apply Hone]].
    destruct (status =? 200); [split; [auto|apply Hone]|].
    destruct (status =? 401); (split; [auto|apply Hone]).
  - rewrite periodic_run by assumption.
    destruct (transport w (periodic_request c)) as [status body|detail];
      [|split; [auto|apply Hone]].
    destruct (status =? 200);
      [destruct (periodic_sections body); (split; [auto|apply Hone])|].
    destruct (status =? 401); (split; [auto|apply Hone]).
  - destruct (decide (has_range period)) as [Hrange|Hopen].
    + destruct (resolve_default geocommon period (normalise offset))
        as [[from_date to_date]|e] eqn:Hres.
      * pose proof (resolve_shape _ _ _ _ Hres) as Hshape.
        assert (exists f t, (from_date, to_date) = (Some f, Some t))
          as (f & t & [= -> ->]).
        { destruct Hrange as [H1 H2]. destruct period; auto; congruence. }
        rewrite (historic_run geocommon w c period offset f t) by assumption.
        cbv zeta.
        destruct (transport w (historic_request c period f t))
          as [status body|detail]; [|split; [auto|apply Hone]].
        destruct (status =? 200); [|split; [auto|apply Hone]].
        destruct (historic_totals period body); (split; [auto|apply Hone]).
      * rewrite (historic_resolve_fails geocommon w c period offset e)
          by assumption.
        repeat split; auto; cbn; lia.
    + assert (period = UNBILLED \/ period = FOREVER) as Hp.
      { unfold has_range in Hopen. destruct period; auto;
          exfalso; apply Hopen; split; discriminate. }
      rewrite historic_open_period by (assumption || apply Hready).
      repeat split; auto; cbn; lia.
Qed.

(** A range [resolve] cannot give stops [get_historic_usage] before any
    request, and the date error reaches the caller as it is. *)
Theorem historic_range_error_escapes (boot : date) w
    (period : GeoTimePeriod) (offset : Z) c :
  ready c -> has_range period -> valid_date boot ->
  resolvable period (normalise offset) boot = false ->
  exists e,
    get_historic_usage (import_geocommon boot) w period offset c
    = (Raise e, c, [])
    /\ (e = ValueError \/ e = OverflowError)
    /\ isinstance_GeoTogetherError e = false.
Proof.
  intros Hready Hrange Hv Hr.
  destruct (resolve_not_resolvable period (normalise offset) boot Hv Hr)
    as [Hnone|[e He]].
  - exfalso. pose proof (resolve_shape _ _ _ _ Hnone) as Hshape.
    destruct Hrange as [H1 H2].
    destruct period; try congruence; destruct Hshape as (f & t & [=]).
  - exists e. split.
    + apply historic_resolve_fails; assumption.
    + pose proof (resolve_error _ _ _ _ He) as Hd.
      destruct e; try discriminate Hd; auto.
Qed.
End login.

(** * Usage grouped by energy type *)

Section grouping.
Context {num : Type} `{!Number num}.
Implicit Types (acc : list (GeoEnergyType * GeoPeriodicEnergyUsage num))
  (u : GeoEnergyUsage num) (q : GeoPeriodicEnergyUsage num).

Lemma get_usage_in_app (l1 l2 : list (GeoEnergyUsage num)) period :
  get_usage_in (l1 ++ l2)%list period
  = match get_usage_in l1 period with
    | Some u => Some u
    | None => get_usage_in l2 period
    end.
Proof.
  induction l1 as [|u l1 IH]; cbn [get_usage_in app]; [reflexivity|].
  destruct (decide (eu_period u = period)); [reflexivity|exact IH].
Qed.

(** [get_usage] finds the first usage of the period asked for, and nothing
    when there is none. *)
Theorem get_usage_first q (period : GeoTimePeriod) :
  match get_usage q period with
  | Some u =>
      eu_period u = period
      /\ exists before after,
           peu_usage q = (before ++ u :: after)%list
           /\ Forall (fun v => eu_period v <> period) before
  | None => Forall (fun v => eu_period v <> period) (peu_usage q)
  end.
Proof.
  unfold get_usage. induction (peu_usage q) as [|v l IH];
    cbn [get_usage_in]; [constructor|].
  destruct (decide (eu_period v = period)) as [Hv|Hv].
  - split; [exact Hv|]. exists [], l. split; [reflexivity|constructor].
  - destruct (get_usage_in l period) as [u|].
    + destruct IH as (Hu & before & after & -> & Hb). split; [exact Hu|].
      exists (v :: before), after. split; [reflexivity|].
      constructor; assumption.
    + constructor; assumption.
Qed.

(** Adding to a [GeoPeriodicEnergyUsage] never replaces what [get_usage]
    already finds: the usages added are consulted only for a period that
    had none. *)
Theorem get_usage_after_add q (other : addend num) (period : GeoTimePeriod) :
  peu_type (peu_add q other) = peu_type q
  /\ peu_usage (peu_add q other) = (peu_usage q ++ addend_usages other)%list
  /\ get_usage (peu_add q other) period
     = match get_usage q period with
       | Some u => Some u
       | None => get_usage_in (addend_usages other) period
       end.
Proof.
  unfold get_usage.
  destruct other as [u|l]; cbn [peu_add peu_type peu_usage addend_usages];
    (split; [reflexivity|split; [reflexivity|apply get_usage_in_app]]).
Qed.

Lemma accumulate_filed energy_type (other : addend num) acc other_type :
  peu_usage <$> dict_get other_type
                  (accumulate energy_type other (addend_usages other) acc)
  = if decide (other_type = energy_type)
    then Some (default [] (peu_usage <$> dict_get energy_type acc)
               ++ addend_usages other)%list
    else peu_usage <$> dict_get other_type acc.
Proof.
  unfold accumulate. destruct (decide (other_type = energy_type)) as [->|Hne].
  - destruct (dict_get energy_type acc) as [periodic|];
      rewrite dict_get_set_eq; [|reflexivity].
    destruct other; reflexivity.
  - destruct (dict_get energy_type acc);
      rewrite dict_get_set_ne by congruence; reflexivity.
Qed.

Lemma extended_app (current : option (list (GeoEnergyUsage num))) l1 l2 :
  extended (extended current l1) l2 = extended current (l1 ++ l2)%list.
Proof.
  destruct l1 as [|a l1]; [reflexivity|].
  destruct l2 as [|b l2]; cbn.
  - rewrite app_nil_r. reflexivity.
  - rewrite <- app_assoc. reflexivity.
Qed.

Lemma extended_filed (l1 l2 : list (GeoEnergyUsage num)) :
  extended (extended None l1) l2
  = match (l1 ++ l2)%list with
    | [] => None
    | filed => Some filed
    end.
Proof.
  destruct l1 as [|a l1], l2 as [|b l2]; cbn; rewrite ?app_nil_r; reflexivity.
Qed.

Lemma total_consumption_filed entries : forall acc,
  tidy acc -> Forall consumption_ok entries ->
  exists acc',
    _parse_total_consumption entries acc = Ok acc'
    /\ tidy acc'
    /\ forall energy_type,
         peu_usage <$> dict_get energy_type acc'
         = extended (peu_usage <$> dict_get energy_type acc)
             (map (forever_usage energy_type)
                (filter (fun entry => consumption_of energy_type entry = true)
                   entries)).
Proof.
  unfold _parse_total_consumption.
  induction entries as [|entry entries IH]; intros acc Hacc Hall.
  - exists acc. split; [reflexivity|]. split; [assumption|]. reflexivity.
  - inversion Hall as [|? ? [[t Ht] [a Ha]] Hrest]; subst.
    cbn [for_each]. pose proof Ht as Hnamed. unfold energy_type_named in Ht.
    destruct (tc_commodityType entry) as [key|] eqn:Hkey; [|discriminate].
    cbn [subscript obind].
    destruct (GeoEnergyType_getitem key) as [t'|] eqn:Hitem; [|discriminate].
    injection Ht as ->. rewrite Ha. cbn [subscript obind].
    set (v := mkGeoEnergyUsage FOREVER t (Some a) None).
    destruct (IH (accumulate t (OneUsage v) [v] acc)
                (accumulate_tidy _ _ _ _ Hacc) Hrest)
      as (acc' & Hrun & Htidy & Hfiled).
    exists acc'. split; [exact Hrun|]. split; [exact Htidy|].
    intros energy_type. rewrite Hfiled.
    pose proof (accumulate_filed t (OneUsage v) acc energy_type) as Hstep.
    cbn [addend_usages] in Hstep. rewrite Hstep. clear Hstep.
    assert (consumption_of energy_type entry
            = bool_decide (Some t = Some energy_type)) as Hof
      by (unfold consumption_of; rewrite Hkey, Hnamed; reflexivity).
    rewrite filter_cons, Hof.
    destruct (decide (energy_type = t)) as [->|Hne].
    + rewrite bool_decide_true by reflexivity.
      rewrite decide_True by reflexivity. cbn [map].
      replace (forever_usage t entry) with v
        by (unfold forever_usage, v; rewrite Ha; reflexivity).
      apply (extended_app _ [v]).
    + rewrite bool_decide_false by congruence.
      rewrite decide_False by discriminate. reflexivity.
Qed.

Lemma bill_to_date_filed entries : forall acc,
  tidy acc -> Forall unbilled_ok entries ->
  exists acc',
    _parse_bill_to_date entries acc = Ok acc'
    /\ tidy acc'
    /\ forall energy_type,
         peu_usage <$> dict_get energy_type acc'
         = extended (peu_usage <$> dict_get energy_type acc)
             (map (unbilled_usage energy_type)
                (filter (fun entry => unbilled_of energy_type entry = true)
                   entries)).
Proof.
  unfold _parse_bill_to_date.
  induction entries as [|entry entries IH]; intros acc Hacc Hall.
  - exists acc. split; [reflexivity|]. split; [assumption|]. reflexivity.
  - inversion Hall as [|? ? [[t Ht] [a Ha]] Hrest]; subst.
    cbn [for_each]. pose proof Ht as Hnamed. unfold energy_type_named in Ht.
    destruct (btd_commodityType entry) as [key|] eqn:Hkey; [|discriminate].
    cbn [subscript obind].
    destruct (GeoEnergyType_getitem key) as [t'|] eqn:Hitem; [|discriminate].
    injection Ht as ->. rewrite Ha. cbn [subscript obind].
    set (v := mkGeoEnergyUsage UNBILLED t None (Some a)).
    destruct (IH (accumulate t (OneUsage v) [v] acc)
                (accumulate_tidy _ _ _ _ Hacc) Hrest)
      as (acc' & Hrun & Htidy & Hfiled).
    exists acc'. split; [exact Hrun|]. split; [exact Htidy|].
    intros energy_type. rewrite Hfiled.
    pose proof (accumulate_filed t (OneUsage v) acc energy_type) as Hstep.
    cbn [addend_usages] in Hstep. rewrite Hstep. clear Hstep.
    assert (unbilled_of energy_type entry
            = bool_decide (Some t = Some energy_type)) as Hof
      by (unfold unbilled_of; rewrite Hkey, Hnamed; reflexivity).
    rewrite filter_cons, Hof.
    destruct (decide (energy_type = t)) as [->|Hne].
    + rewrite bool_decide_true by reflexivity.
      rewrite decide_True by reflexivity. cbn [map].
      replace (unbilled_usage t entry) with v
        by (unfold unbilled_usage, v; rewrite Ha; reflexivity).
      apply (extended_app _ [v]).
    + rewrite bool_decide_false by congruence.
      rewrite decide_False by discriminate. reflexivity.
Qed.

Lemma current_costs_filed energy_type entries acc :
  tidy acc -> Forall current_cost_ok entries ->
  exists acc',
    _parse_current_costs energy_type entries acc = Ok acc'
    /\ tidy acc'
    /\ forall other_type,
         peu_usage <$> dict_get other_type acc'
         = if decide (other_type = energy_type)
           then Some (default [] (peu_usage <$> dict_get energy_type acc)
                      ++ omap (current_usage energy_type) entries)%list
           else peu_usage <$> dict_get other_type acc.
Proof.
  intros Hacc Hall. unfold _parse_current_costs.
  assert (comprehension
            (fun cc =>
               let? key := subscript "duration" (duration cc) in
               let? period := GeoTimePeriod_getitem key in
               let? amount := subscript "energyAmount" (energyAmount cc) in
               let? cost := subscript "costAmount" (costAmount cc) in
               Ok (mkGeoEnergyUsage period energy_type (Some amount)
                     (Some cost)))
            entries = Ok (omap (current_usage energy_type) entries)) as ->.
  { induction Hall as [|entry entries ([p Hp] & [a Ha] & [k Hk]) _ IH];
      [reflexivity|].
    assert (current_usage energy_type entry
            = Some (mkGeoEnergyUsage p energy_type (energyAmount entry)
                      (costAmount entry))) as Hcur
      by (unfold current_usage; rewrite Hp; reflexivity).
    cbn [comprehension omap list_omap]. rewrite Hcur.
    unfold period_named in Hp.
    destruct (duration entry) as [key|]; [|discriminate].
    cbn [subscript obind].
    destruct (GeoTimePeriod_getitem key) as [p'|]; [|discriminate].
    injection Hp as ->. rewrite Ha, Hk, IH. reflexivity. }
  cbn [obind]. eexists. split; [reflexivity|].
  split; [apply accumulate_tidy, Hacc|].
  intros other_type.
  exact (accumulate_filed energy_type
           (UsageList (omap (current_usage energy_type) entries)) acc
           other_type).
Qed.

Lemma tidy_empty :
  tidy ([] : list (GeoEnergyType * GeoPeriodicEnergyUsage num)).
Proof. split; constructor. Qed.

Lemma periodic_sections_filed (body : payload num) :
  periodic_payload_ok body ->
  exists rtn,
    periodic_sections body = Ok rtn
    /\ tidy rtn
    /\ forall energy_type,
         peu_usage <$> dict_get energy_type rtn
         = let filed :=
             extended
               (extended None
                  (map (forever_usage energy_type)
                     (filter
                        (fun entry => consumption_of energy_type entry = true)
                        (default [] (totalConsumptionList body)))))
               (map (unbilled_usage energy_type)
                  (filter (fun entry => unbilled_of energy_type entry = true)
                     (default [] (billToDateList body)))) in
           match current_costs_of body energy_type with
           | Some entries =>
               Some (default [] filed
                     ++ omap (current_usage energy_type) entries)%list
           | None => filed
           end.
Proof.
  intros (Htc & Hbtd & Helec & Hgas). unfold periodic_sections.
  assert (exists acc1,
            when_present (totalConsumptionList body)
              _parse_total_consumption [] = Ok acc1
            /\ tidy acc1
            /\ forall energy_type,
                 peu_usage <$> dict_get energy_type acc1
                 = extended None
                     (map (forever_usage energy_type)
                        (filter
                           (fun entry =>
                              consumption_of energy_type entry = true)
                           (default [] (totalConsumptionList body)))))
    as (acc1 & -> & Hacc1 & Hfiled1).
  { destruct (totalConsumptionList body) as [entries|];
      cbn [when_present default from_option id] in *.
    - apply (total_consumption_filed entries [] tidy_empty Htc).
    - exists []. split; [reflexivity|]. split; [apply tidy_empty|].
      reflexivity. }
  cbn [obind].
  assert (exists acc2,
            when_present (billToDateList body) _parse_bill_to_date acc1
            = Ok acc2
            /\ tidy acc2
            /\ forall energy_type,
                 peu_usage <$> dict_get energy_type acc2
                 = extended (peu_usage <$> dict_get energy_type acc1)
                     (map (unbilled_usage energy_type)
                        (filter
                           (fun entry => unbilled_of energy_type entry = true)
                           (default [] (billToDateList body)))))
    as (acc2 & -> & Hacc2 & Hfiled2).
  { destruct (billToDateList body) as [entries|];
      cbn [when_present default from_option id] in *.
    - apply bill_to_date_filed; assumption.
    - exists acc1. split; [reflexivity|]. split; [assumption|].
      reflexivity. }
  cbn [obind].
  assert (exists acc3,
            when_present (currentCostsElec body)
              (_parse_current_costs ELECTRICITY) acc2 = Ok acc3
            /\ tidy acc3
            /\ forall energy_type,
                 peu_usage <$> dict_get energy_type acc3
                 = match energy_type, currentCostsElec body with
                   | ELECTRICITY, Some entries =>
                       Some (default [] (peu_usage <$> dict_get ELECTRICITY acc2)
                             ++ omap (current_usage ELECTRICITY) entries)%list
                   | _, _ => peu_usage <$> dict_get energy_type acc2
                   end)
    as (acc3 & -> & Hacc3 & Hfiled3).
  { destruct (currentCostsElec body) as [entries|];
      cbn [when_present default from_option id] in *.
    - destruct (current_costs_filed ELECTRICITY entries acc2 Hacc2 Helec)
        as (acc3 & Hrun & Htidy & Hfiled).
      exists acc3. split; [exact Hrun|]. split; [exact Htidy|].
      intros energy_type. rewrite Hfiled. destruct energy_type; reflexivity.
    - exists acc2. split; [reflexivity|]. split; [assumption|].
      intros energy_type. destruct energy_type; reflexivity. }
  cbn [obind].
  assert (exists acc4,
            when_present (currentCostsGas body)
              (_parse_current_costs GAS_ENERGY) acc3 = Ok acc4
            /\ tidy acc4
            /\ forall energy_type,
                 peu_usage <$> dict_get energy_type acc4
                 = match energy_type, currentCostsGas body with
                   | GAS_ENERGY, Some entries =>
                       Some (default [] (peu_usage <$> dict_get GAS_ENERGY acc3)
                             ++ omap (current_usage GAS_ENERGY) entries)%list
                   | _, _ => peu_usage <$> dict_get energy_type acc3
                   end)
    as (acc4 & -> & Hacc4 & Hfiled4).
  { destruct (currentCostsGas body) as [entries|];
      cbn [when_present default from_option id] in *.
    - destruct (current_costs_filed GAS_ENERGY entries acc3 Hacc3 Hgas)
        as (acc4 & Hrun & Htidy & Hfiled).
      exists acc4. split; [exact Hrun|]. split; [exact Htidy|].
      intros energy_type. rewrite Hfiled. destruct energy_type; reflexivity.
    - exists acc3. split; [reflexivity|]. split; [assumption|].
      intros energy_type. destruct energy_type; reflexivity. }
  exists acc4. split; [reflexivity|]. split; [assumption|].
  intros energy_type. cbv zeta. rewrite Hfiled4.
  destruct energy_type; cbn [current_costs_of].
  - rewrite Hfiled3.
    destruct (currentCostsGas body); rewrite Hfiled2, Hfiled1; reflexivity.
  - rewrite Hfiled3.
    destruct (currentCostsGas body), (currentCostsElec body);
      rewrite Hfiled2, Hfiled1; reflexivity.
Qed.

Lemma filter_nil_not_In {A} (P : A -> Prop) `{!forall x, Decision (P x)}
    (l : list A) :
  filter P l = [] <-> ~ exists x, In x l /\ P x.
Proof.
  induction l as [|a l IH]; [split; [intros _ (x & [] & _)|reflexivity]|].
  rewrite filter_cons. destruct (decide (P a)) as [Ha|Ha].
  - split; [discriminate|]. intros Hno. exfalso. apply Hno.
    exists a. split; [left; reflexivity|exact Ha].
  - rewrite IH. split.
    + intros Hno (x & [<-|Hin] & Hx); [contradiction|].
      apply Hno. eauto.
    + intros Hno (x & Hin & Hx). apply Hno. exists x.
      split; [right; exact Hin|exact Hx].
Qed.

Lemma tidy_types acc :
  tidy acc -> map peu_type (dict_values acc) = dict_keys acc.
Proof.
  intros [Hk _]. unfold dict_values, dict_keys.
  induction Hk as [|[k p] acc Ht _ IH]; [reflexivity|].
  cbn [map fst snd] in *. rewrite Ht, IH. reflexivity.
Qed.

(** [get_periodic_usage] on a well-formed payload: one
    [GeoPeriodicEnergyUsage] for each energy type the payload files anything
    under, holding the totals, then the bills, then the current costs of
    that type, each in the order the payload lists them. *)
Theorem periodic_usage_grouped (w : world num) c (body : payload num) :
  ready c ->
  transport w (periodic_request c) = Response 200 body ->
  periodic_payload_ok body ->
  exists result,
    get_periodic_usage w c = (Ok result, c, [periodic_request c])
    /\ List.NoDup (map peu_type result)
    /\ forall energy_type,
         (mentioned body energy_type ->
          filter (fun p => peu_type p = energy_type) result
          = [mkGeoPeriodicEnergyUsage energy_type
               (grouped_usage body energy_type)])
         /\ (~ mentioned body energy_type ->
             filter (fun p => peu_type p = energy_type) result = []).
Proof.
  intros Hready Hreply Hok.
  destruct (periodic_sections_filed body Hok) as (rtn & Hrun & Htidy & Hfiled).
  exists (dict_values rtn).
  rewrite periodic_run by assumption. rewrite Hreply. cbn [Z.eqb Pos.eqb].
  rewrite Hrun. split; [reflexivity|]. split.
  { rewrite tidy_types by assumption. apply Htidy. }
  intros energy_type. specialize (Hfiled energy_type). cbv zeta in Hfiled.
  rewrite extended_filed in Hfiled.
  set (totals := filter (fun entry => consumption_of energy_type entry = true)
                   (default [] (totalConsumptionList body))) in *.
  set (bills := filter (fun entry => unbilled_of energy_type entry = true)
                  (default [] (billToDateList body))) in *.
  assert (mentioned body energy_type
          <-> totals <> [] \/ bills <> []
              \/ is_Some (current_costs_of body energy_type)) as Hm.
  { unfold mentioned, totals, bills. rewrite !filter_nil_not_In.
    split; (intros [H|[H|H]]; [left|right; left|right; right]); try tauto.
    - destruct (decide (filter
                          (fun entry => consumption_of energy_type entry = true)
                          (default [] (totalConsumptionList body)) = []))
        as [E|E].
      + apply filter_nil_not_In in E. contradiction.
      + destruct (filter _ _) as [|x l] eqn:Hf; [contradiction|].
        assert (In x (filter
                        (fun entry => consumption_of energy_type entry = true)
                        (default [] (totalConsumptionList body)))) as Hin
          by (rewrite Hf; left; reflexivity).
        apply list_elem_of_In, list_elem_of_filter in Hin as [Hp Hin].
        exists x. split; [apply list_elem_of_In, Hin|exact Hp].
    - destruct (filter (fun entry => unbilled_of energy_type entry = true)
                  (default [] (billToDateList body))) as [|x l] eqn:Hf.
      + apply filter_nil_not_In in Hf. contradiction.
      + assert (In x (filter
                        (fun entry => unbilled_of energy_type entry = true)
                        (default [] (billToDateList body)))) as Hin
          by (rewrite Hf; left; reflexivity).
        apply list_elem_of_In, list_elem_of_filter in Hin as [Hp Hin].
        exists x. split; [apply list_elem_of_In, Hin|exact Hp]. }
  assert (peu_usage <$> dict_get energy_type rtn
          = if decide (totals <> [] \/ bills <> []
                       \/ is_Some (current_costs_of body energy_type))
            then Some (grouped_usage body energy_type) else None) as Hget.
  { rewrite Hfiled. unfold grouped_usage. fold totals. fold bills.
    destruct (current_costs_of body energy_type) as [entries|].
    - rewrite decide_True by (right; right; eauto).
      cbn [default from_option id].
      destruct totals, bills; cbn [map default from_option id app];
        rewrite ?app_nil_r, <- ?app_assoc; reflexivity.
    - destruct totals as [|x totals'], bills as [|y bills'].
      + rewrite decide_False; [reflexivity|].
        intros [H|[H|[? H]]]; congruence.
      + rewrite decide_True by (right; left; discriminate).
        cbn. rewrite app_nil_r. reflexivity.
      + rewrite decide_True by (left; discriminate).
        cbn. rewrite !app_nil_r. reflexivity.
      + rewrite decide_True by (left; discriminate).
        cbn. rewrite !app_nil_r. reflexivity. }
  split.
  - intros Hmen. apply Hm in Hmen. rewrite decide_True in Hget by assumption.
    destruct (dict_get energy_type rtn) as [periodic|] eqn:Hdg;
      [|discriminate].
    injection Hget as Hu.
    pose proof (dict_get_Forall _ _ _ _ (proj1 Htidy) Hdg) as Ht.
    cbn [fst snd] in Ht.
    rewrite (tidy_unique rtn energy_type periodic Htidy Hdg).
    destruct periodic as [t l]. cbn [peu_type peu_usage] in *. congruence.
  - intros Hno. rewrite decide_False in Hget by (rewrite <- Hm; exact Hno).
    destruct (dict_get energy_type rtn) eqn:Hdg; [discriminate|].
    apply tidy_none; [apply Htidy|].
    apply dict_get_None_keys, Hdg.
Qed.

(** A total that lacks a key the parser subscripts, or that names no member
    of [GeoEnergyType], makes [get_periodic_usage] raise [KeyError]: a
    built-in error, not a [GeoTogetherError].  The request has been sent by
    then, and the client is as it was. *)
Theorem periodic_malformed_total (w : world num) c (body : payload num)
    (good rest : list (consumption num)) (bad : consumption num) :
  ready c ->
  transport w (periodic_request c) = Response 200 body ->
  totalConsumptionList body = Some (good ++ bad :: rest)%list ->
  Forall consumption_ok good ->
  ~ consumption_ok bad ->
  exists key,
    get_periodic_usage w c = (Raise (KeyError key), c, [periodic_request c])
    /\ (key = "commodityType" \/ key = "totalConsumption"
        \/ tc_commodityType bad = Some key).
Proof.
  intros Hready Hreply Hlist Hgood Hbad.
  rewrite periodic_run by assumption. rewrite Hreply. cbn [Z.eqb Pos.eqb].
  unfold periodic_sections. rewrite Hlist. cbn [when_present].
  unfold _parse_total_consumption. rewrite for_each_app.
  destruct (total_consumption_run good [] tidy_empty Hgood)
    as (acc & Hrun & _).
  unfold _parse_total_consumption in Hrun. rewrite Hrun.
  cbn [obind for_each].
  destruct (tc_commodityType bad) as [key|] eqn:Hkey; cbn [subscript obind].
  2:{ exists "commodityType". split; [reflexivity|auto]. }
  unfold GeoEnergyType_getitem at 1.
  destruct (bool_decide (key = "ELECTRICITY")) eqn:E1;
    [|destruct (bool_decide (key = "GAS_ENERGY")) eqn:E2].
  3:{ exists key. cbn [obind]. split; [reflexivity|auto]. }
  all: cbn [obind];
    destruct (totalConsumption bad) as [amount|] eqn:Ha;
    cbn [subscript obind];
    [exfalso; apply Hbad; split; [|eauto];
     unfold energy_type_named, GeoEnergyType_getitem; rewrite Hkey, E1, ?E2;
     eauto
    |exists "totalConsumption"; split; [reflexivity|auto]].
Qed.
End grouping.

(** * The text of readings and usages *)

Lemma append_cons (x : Ascii.ascii) (a b : string) :
  String x a +:+ b = String x (a +:+ b).
Proof. reflexivity. Qed.

Lemma append_assoc (a b c : string) : (a +:+ b) +:+ c = a +:+ (b +:+ c).
Proof.
  induction a as [|x a IH]; [reflexivity|].
  rewrite !append_cons, IH. reflexivity.
Qed.

Lemma append_empty (a : string) : a +:+ "" = a.
Proof.
  induction a as [|x a IH]; [reflexivity|]. rewrite append_cons, IH.
  reflexivity.
Qed.

Section text_facts.
Context {num : Type} `{!Number num} `{!NumberText num}.
Implicit Types (self : GeoEnergyUsage num) (reading : GeoLivePowerUsage num).

(** The text of a live reading exists exactly when the reading has its
    watts and a type that, upper-cased, is the name of a member of
    [GeoEnergyType]; it is then the value of the member, the watts and the
    unit. *)
Theorem live_str_succeeds reading (text : string) :
  live_str reading = Ok text
  <-> exists raw_type member power,
        type (_live_usage reading) = Some raw_type
        /\ GeoEnergyType_getitem (upper raw_type) = Ok member
        /\ watts (_live_usage reading) = Some power
        /\ text = value member +:+ ": " +:+ num_str power +:+ " W".
Proof.
  unfold live_str, live_type, live_unit, live_value.
  destruct (type (_live_usage reading)) as [raw|]; cbn [obind value_of].
  2:{ split; [discriminate|]. intros (? & ? & ? & [=] & _). }
  destruct (bool_decide_reflect (raw = "")) as [->|Hne]; cbn [obind value_of].
  { split; [discriminate|]. intros (r & m & p & [= <-] & Hm & _).
    vm_compute in Hm. discriminate Hm. }
  destruct (GeoEnergyType_getitem (upper raw)) as [member|e] eqn:Hitem;
    cbn [obind value_of].
  2:{ split; [discriminate|]. intros (r & m & p & [= <-] & Hm & _).
      congruence. }
  destruct (watts (_live_usage reading)) as [power|]; cbn [obind value_of].
  - split.
    + intros [= <-]. exists raw, member, power. auto.
    + intros (r & m & p & [= <-] & Hm & [= <-] & ->).
      rewrite Hitem in Hm. injection Hm as <-. reflexivity.
  - split; [discriminate|]. intros (r & m & p & _ & _ & [=] & _).
Qed.

(** The type of a reading is looked up among the names of the members of
    [GeoEnergyType], not among their values, whatever the case of the
    letters: a reading typed with the value of [ELECTRICITY] is an
    electricity reading, one typed with the value of [GAS_ENERGY] has no
    type, the lookup raises [KeyError]. *)
Theorem live_type_by_member_name reading (raw : string)
    (member : GeoEnergyType) :
  type (_live_usage reading) = Some raw ->
  upper raw = upper (value member) ->
  live_type reading
  = match member with
    | ELECTRICITY => Ok (Some ELECTRICITY)
    | GAS_ENERGY => Raise (KeyError "GAS")
    end.
Proof.
  intros Hraw Hup. unfold live_type. rewrite Hraw, Hup.
  destruct (bool_decide_reflect (raw = "")) as [->|Hne].
  - destruct member; discriminate Hup.
  - destruct member; reflexivity.
Qed.

Lemma usage_format_copy self (first : Ascii.ascii) (rest : string) :
  is_percent first = false ->
  usage_format self (String first rest)
  = let? tail := usage_format self rest in Ok (String first tail).
Proof.
  intros Hp. cbn [usage_format]. rewrite Hp. destruct rest; reflexivity.
Qed.

Lemma usage_format_replace self (first letter : Ascii.ascii)
    (after : string) :
  is_percent first = true -> char_in letter "ptuacPTUAC" = true ->
  usage_format self (String first (String letter after))
  = let? text := replacer self (String first (String letter EmptyString)) in
    let? tail := usage_format self after in
    Ok (text +:+ tail).
Proof. intros Hp Hl. cbn [usage_format]. rewrite Hp, Hl. reflexivity. Qed.

Lemma usage_format_skip self (first letter : Ascii.ascii) (after : string) :
  char_in letter "ptuacPTUAC" = false ->
  usage_format self (String first (String letter after))
  = let? tail := usage_format self (String letter after) in
    Ok (String first tail).
Proof.
  intros Hl. cbn [usage_format]. rewrite Hl, andb_false_r. reflexivity.
Qed.

(** A format specification without a percent sign comes back as it is. *)
Theorem usage_format_plain self (format_spec : string) :
  Forall (fun a => is_percent a = false) (String.list_ascii_of_string format_spec) ->
  usage_format self format_spec = Ok format_spec.
Proof.
  induction format_spec as [|a rest IH]; intros Hall; [reflexivity|].
  cbn [String.list_ascii_of_string] in Hall.
  apply List.Forall_cons_iff in Hall as [Ha Hrest].
  rewrite usage_format_copy by exact Ha. rewrite IH by exact Hrest.
  reflexivity.
Qed.

Lemma obind_ret {A} (m : outcome A) : (let? a := m in Ok a) = m.
Proof. destruct m; reflexivity. Qed.

(** Formatting goes piece by piece: cut anywhere but right after a percent
    sign, a specification formats to the texts of its two pieces, and fails
    where the first failing piece fails. *)
Theorem usage_format_app self (left right : string) :
  (forall s, left <> s +:+ "%") ->
  usage_format self (left +:+ right)
  = let? a := usage_format self left in
    let? b := usage_format self right in
    Ok (a +:+ b).
Proof.
  revert left.
  assert (forall left,
            ((forall s, left <> s +:+ "%") ->
             usage_format self (left +:+ right)
             = let? a := usage_format self left in
               let? b := usage_format self right in
               Ok (a +:+ b))
            /\ forall first,
                 (forall s, String first left <> s +:+ "%") ->
                 usage_format self (String first left +:+ right)
                 = let? a := usage_format self (String first left) in
                   let? b := usage_format self right in
                   Ok (a +:+ b)) as Hboth.
  { induction left as [|letter after [IH0 IH1]].
    - split.
      + intros _. cbn. rewrite obind_ret. reflexivity.
      + intros first Hend.
        assert (is_percent first = false) as Hp.
        { unfold is_percent. apply bool_decide_eq_false. intros E.
          apply (Hend ""). exact E. }
        rewrite ?append_cons. rewrite !(usage_format_copy self first) by exact Hp.
        change ("" +:+ right) with right. cbn [usage_format obind].
        destruct (usage_format self right); reflexivity.
    - split; [apply IH1|].
      intros first Hend.
      assert (forall s, String letter after <> s +:+ "%") as Hend1.
      { intros s E. apply (Hend (String first s)). cbn. rewrite E.
        reflexivity. }
      assert (forall s, after <> s +:+ "%") as Hend0.
      { intros s E. apply (Hend (String first (String letter s))). cbn.
        rewrite E. reflexivity. }
      rewrite ?append_cons.
      destruct (char_in letter "ptuacPTUAC") eqn:Hl;
        [destruct (is_percent first) eqn:Hp|].
      + rewrite !(usage_format_replace self first letter) by assumption.
        rewrite IH0 by exact Hend0.
        destruct (replacer self _) as [text|]; [|reflexivity].
        cbn [obind].
        destruct (usage_format self after) as [tail|]; [|reflexivity].
        cbn [obind].
        destruct (usage_format self right) as [b|]; [|reflexivity].
        cbn [obind]. rewrite append_assoc. reflexivity.
      + rewrite !(usage_format_copy self first) by assumption.
        change (String letter (after +:+ right))
          with (String letter after +:+ right).
        rewrite IH1 by exact Hend1.
        destruct (usage_format self (String letter after)) as [a|];
          [|reflexivity].
        cbn [obind].
        destruct (usage_format self right) as [b|]; reflexivity.
      + rewrite !(usage_format_skip self first letter) by assumption.
        change (String letter (after +:+ right))
          with (String letter after +:+ right).
        rewrite IH1 by exact Hend1.
        destruct (usage_format self (String letter after)) as [a|];
          [|reflexivity].
        cbn [obind].
        destruct (usage_format self right) as [b|]; reflexivity. }
  intros left. apply Hboth.
Qed.

Lemma usage_format_after_plain self (plain rest : string) :
  Forall (fun a => is_percent a = false) (String.list_ascii_of_string plain) ->
  usage_format self (plain +:+ rest)
  = let? tail := usage_format self rest in Ok (plain +:+ tail).
Proof.
  induction plain as [|a plain IH]; intros Hall.
  - cbn. rewrite obind_ret. reflexivity.
  - cbn [String.list_ascii_of_string] in Hall.
    apply List.Forall_cons_iff in Hall as [Ha Hrest].
    rewrite ?append_cons. rewrite usage_format_copy by exact Ha.
    rewrite IH by exact Hrest.
    destruct (usage_format self rest); reflexivity.
Qed.

(** Rounding a field that is absent fails: on a usage without an amount
    the specifier for the rounded amount raises [TypeError], and so does
    the specifier for the cost in pounds on a usage without a cost. *)
Theorem usage_format_absent_field self (plain rest : string) :
  Forall (fun a => is_percent a = false) (String.list_ascii_of_string plain) ->
  (eu_energy_amount self = None ->
   usage_format self (plain +:+ "%A" +:+ rest) = Raise TypeError)
  /\ (eu_energy_cost self = None ->
      usage_format self (plain +:+ "%C" +:+ rest) = Raise TypeError)
  /\ usage_format self (plain +:+ "%a %c")
     = Ok (plain +:+ str_of (eu_energy_amount self) +:+ " "
           +:+ str_of (eu_energy_cost self)).
Proof.
  intros Hplain. split; [|split].
  - intros Hnone. rewrite usage_format_after_plain by exact Hplain.
    rewrite ?append_cons.
    rewrite usage_format_replace by reflexivity.
    unfold replacer. cbn. rewrite Hnone. reflexivity.
  - intros Hnone. rewrite usage_format_after_plain by exact Hplain.
    rewrite ?append_cons.
    rewrite usage_format_replace by reflexivity.
    unfold replacer. cbn. rewrite Hnone. reflexivity.
  - rewrite usage_format_after_plain by exact Hplain.
    rewrite usage_format_replace by reflexivity.
    rewrite (usage_format_copy self) by reflexivity.
    rewrite usage_format_replace by reflexivity.
    change (replacer self "%a") with (Ok (A:=string) (str_of (eu_energy_amount self))).
    change (replacer self "%c") with (Ok (A:=string) (str_of (eu_energy_cost self))).
    cbn. rewrite ?append_empty. reflexivity.
Qed.

(** [str] of a usage is what the specification of period, amount and unit
    formats to. *)
Theorem usage_str_is_format self :
  usage_format self "%p: %a%u" = Ok (usage_str self).
Proof.
  rewrite usage_format_replace by reflexivity.
  rewrite (usage_format_copy self) by reflexivity.
  rewrite (usage_format_copy self) by reflexivity.
  rewrite usage_format_replace by reflexivity.
  rewrite usage_format_replace by reflexivity.
  change (replacer self "%p") with (Ok (A:=string) (value (eu_period self))).
  change (replacer self "%a")
    with (Ok (A:=string) (str_of (eu_energy_amount self))).
  change (replacer self "%u") with (Ok (A:=string) (value (usage_unit self))).
  cbn. rewrite ?append_empty. reflexivity.
Qed.

(** The text of a periodic usage never shows the figures of the day: the
    usage found is formatted with an empty specification.  It is the value
    of the energy type and a colon, followed by [None] when there is no
    usage for the day. *)
Theorem periodic_str_text (periodic : GeoPeriodicEnergyUsage num) :
  periodic_str periodic
  = Ok (value (peu_type periodic) +:+ ": "
        +:+ match get_usage periodic DAY with
            | Some _ => ""
            | None => "None"
            end).
Proof.
  unfold periodic_str. destruct (get_usage periodic DAY); reflexivity.
Qed.
End text_facts.

(** * The properties on the sample sessions *)

(** A fresh client logs in and picks the first of two systems. *)
Lemma login_makes_ready_witness :
  ready sample_client
  /\ _system_id sample_client = PyStr "A"
  /\ snd (get_live_usage offline sample_client) = [live_request sample_client]
  /\ snd (get_periodic_usage offline sample_client)
     = [periodic_request sample_client].
Proof.
  apply (login_makes_ready (replying 200 login_reply)
           (replying 200 home_and_away) offline (new_client "user" "secret")
           (with_token (new_client "user" "secret") "token") sample_client
           None (PyStr "A") [login_request (new_client "user" "secret")]
           [systems_request (with_token (new_client "user" "secret") "token")]).
  - vm_compute. reflexivity.
  - vm_compute. reflexivity.
  - reflexivity.
Defined.

(** The sample client logs in again after its token was dropped. *)
Lemma login_again_after_expiry_witness :
  ready (with_token (expired sample_client) "token")
  /\ _system_id (with_token (expired sample_client) "token")
     = _system_id sample_client.
Proof.
  apply (login_again_after_expiry (replying 200 login_reply) sample_client
           (with_token (expired sample_client) "token")
           [login_request (expired sample_client)]).
  - exact sample_client_ready.
  - vm_compute. reflexivity.
Defined.

(** Nearly three million days back from 2024-03-06 is before year 1. *)
Lemma historic_range_error_escapes_witness :
  exists e,
    get_historic_usage (import_geocommon sample_day) offline DAY 2915000
      sample_client
    = (Raise e, sample_client, [])
    /\ (e = ValueError \/ e = OverflowError)
    /\ isinstance_GeoTogetherError e = false.
Proof.
  apply (historic_range_error_escapes sample_day offline DAY 2915000
           sample_client).
  - exact sample_client_ready.
  - split; discriminate.
  - reflexivity.
  - vm_compute. reflexivity.
Defined.

(** The sample client against a server that answers 401. *)
Lemma expiry_clears_token_witness :
  get_live_usage (replying 401 empty_payload) sample_client
  = (Raise expired_error, expired sample_client, [live_request sample_client])
  /\ get_periodic_usage (replying 401 empty_payload) sample_client
     = (Raise expired_error, expired sample_client,
        [periodic_request sample_client])
  /\ get_live_usage offline (expired sample_client)
     = (Raise not_authenticated_error, expired sample_client, [])
  /\ get_periodic_usage offline (expired sample_client)
     = (Raise not_authenticated_error, expired sample_client, [])
  /\ get_historic_usage (import_geocommon sample_day) offline DAY 0
       (expired sample_client)
     = (Raise not_authenticated_error, expired sample_client, []).
Proof.
  destruct (expiry_clears_token (import_geocommon sample_day)
              (replying 401 empty_payload) offline sample_client
              empty_payload DAY 0 sample_client_ready)
    as (Hlive & Hperiodic & Hnext).
  split; [apply Hlive; reflexivity|].
  split; [apply Hperiodic; reflexivity|exact Hnext].
Defined.

(** The sample client against a server that answers 500, and off line. *)
Lemma failures_surface_witness :
  (get_live_usage (replying 500 empty_payload) sample_client
   = (Raise (status_error 500), sample_client, [live_request sample_client])
   /\ get_periodic_usage (replying 500 empty_payload) sample_client
      = (Raise (status_error 500), sample_client,
         [periodic_request sample_client]))
  /\ get_live_usage offline sample_client
     = (Raise (connectivity "unreachable"), sample_client,
        [live_request sample_client])
  /\ get_periodic_usage offline sample_client
     = (Raise (connectivity "unreachable"), sample_client,
        [periodic_request sample_client])
  /\ get_historic_usage (import_geocommon sample_day) offline DAY 0
       sample_client
     = (Raise (connectivity "unreachable"), sample_client,
        [sample_historic_request]).
Proof.
  destruct (failures_surface (import_geocommon sample_day)
              (replying 500 empty_payload) sample_client sample_client_ready)
    as [Hstatus _].
  destruct (failures_surface (import_geocommon sample_day) offline
              sample_client sample_client_ready) as [_ Hoffline].
  destruct (Hstatus 500 empty_payload ltac:(discriminate) ltac:(discriminate))
    as [Hlive Hperiodic].
  destruct (Hoffline "unreachable") as (Hlive' & Hperiodic' & Hhistoric).
  split; [split; [apply Hlive; reflexivity|apply Hperiodic; reflexivity]|].
  split; [apply Hlive'; reflexivity|].
  split; [apply Hperiodic'; reflexivity|].
  apply (Hhistoric DAY 0 sample_day sample_day).
  - split; discriminate.
  - vm_compute. reflexivity.
  - reflexivity.
Defined.

(** Both energy types, electricity with its two current costs. *)
Lemma periodic_usage_grouped_witness :
  exists result,
    get_periodic_usage (replying 200 both_types) sample_client
    = (Ok result, sample_client, [periodic_request sample_client])
    /\ List.NoDup (map peu_type result)
    /\ forall energy_type,
         (mentioned both_types energy_type ->
          filter (fun p => peu_type p = energy_type) result
          = [mkGeoPeriodicEnergyUsage energy_type
               (grouped_usage both_types energy_type)])
         /\ (~ mentioned both_types energy_type ->
             filter (fun p => peu_type p = energy_type) result = []).
Proof.
  apply (periodic_usage_grouped (replying 200 both_types) sample_client
           both_types).
  - exact sample_client_ready.
  - reflexivity.
  - repeat split; repeat constructor; eexists; vm_compute; reflexivity.
Defined.

Example periodic_both_types_sample :
  fst (fst (get_periodic_usage (replying 200 both_types) sample_client))
  = Ok [mkGeoPeriodicEnergyUsage ELECTRICITY
          [mkGeoEnergyUsage FOREVER ELECTRICITY (Some 100) None;
           mkGeoEnergyUsage DAY ELECTRICITY (Some 12) (Some 250);
           mkGeoEnergyUsage WEEK ELECTRICITY (Some 70) (Some 1500)];
        mkGeoPeriodicEnergyUsage GAS_ENERGY
          [mkGeoEnergyUsage FOREVER GAS_ENERGY (Some 40) None;
           mkGeoEnergyUsage UNBILLED GAS_ENERGY None (Some 250)]].
Proof. vm_compute. reflexivity. Qed.

(** A total that names gas by its value, after a well-formed one. *)
Lemma periodic_malformed_total_witness :
  exists key,
    get_periodic_usage (replying 200 gas_by_value) sample_client
    = (Raise (KeyError key), sample_client, [periodic_request sample_client])
    /\ (key = "commodityType" \/ key = "totalConsumption"
        \/ Some "Gas" = Some key).
Proof.
  apply (periodic_malformed_total (replying 200 gas_by_value) sample_client
           gas_by_value
           [ {| tc_commodityType := Some "ELECTRICITY";
                totalConsumption := Some 100 |} ]
           []
           {| tc_commodityType := Some "Gas"; totalConsumption := Some 40 |}).
  - exact sample_client_ready.
  - reflexivity.
  - reflexivity.
  - repeat constructor; eexists; vm_compute; reflexivity.
  - intros [[member Hmember] _]. vm_compute in Hmember. discriminate Hmember.
Defined.

(** A gas reading as the API types it. *)
Lemma live_type_by_member_name_witness :
  live_type gas_reading = Raise (KeyError "GAS").
Proof.
  apply (live_type_by_member_name gas_reading "gas" GAS_ENERGY);
    reflexivity.
Defined.

(** A specification without a percent sign. *)
Lemma usage_format_plain_witness :
  usage_format day_usage "used today" = Ok "used today".
Proof.
  apply (usage_format_plain day_usage "used today").
  repeat constructor.
Defined.

(** A specification cut between two specifiers. *)
Lemma usage_format_app_witness :
  usage_format day_usage ("%a" +:+ "%u")
  = let? a := usage_format day_usage "%a" in
    let? b := usage_format day_usage "%u" in
    Ok (a +:+ b).
Proof.
  apply (usage_format_app day_usage "%a" "%u").
  intros s E. destruct s as [|x [|y [|z s]]]; vm_compute in E; discriminate E.
Defined.

Example usage_format_sample :
  usage_format day_usage "%P: %a%u (%U) cost %C or %c, 100%% %x %"
  = Ok "Day: 12kWh (Kilowatt Hours) cost 2.5 or 250, 100%% %x %".
Proof. vm_compute. reflexivity. Qed.

(** A usage with neither amount nor cost. *)
Lemma usage_format_absent_field_witness :
  usage_format empty_usage ("used " +:+ "%A" +:+ "!") = Raise TypeError
  /\ usage_format empty_usage ("used " +:+ "%C" +:+ "!") = Raise TypeError
  /\ usage_format empty_usage ("used " +:+ "%a %c")
     = Ok ("used " +:+ str_of (eu_energy_amount empty_usage) +:+ " "
           +:+ str_of (eu_energy_cost empty_usage)).
Proof.
  destruct (usage_format_absent_field empty_usage "used " "!")
    as (Hamount & Hcost & Hraw); [repeat constructor|].
  split; [apply Hamount; reflexivity|].
  split; [apply Hcost; reflexivity|exact Hraw].
Defined.
